(** * PayTech AI assistant: the streaming-response core of [frontend/app.js]

    A shallow embedding of the client's streaming state machine: the SSE frame
    parser ([readSseStream]), the delta buffer ([streamAppend],
    [flushStreamNow]), the stream session ([finalizeStreaming],
    [finalizeStreamingInterrupted]) and the recovery logic of [sendMessage]
    ([runChatFallback], the watchdog, [stopGenerating]).

    - JavaScript strings are sequences of UTF-16 code units; the network
      delivers bytes, which a streaming [TextDecoder] turns into code units.
    - The parser is a function from chunks to the handler calls it makes; the
      handlers of [sendMessage] are functions on the client's state.
    - The module's variables and the variables of one [sendMessage] call are
      records passed from step to step; what the client does to the outside
      (requests, aborts, timers, persistence) is appended to a log.
    - What the outside does (responses, chunks, the frame callback, the
      watchdog firing, the user pressing stop, the thread being rendered
      again) is an input: an environment record and a list of steps, one step
      per point where [sendMessage] waits.
    - Pure presentation (DOM nodes, the top bar, the debug log) is left out,
      except where it feeds back into the session's logic: whether the
      session's element is still the one in the thread. *)

From Stdlib Require Import List NArith ZArith Bool Lia String Ascii.
From Stdlib Require Import Strings.Byte DecimalString.
From Equations Require Import Equations.
From Equations.Prop Require Import Logic.
Import ListNotations.

Set Warnings "-register-all".

(* ===================================================================== *)
(** ** JavaScript strings *)
(* ===================================================================== *)

Module JS.

(** A string value: its UTF-16 code units, in order. *)
Definition jstr := list N.

Definition jstr_eq_dec : forall a b : jstr, {a = b} + {a <> b} :=
  list_eq_dec N.eq_dec.

Definition eqs (a b : jstr) : bool := if jstr_eq_dec a b then true else false.

(** ECMAScript [WhiteSpace] and [LineTerminator]: what [trim], [trimStart]
    and the regular expression [\s] strip or match. *)
Definition is_ws (c : N) : bool :=
  ((9 <=? c) && (c <=? 13) || (c =? 32) || (c =? 160) || (c =? 5760)
   || (8192 <=? c) && (c <=? 8202) || (c =? 8232) || (c =? 8233)
   || (c =? 8239) || (c =? 8287) || (c =? 12288) || (c =? 65279))%N.

Fixpoint trimStart (s : jstr) : jstr :=
  match s with
  | c :: r => if is_ws c then trimStart r else s
  | [] => []
  end.

Definition trimEnd (s : jstr) : jstr := rev (trimStart (rev s)).

Definition trim (s : jstr) : jstr := trimEnd (trimStart s).

(** [s.startsWith(p)] *)
Fixpoint startsWith (p s : jstr) : bool :=
  match p, s with
  | [], _ => true
  | a :: p', b :: s' => (a =? b)%N && startsWith p' s'
  | _ :: _, [] => false
  end.

(** [s.endsWith(p)] *)
Definition endsWith (p s : jstr) : bool := startsWith (rev p) (rev s).

(** [s.indexOf(c)] for a one-unit needle; [None] stands for -1. *)
Fixpoint indexOf (c : N) (s : jstr) : option nat :=
  match s with
  | [] => None
  | x :: r => if (x =? c)%N then Some 0
              else match indexOf c r with Some i => Some (S i) | None => None end
  end.

(** [s.slice(a)] and [s.slice(0, b)] for indices within the string. *)
Definition slice_from (a : nat) (s : jstr) : jstr := skipn a s.
Definition slice_to (b : nat) (s : jstr) : jstr := firstn b s.

(** [lines.join(sep)] *)
Fixpoint join (sep : jstr) (l : list jstr) : jstr :=
  match l with
  | [] => []
  | [x] => x
  | x :: r => x ++ sep ++ join sep r
  end.

(** [toLowerCase], one code unit at a time.  Beyond ASCII only the two code
    units whose lower case contains an ASCII letter are tabulated (KELVIN SIGN
    and LATIN CAPITAL LETTER I WITH DOT ABOVE): the results are only ever
    compared with ASCII words. *)
Definition lower_unit (c : N) : jstr :=
  if ((65 <=? c) && (c <=? 90))%N then [(c + 32)%N]
  else if (c =? 8490)%N then [107%N]
  else if (c =? 304)%N then [105%N; 775%N]
  else [c].

Definition toLowerCase (s : jstr) : jstr := flat_map lower_unit s.

End JS.
Import JS.

(* ===================================================================== *)
(** ** The streaming UTF-8 decoder ([new TextDecoder()], [stream: true]) *)
(* ===================================================================== *)

Module Utf8.

(** State of the decoder between two calls of [decode(value, {stream: true})]:
    the code point under construction, the continuation bytes seen and needed,
    the bounds for the next byte, and whether the byte order mark test has
    already been done. *)
Record Decoder := mkDecoder {
  code_point : N;
  bytes_seen : N;
  bytes_needed : N;
  lower_boundary : N;
  upper_boundary : N;
  bom_seen : bool
}.

Definition fresh : Decoder := mkDecoder 0 0 0 128 191 false.

Definition reset (d : Decoder) : Decoder := mkDecoder 0 0 0 128 191 (bom_seen d).

(** A byte met while no sequence is open. *)
Definition lead (d : Decoder) (b : N) : Decoder * list N :=
  if (b <=? 127)%N then (d, [b])
  else if ((194 <=? b) && (b <=? 223))%N then
    (mkDecoder (N.land b 31) 0 1 128 191 (bom_seen d), [])
  else if ((224 <=? b) && (b <=? 239))%N then
    (mkDecoder (N.land b 15) 0 2
       (if (b =? 224)%N then 160 else 128)
       (if (b =? 237)%N then 159 else 191) (bom_seen d), [])
  else if ((240 <=? b) && (b <=? 244))%N then
    (mkDecoder (N.land b 7) 0 3
       (if (b =? 240)%N then 144 else 128)
       (if (b =? 244)%N then 143 else 191) (bom_seen d), [])
  else (d, [65533%N]).

(** One byte through the decoder: the new state and the code points that
    come out (a malformed sequence yields U+FFFD and the offending byte is
    looked at again as a lead byte). *)
Definition step (d : Decoder) (b : N) : Decoder * list N :=
  if (bytes_needed d =? 0)%N then lead d b
  else if ((lower_boundary d <=? b) && (b <=? upper_boundary d))%N then
    let cp := N.lor (N.shiftl (code_point d) 6) (N.land b 63) in
    if (bytes_seen d + 1 =? bytes_needed d)%N then (reset d, [cp])
    else (mkDecoder cp (bytes_seen d + 1) (bytes_needed d) 128 191 (bom_seen d), [])
  else
    let (d', out) := lead (reset d) b in (d', 65533%N :: out).

(** A code point as UTF-16 code units. *)
Definition units (cp : N) : jstr :=
  if (cp <? 65536)%N then [cp]
  else [(55296 + N.shiftr (cp - 65536) 10)%N; (56320 + N.land (cp - 65536) 1023)%N].

(** Serialising the decoder's output: the first code point ever produced is
    dropped when it is the byte order mark. *)
Fixpoint serialize (seen : bool) (cps : list N) : bool * jstr :=
  match cps with
  | [] => (seen, [])
  | cp :: r =>
      let (s', out) := serialize true r in
      (s', if negb seen && (cp =? 65279)%N then out else units cp ++ out)
  end.

Definition with_bom (d : Decoder) (b : bool) : Decoder :=
  mkDecoder (code_point d) (bytes_seen d) (bytes_needed d)
            (lower_boundary d) (upper_boundary d) b.

(** One byte, serialised. *)
Definition step_units (d : Decoder) (b : byte) : Decoder * jstr :=
  let (d1, cps) := step d (Byte.to_N b) in
  let (seen, out) := serialize (bom_seen d1) cps in
  (with_bom d1 seen, out).

(** [decoder.decode(value, { stream: true })] *)
Fixpoint decode (d : Decoder) (bs : list byte) : Decoder * jstr :=
  match bs with
  | [] => (d, [])
  | b :: r =>
      let (d1, o1) := step_units d b in
      let (d2, o2) := decode d1 r in
      (d2, o1 ++ o2)
  end.

(** A complete text: what [decode(bytes)] (no streaming, hence flushing)
    returns; a sequence left open at the end yields U+FFFD. *)
Definition decode_all (bs : list byte) : jstr :=
  let (d, out) := decode fresh bs in
  if (bytes_needed d =? 0)%N then out
  else out ++ snd (serialize (bom_seen d) [65533%N]).

End Utf8.

(** String literals of the source, written as UTF-8 text. *)
Definition js (s : string) : jstr := Utf8.decode_all (list_byte_of_string s).

(** The same, for literals that contain double quotes: an apostrophe in the
    text stands for one. *)
Definition jq (s : string) : jstr :=
  map (fun c => if (c =? 39)%N then 34%N else c) (js s).

(* ===================================================================== *)
(** ** JSON values and [JSON.parse] *)
(* ===================================================================== *)

Module Json.

(** A parsed value.  A number is kept as the exact decimal [m * 10^e] that
    was written; an object keeps its members in the order written. *)
Inductive JValue :=
| JNull
| JBool (b : bool)
| JNum (m e : Z)
| JStr (s : jstr)
| JArr (items : list JValue)
| JObj (members : list (jstr * JValue)).

Definition is_json_ws (c : N) : bool :=
  ((c =? 32) || (c =? 9) || (c =? 10) || (c =? 13))%N.

Fixpoint skip_ws (s : jstr) : jstr :=
  match s with
  | c :: r => if is_json_ws c then skip_ws r else s
  | [] => []
  end.

Definition hex_val (c : N) : option N :=
  if ((48 <=? c) && (c <=? 57))%N then Some (c - 48)%N
  else if ((97 <=? c) && (c <=? 102))%N then Some (c - 87)%N
  else if ((65 <=? c) && (c <=? 70))%N then Some (c - 55)%N
  else None.

Definition hex4 (a b c d : N) : option N :=
  match hex_val a, hex_val b, hex_val c, hex_val d with
  | Some x, Some y, Some z, Some w => Some (((x * 16 + y) * 16 + z) * 16 + w)%N
  | _, _, _, _ => None
  end.

(** The body of a string, after its opening quote: the value read (units
    accumulated in reverse) and what follows the closing quote. *)
Fixpoint parse_string (s : jstr) (acc : jstr) : option (jstr * jstr) :=
  match s with
  | [] => None
  | 34%N :: r => Some (rev acc, r)
  | 92%N :: 34%N :: r => parse_string r (34%N :: acc)
  | 92%N :: 92%N :: r => parse_string r (92%N :: acc)
  | 92%N :: 47%N :: r => parse_string r (47%N :: acc)
  | 92%N :: 98%N :: r => parse_string r (8%N :: acc)
  | 92%N :: 102%N :: r => parse_string r (12%N :: acc)
  | 92%N :: 110%N :: r => parse_string r (10%N :: acc)
  | 92%N :: 114%N :: r => parse_string r (13%N :: acc)
  | 92%N :: 116%N :: r => parse_string r (9%N :: acc)
  | 92%N :: 117%N :: a :: b :: c :: d :: r =>
      match hex4 a b c d with
      | Some u => parse_string r (u :: acc)
      | None => None
      end
  | 92%N :: _ => None
  | c :: r => if (c <? 32)%N then None else parse_string r (c :: acc)
  end.

Definition is_digit (c : N) : bool := ((48 <=? c) && (c <=? 57))%N.

(** The longest run of digits: their value continued from [acc], how many
    there were, and the rest. *)
Fixpoint digits (s : jstr) (acc : Z) (n : Z) : Z * Z * jstr :=
  match s with
  | c :: r => if is_digit c then digits r (acc * 10 + Z.of_N (c - 48)) (n + 1)
              else (acc, n, s)
  | [] => (acc, n, s)
  end.

Definition parse_exponent (s : jstr) : option (Z * jstr) :=
  match s with
  | c :: r =>
      if ((c =? 101) || (c =? 69))%N then
        let '(neg, r1) :=
          match r with
          | 45%N :: r' => (true, r')
          | 43%N :: r' => (false, r')
          | _ => (false, r)
          end in
        let '(v, n, r2) := digits r1 0 0 in
        if (n =? 0)%Z then None else Some (if neg then (- v)%Z else v, r2)
      else Some (0%Z, s)
  | [] => Some (0%Z, s)
  end.

Definition parse_fraction (int : Z) (s : jstr) : option (Z * Z * jstr) :=
  match s with
  | 46%N :: r =>
      let '(v, n, r1) := digits r int 0 in
      if (n =? 0)%Z then None else Some (v, n, r1)
  | _ => Some (int, 0%Z, s)
  end.

(** A number: an optional minus sign, an integer part without a leading
    zero, an optional fraction and an optional exponent. *)
Definition parse_number (s : jstr) : option (JValue * jstr) :=
  let '(neg, r) := match s with 45%N :: r' => (true, r') | _ => (false, s) end in
  let int_part :=
    match r with
    | 48%N :: r1 => Some (0%Z, r1)
    | c :: _ => if is_digit c then let '(v, _, r1) := digits r 0 0 in Some (v, r1)
                else None
    | [] => None
    end in
  match int_part with
  | None => None
  | Some (i, r1) =>
      match parse_fraction i r1 with
      | None => None
      | Some (m, nfrac, r2) =>
          match parse_exponent r2 with
          | None => None
          | Some (ex, r3) => Some (JNum (if neg then - m else m) (ex - nfrac), r3)
          end
      end
  end.

(** A value, then the members of an object and the items of an array after
    their first unit.  Every call reads at least one unit before it calls
    again, so fuel above the length of the text is never exhausted. *)
Fixpoint parse_value (fuel : nat) (s : jstr) {struct fuel} : option (JValue * jstr) :=
  match fuel with
  | O => None
  | S n =>
      match skip_ws s with
      | 123%N :: r =>
          match skip_ws r with
          | 125%N :: r' => Some (JObj [], r')
          | _ => parse_members n r []
          end
      | 91%N :: r =>
          match skip_ws r with
          | 93%N :: r' => Some (JArr [], r')
          | _ => parse_items n r []
          end
      | 34%N :: r =>
          match parse_string r [] with
          | Some (x, r') => Some (JStr x, r')
          | None => None
          end
      | 116%N :: 114%N :: 117%N :: 101%N :: r => Some (JBool true, r)
      | 102%N :: 97%N :: 108%N :: 115%N :: 101%N :: r => Some (JBool false, r)
      | 110%N :: 117%N :: 108%N :: 108%N :: r => Some (JNull, r)
      | t => parse_number t
      end
  end
with parse_members (fuel : nat) (s : jstr) (acc : list (jstr * JValue))
       {struct fuel} : option (JValue * jstr) :=
  match fuel with
  | O => None
  | S n =>
      match skip_ws s with
      | 34%N :: r =>
          match parse_string r [] with
          | None => None
          | Some (k, r1) =>
              match skip_ws r1 with
              | 58%N :: r2 =>
                  match parse_value n r2 with
                  | None => None
                  | Some (v, r3) =>
                      match skip_ws r3 with
                      | 44%N :: r4 => parse_members n r4 (acc ++ [(k, v)])
                      | 125%N :: r4 => Some (JObj (acc ++ [(k, v)]), r4)
                      | _ => None
                      end
                  end
              | _ => None
              end
          end
      | _ => None
      end
  end
with parse_items (fuel : nat) (s : jstr) (acc : list JValue)
       {struct fuel} : option (JValue * jstr) :=
  match fuel with
  | O => None
  | S n =>
      match parse_value n s with
      | None => None
      | Some (v, r1) =>
          match skip_ws r1 with
          | 44%N :: r2 => parse_items n r2 (acc ++ [v])
          | 93%N :: r2 => Some (JArr (acc ++ [v]), r2)
          | _ => None
          end
      end
  end.

(** [JSON.parse(s)]; [None] when it throws. *)
Definition parse (s : jstr) : option JValue :=
  match parse_value (S (S (List.length s))) s with
  | Some (v, r) => match skip_ws r with [] => Some v | _ => None end
  | None => None
  end.

(** Reading a property: [None] is [undefined].  Of an object's members with
    the same key the last one written is the one kept. *)
Fixpoint lookup (k : jstr) (l : list (jstr * JValue)) : option JValue :=
  match l with
  | [] => None
  | (k', v) :: r =>
      match lookup k r with
      | Some w => Some w
      | None => if eqs k k' then Some v else None
      end
  end.

Definition get (k : jstr) (v : JValue) : option JValue :=
  match v with
  | JObj l => lookup k l
  | _ => None
  end.

(** Whether a number written as [m * 10^e] is zero as a double: zero itself,
    or at most half the least subnormal, [2^-1075]. *)
Definition num_is_zero (m e : Z) : bool :=
  ((m =? 0) || ((e <? 0) && (Z.abs m * 2 ^ 1075 <=? 10 ^ (- e))))%Z.

(** Truthiness, of a value and of a value that may be [undefined]. *)
Definition truthy (v : JValue) : bool :=
  match v with
  | JNull => false
  | JBool b => b
  | JNum m e => negb (num_is_zero m e)
  | JStr s => negb (eqs s [])
  | JArr _ | JObj _ => true
  end.

Definition truthy_opt (v : option JValue) : bool :=
  match v with Some x => truthy x | None => false end.

(** [v != null]: neither [null] nor [undefined]. *)
Definition not_nullish (v : option JValue) : bool :=
  match v with Some JNull | None => false | Some _ => true end.

(** The first of several property reads that is neither [null] nor
    [undefined]. *)
Fixpoint first_not_nullish (l : list (option JValue)) : option JValue :=
  match l with
  | [] => None
  | v :: r => if not_nullish v then v else first_not_nullish r
  end.

Definition is_string (v : option JValue) : option jstr :=
  match v with Some (JStr s) => Some s | _ => None end.

(** [v && typeof v === "object" && !Array.isArray(v)] *)
Definition is_plain_object (v : JValue) : bool :=
  match v with JObj _ => true | _ => false end.

End Json.
Import Json.

(** A [String(v)] to run the model with.  It is the platform's on [null],
    the booleans, strings, objects without a [toString] member, and
    integers below 2^53 in magnitude written without fraction or exponent.
    On every other value (larger integers, numbers with a fraction or an
    exponent, arrays) it returns the empty string, which is not the
    platform's; the runs below convert no such value, and the theorems hold
    for any [ToStr]. *)
Definition render (v : JValue) : jstr :=
  match v with
  | JNull => js "null"
  | JBool true => js "true"
  | JBool false => js "false"
  | JNum m 0 =>
      (if (m <? 0)%Z then js "-" else []) ++
      js (DecimalString.NilZero.string_of_uint (N.to_uint (Z.abs_N m)))
  | JNum _ _ => []
  | JStr s => s
  | JArr _ => []
  | JObj _ => js "[object Object]"
  end.

(** [safeJsonParse] *)
Definition safeJsonParse (s : jstr) : JValue :=
  match Json.parse s with Some v => v | None => JNull end.


(* ===================================================================== *)
(** ** The frame parser: [readSseStream] *)
(* ===================================================================== *)

Section Client.

(** [String(v)] for a parsed value that is not a string is the platform's
    (number formatting is floating point), and is taken as a parameter; it is
    assumed to return, which it does unless an object of the payload has a
    member named [toString]. *)
Variable ToStr : JValue -> jstr.

Definition String_of (v : JValue) : jstr :=
  match v with JStr s => s | _ => ToStr v end.

(** [String(a || b || "")] *)
Definition String_or2 (a b : option JValue) : jstr :=
  match a, b with
  | Some x, _ => if truthy x then String_of x
                 else match b with
                      | Some y => if truthy y then String_of y else []
                      | None => []
                      end
  | None, Some y => if truthy y then String_of y else []
  | None, None => []
  end.

(** [String(a || "")] *)
Definition String_or (a : option JValue) : jstr := String_or2 a None.

(** The handler the parser calls, with its argument. *)
Inductive Call :=
| OnDelta (text : jstr)
| OnStatus (payload : JValue)
| OnMeta (payload : JValue)
| OnSources (payload : JValue)
| OnArtifact (payload : JValue)
| OnCitations (payload : JValue)
| OnError (payload : JValue)
| OnDone.

(** The parser's variables that outlive a line: [event], [dataLines] and
    [sawTerminal]. *)
Record Frame := mkFrame {
  event : jstr;
  dataLines : list jstr;
  sawTerminal : bool
}.

Definition is_open (c : N) : bool := ((c =? 123) || (c =? 91))%N.
Definition is_close (c : N) : bool := ((c =? 125) || (c =? 93))%N.

(** The [for] loop of [splitLeadingJson] from index [j] on; [seen] holds
    [s.slice(i, j)] in reverse. *)
Fixpoint scanJson (s : jstr) (depth : Z) (inString esc : bool) (seen : jstr)
  : option (jstr * jstr) :=
  match s with
  | [] => None
  | ch :: r =>
      if inString then
        if esc then scanJson r depth true false (ch :: seen)
        else if (ch =? 92)%N then scanJson r depth true true (ch :: seen)
        else if (ch =? 34)%N then scanJson r depth false esc (ch :: seen)
        else scanJson r depth true esc (ch :: seen)
      else if (ch =? 34)%N then scanJson r depth true esc (ch :: seen)
      else
        let d1 := if is_open ch then (depth + 1)%Z else depth in
        let d2 := if is_close ch then (d1 - 1)%Z else d1 in
        if (d2 =? 0)%Z then Some (rev (ch :: seen), r)
        else scanJson r d2 false esc (ch :: seen)
  end.

(** [splitLeadingJson(text)]: the balanced prefix [jsonText] and the [rest]. *)
Definition splitLeadingJson (text : jstr) : option (jstr * jstr) :=
  match trimStart text with
  | (first :: _) as t => if is_open first then scanJson t 0 false false [] else None
  | [] => None
  end.

Definition nl : jstr := [10%N].

(** The text a [delta] carries (the [deltaText] closure of [emit]). *)
Definition deltaText (restAfterJson : jstr) (payload : JValue) (dataRaw : jstr) : jstr :=
  let rest := trimStart restAfterJson in
  if negb (eqs rest []) then rest
  else match payload with
  | JNull => dataRaw
  | JStr s => s
  | _ =>
    match is_string (get (js "text") payload) with
    | Some s => s
    | None =>
    match is_string (get (js "t") payload) with
    | Some s => s
    | None =>
    match first_not_nullish [get (js "t") payload; get (js "delta") payload;
                             get (js "content") payload; get (js "text") payload] with
    | Some v => String_of v
    | None => dataRaw
    end end end
  end.

(** The event name [emit] dispatches on. *)
Definition eventName (ev : jstr) (payload : JValue) : jstr :=
  let e0 := if eqs ev [] then js "message" else ev in
  let e1 := if eqs (trim e0) [] then js "message" else trim e0 in
  if (eqs e1 (js "message") || eqs e1 (js "event")) && is_plain_object payload then
    let t := trim (String_or2 (get (js "type") payload) (get (js "event") payload)) in
    if eqs t [] then e1 else t
  else e1.


(** [payload && typeof payload === "object" &&
     String(payload.phase || "").toLowerCase() === word] *)
Definition phase_is (payload : JValue) (word : jstr) : bool :=
  match payload with
  | JObj _ | JArr _ => eqs (toLowerCase (String_or (get (js "phase") payload))) word
  | _ => false
  end.

Definition dispatch (name : jstr) (payload : JValue) (text : jstr)
    (jsonPrefix : bool) (saw : bool) : bool * list Call :=
  if eqs name (js "delta") then (saw, [OnDelta text])
  else if eqs name (js "status") then
    (saw || phase_is payload (js "done") || phase_is payload (js "error"),
     [OnStatus payload])
  else if eqs name (js "meta") then (saw, [OnMeta payload])
  else if eqs name (js "sources") then (saw, [OnSources payload])
  else if eqs name (js "artifact") then (saw, [OnArtifact payload])
  else if eqs name (js "citations") then (saw, [OnCitations payload])
  else if eqs name (js "error") then
    (true, [OnError (if truthy payload then payload
                     else JObj [(js "message", JStr (js "Erro."))])])
  else if eqs name (js "done") then (true, [OnDone])
  else
    let looksLikeTextDelta :=
      negb (eqs text []) && negb (is_plain_object payload && jsonPrefix) in
    (saw, if looksLikeTextDelta then [OnDelta text] else []).

(** [emit()]: the frame afterwards and the handler calls made. *)
Definition emit (f : Frame) : Frame * list Call :=
  match dataLines f with
  | [] => (f, [])
  | _ :: _ =>
      let dataRaw := join nl (dataLines f) in
      if eqs (trim dataRaw) (js "[DONE]") then
        (mkFrame (js "message") [] true, [OnDone])
      else
        let split := splitLeadingJson dataRaw in
        let restAfterJson := match split with Some (_, rest) => rest | None => [] end in
        let payload :=
          safeJsonParse (match split with Some (jsonText, _) => jsonText | None => dataRaw end) in
        let name := eventName (event f) payload in
        let text := deltaText restAfterJson payload dataRaw in
        let (saw, calls) :=
          dispatch name payload text
                   (match split with Some _ => true | None => false end)
                   (sawTerminal f) in
        (mkFrame (js "message") [] saw, calls)
  end.

(** The body of the inner [while] loop for one line, its line feed already
    cut off. *)
Definition on_line (f : Frame) (line0 : jstr) : Frame * list Call :=
  let line := if endsWith [13%N] line0
              then slice_to (List.length line0 - 1) line0 else line0 in
  if eqs line [] then emit f
  else if startsWith (js "event:") line then
    let e := trim (slice_from 6 line) in
    (mkFrame (if eqs e [] then js "message" else e) (dataLines f) (sawTerminal f), [])
  else if startsWith (js "data:") line then
    (mkFrame (event f) (dataLines f ++ [trimStart (slice_from 5 line)]) (sawTerminal f), [])
  else (f, []).

Lemma indexOf_skipn_lt (c : N) (b : jstr) (idx : nat) :
  indexOf c b = Some idx -> List.length (slice_from (S idx) b) < List.length b.
Proof.
  unfold slice_from. revert idx. induction b as [|x r IH]; intros idx H; simpl in H.
  - discriminate.
  - destruct (x =? c)%N.
    + injection H as <-. simpl. lia.
    + destruct (indexOf c r) as [i|] eqn:E; [|discriminate].
      injection H as <-. specialize (IH i eq_refl). simpl in *. lia.
Qed.

(** The inner loop: [while ((idx = buf.indexOf("\n")) >= 0) { ... }], from
    the buffer [b]; [out] collects the handler calls. *)
Equations drain (f : Frame) (b : jstr) (out : list Call) : Frame * jstr * list Call
  by wf (List.length b) lt :=
  drain f b out with inspect (indexOf 10%N b) => {
    | exist _ (Some idx) _ =>
        drain (fst (on_line f (slice_to idx b))) (slice_from (S idx) b)
              (out ++ snd (on_line f (slice_to idx b)));
    | exist _ None _ => (f, b, out) }.
Next Obligation. apply indexOf_skipn_lt with (c := 10%N). assumption. Qed.

(** The reader side of [readSseStream]: the decoder, the text buffer and the
    frame under construction. *)
Record Parser := mkParser {
  decoder : Utf8.Decoder;
  buf : jstr;
  frame : Frame
}.

Definition parser0 : Parser :=
  mkParser Utf8.fresh [] (mkFrame (js "message") [] false).

(** One turn of the outer loop, for a chunk the reader returned. *)
Definition feed (p : Parser) (chunk : list byte) : Parser * list Call :=
  let (d, text) := Utf8.decode (decoder p) chunk in
  let '(f, b, out) := drain (frame p) (buf p ++ text) [] in
  (mkParser d b f, out).

Fixpoint feed_all (p : Parser) (chunks : list (list byte)) : Parser * list Call :=
  match chunks with
  | [] => (p, [])
  | c :: r =>
      let (p1, o1) := feed p c in
      let (p2, o2) := feed_all p1 r in
      (p2, o1 ++ o2)
  end.

(** [readSseStream(reader, handlers)] for a reader that delivers [chunks] and
    then ends: the handler calls in order, and the value returned. *)
Definition readSseStream (chunks : list (list byte)) : list Call * bool :=
  let (p, out) := feed_all parser0 chunks in
  let (f, last) := emit (frame p) in
  (out ++ last, sawTerminal f).

(* ===================================================================== *)
(** ** The stream session and its delta buffer *)
(* ===================================================================== *)

Inductive Role := User | Assistant | SystemRole.

(** A message of a conversation.  [artifacts] absent is the empty list: the
    code only ever stores a non-empty array there.  The fields that no
    operation below reads or that are reset to a constant ([ts],
    [attachments], [sources], [sourcesRequested]) are left out. *)
Record Message := mkMessage {
  msg_id : string;
  role : Role;
  content : jstr;
  interrupted : bool;
  artifacts : list JValue
}.

Record Conversation := mkConversation {
  conv_id : string;
  messages : list Message
}.

(** The live session, [streamingMsg].  [contentEl] tells whether the session
    holds a content element; [sm_sources] and [sm_artifacts] are [null] until
    an event sets them. *)
Record StreamingMsg := mkStreamingMsg {
  convId : string;
  msgId : string;
  contentEl : bool;
  hasFirstChunk : bool;
  thinkingText : jstr;
  sm_sources : option (list JValue);
  sm_artifacts : option (list JValue)
}.

(** What [ensureStreamingBind] finds when it looks the message up in the
    thread: the element the session is bound to, another one (the thread was
    rendered again), or none. *)
Inductive DomView := ViewSame | ViewRebuilt | ViewGone.

Inductive Outcome := FinalOk | FinalError (text : jstr) | FinalInterrupted.

(** What the client does to the outside, in order. *)
Inductive Effect :=
| Finalized (o : Outcome)       (* a live session was finalized *)
| Persist                       (* [upsertConversation]; [persistState] *)
| AutoTitle (conv : string)     (* [maybeAutoTitleConversation], deferred *)
| Fetch (path : string)         (* a request, with its retries *)
| Abort                         (* [currentAbortController.abort()] *)
| SetTimeout (ms : N)           (* a timer is started: the watchdog, the slow hint *)
| ClearTimeout                  (* [clearTimeout] is called on such a timer *)
| Toast (text : jstr).

(** The module's variables: [conversations], [streamingMsg], [streamBuffer],
    [streamFlushRaf] (a frame callback is pending), the thread as the session
    sees it, and the log of effects. *)
Record Session := mkSession {
  conversations : list Conversation;
  streamingMsg : option StreamingMsg;
  streamBuffer : jstr;
  streamFlushRaf : bool;
  view : DomView;
  log : list Effect
}.

Definition set_conversations (c : list Conversation) (s : Session) : Session :=
  mkSession c (streamingMsg s) (streamBuffer s) (streamFlushRaf s) (view s) (log s).
Definition set_streamingMsg (m : option StreamingMsg) (s : Session) : Session :=
  mkSession (conversations s) m (streamBuffer s) (streamFlushRaf s) (view s) (log s).
Definition set_streamBuffer (b : jstr) (s : Session) : Session :=
  mkSession (conversations s) (streamingMsg s) b (streamFlushRaf s) (view s) (log s).
Definition set_streamFlushRaf (r : bool) (s : Session) : Session :=
  mkSession (conversations s) (streamingMsg s) (streamBuffer s) r (view s) (log s).
Definition set_view (v : DomView) (s : Session) : Session :=
  mkSession (conversations s) (streamingMsg s) (streamBuffer s) (streamFlushRaf s) v (log s).
Definition effect (e : Effect) (s : Session) : Session :=
  mkSession (conversations s) (streamingMsg s) (streamBuffer s) (streamFlushRaf s)
            (view s) (log s ++ [e]).

Definition set_content (t : jstr) (m : Message) : Message :=
  mkMessage (msg_id m) (role m) t (interrupted m) (artifacts m).
Definition set_interrupted (b : bool) (m : Message) : Message :=
  mkMessage (msg_id m) (role m) (content m) b (artifacts m).
Definition set_artifacts (a : list JValue) (m : Message) : Message :=
  mkMessage (msg_id m) (role m) (content m) (interrupted m) a.

Definition set_hasFirstChunk (b : bool) (m : StreamingMsg) : StreamingMsg :=
  mkStreamingMsg (convId m) (msgId m) (contentEl m) b (thinkingText m)
                 (sm_sources m) (sm_artifacts m).
Definition set_contentEl (b : bool) (m : StreamingMsg) : StreamingMsg :=
  mkStreamingMsg (convId m) (msgId m) b (hasFirstChunk m) (thinkingText m)
                 (sm_sources m) (sm_artifacts m).
Definition set_thinkingText (t : jstr) (m : StreamingMsg) : StreamingMsg :=
  mkStreamingMsg (convId m) (msgId m) (contentEl m) (hasFirstChunk m) t
                 (sm_sources m) (sm_artifacts m).
Definition set_sm_sources (x : option (list JValue)) (m : StreamingMsg) : StreamingMsg :=
  mkStreamingMsg (convId m) (msgId m) (contentEl m) (hasFirstChunk m) (thinkingText m)
                 x (sm_artifacts m).
Definition set_sm_artifacts (x : option (list JValue)) (m : StreamingMsg) : StreamingMsg :=
  mkStreamingMsg (convId m) (msgId m) (contentEl m) (hasFirstChunk m) (thinkingText m)
                 (sm_sources m) x.

(** Mutating the first element that a [find] returns. *)
Fixpoint update_first {A : Type} (p : A -> bool) (f : A -> A) (l : list A) : list A :=
  match l with
  | [] => []
  | x :: r => if p x then f x :: r else x :: update_first p f r
  end.

Definition is_conv (c : string) (x : Conversation) : bool := String.eqb (conv_id x) c.
Definition is_msg (m : string) (x : Message) : bool := String.eqb (msg_id x) m.

(** [conversations.find(c => c.id === convId)?.messages?.find(m => m.id === msgId)] *)
Definition find_msg (cs : list Conversation) (c m : string) : option Message :=
  match find (is_conv c) cs with
  | Some x => find (is_msg m) (messages x)
  | None => None
  end.

(** An assignment to a field of the message so found (the objects are shared:
    the message in [conversations] is the one that changes). *)
Definition update_msg (c m : string) (f : Message -> Message)
    (cs : list Conversation) : list Conversation :=
  update_first (is_conv c)
    (fun x => mkConversation (conv_id x) (update_first (is_msg m) f (messages x))) cs.

(** The message the live session is bound to. *)
Definition bound_msg (s : Session) : option Message :=
  match streamingMsg s with
  | Some sm => find_msg (conversations s) (convId sm) (msgId sm)
  | None => None
  end.

Definition blank (t : jstr) : bool := eqs (trim t) [].

(** [ensureStreamingBind()]: when the thread shows another element for the
    message, the session is bound to it, and a message that already has text
    counts as started. *)
Definition ensureStreamingBind (s : Session) : Session :=
  match streamingMsg s with
  | None => s
  | Some sm =>
      match view s with
      | ViewGone | ViewSame => s
      | ViewRebuilt =>
          let existingText :=
            match find_msg (conversations s) (convId sm) (msgId sm) with
            | Some m => content m
            | None => []
            end in
          let sm1 := set_contentEl true sm in
          let sm2 := if blank existingText then sm1 else set_hasFirstChunk true sm1 in
          set_view ViewSame (set_streamingMsg (Some sm2) s)
      end
  end.

(** [clearThread()], and the thread rendered again by [renderThread()]:
    [shown] tells whether the session's conversation is the one rendered. *)
Definition clearThread (s : Session) : Session :=
  let s1 := match streamingMsg s with
            | Some sm => set_streamingMsg (Some (set_contentEl false sm)) s
            | None => s
            end in
  set_streamFlushRaf false (set_streamBuffer [] s1).

Definition renderThread (shown : bool) (s : Session) : Session :=
  set_view (if shown then ViewRebuilt else ViewGone) (clearThread s).

(** [msg.content = String(msg.content || "") + streamBuffer], for the bound
    message if it is found. *)
Definition append_to_bound (sm : StreamingMsg) (s : Session) : Session :=
  set_conversations
    (update_msg (convId sm) (msgId sm)
       (fun m => set_content (content m ++ streamBuffer s) m) (conversations s)) s.

(** [flushStreamNow()] *)
Definition flushStreamNow (s : Session) : Session :=
  match streamingMsg s with
  | None => s
  | Some _ =>
      let s1 := set_streamFlushRaf false (ensureStreamingBind s) in
      match streamBuffer s1, streamingMsg s1 with
      | [], _ | _, None => s1
      | _ :: _, Some sm => set_streamBuffer [] (append_to_bound sm s1)
      end
  end.

(** [streamAppend(text)] *)
Definition streamAppend (text : jstr) (s : Session) : Session :=
  match streamingMsg s with
  | None => s
  | Some _ =>
      let s1 := ensureStreamingBind s in
      let s2 := match streamingMsg s1 with
                | Some sm => set_streamingMsg (Some (set_hasFirstChunk true sm)) s1
                | None => s1
                end in
      set_streamFlushRaf true (set_streamBuffer (streamBuffer s2 ++ text) s2)
  end.

(** The frame callback that [streamAppend] schedules, when it runs: it runs
    only while its handle is the pending one. *)
Definition frameCallback (s : Session) : Session :=
  if streamFlushRaf s then
    let s1 := set_streamFlushRaf false s in
    match streamingMsg s1, streamBuffer s1 with
    | None, _ | _, [] => s1
    | Some sm, _ :: _ => set_streamBuffer [] (append_to_bound sm s1)
    end
  else s.

(** [setThinkingStatus(nextText)] *)
Definition setThinkingStatus (nextText : jstr) (s : Session) : Session :=
  match streamingMsg s with
  | None => s
  | Some _ =>
      let s1 := ensureStreamingBind s in
      if blank nextText then s1
      else match streamingMsg s1 with
           | Some sm => set_streamingMsg (Some (set_thinkingText (trim nextText) sm)) s1
           | None => s1
           end
  end.

(** [ensureThinkingVisible()]: beyond the rebinding, presentation only. *)
Definition ensureThinkingVisible (s : Session) : Session :=
  match streamingMsg s with
  | None => s
  | Some _ => ensureStreamingBind s
  end.

(** [setStreamingSources(items)], for [items = p?.items]. *)
Definition setStreamingSources (items : option JValue) (s : Session) : Session :=
  match streamingMsg s with
  | None => s
  | Some sm =>
      set_streamingMsg
        (Some (set_sm_sources
                 (Some (match items with Some (JArr l) => l | _ => [] end)) sm)) s
  end.

(** [pushStreamingArtifact(artifact)] *)
Definition pushStreamingArtifact (a : JValue) (s : Session) : Session :=
  match streamingMsg s with
  | None => s
  | Some sm =>
      set_streamingMsg
        (Some (set_sm_artifacts
                 (Some (match sm_artifacts sm with Some l => l | None => [] end ++ [a]))
                 sm)) s
  end.

(** The argument of [finalizeStreaming]: [errorMessage] and [artifacts] may
    be absent; [sources] is accepted and ignored. *)
Record FinalizeArgs := mkFinalizeArgs {
  ok : bool;
  errorMessage : option JValue;
  arg_artifacts : option (list JValue)
}.

Definition finalize_ok : FinalizeArgs := mkFinalizeArgs true None None.
Definition finalize_error (text : jstr) : FinalizeArgs :=
  mkFinalizeArgs false (Some (JStr text)) None.

(** [String(errorMessage || "Falha ao gerar resposta.")] *)
Definition error_text (e : option JValue) : jstr :=
  if truthy_opt e then match e with Some v => String_of v | None => [] end
  else js "Falha ao gerar resposta.".

(** [finalizeStreaming({ ok, errorMessage, sources, artifacts })], after
    its guard and its call of [flushStreamNow]. *)
Definition finalize_flushed (a : FinalizeArgs) (s1 : Session) : Session :=
  match streamingMsg s1 with
  | None => s1
  | Some sm =>
      let finalArtifacts :=
        match arg_artifacts a, sm_artifacts sm with
        | Some l, _ => l
        | None, Some l => l
        | None, None => []
        end in
      match find_msg (conversations s1) (convId sm) (msgId sm) with
      | None => set_streamingMsg None s1
      | Some _ =>
          let upd m :=
            let m1 := if ok a then m else set_content (error_text (errorMessage a)) m in
            match finalArtifacts with
            | [] => m1
            | _ :: _ => set_artifacts finalArtifacts m1
            end in
          let s2 := set_conversations
                      (update_msg (convId sm) (msgId sm) upd (conversations s1)) s1 in
          let s3 := effect Persist
                      (effect (Finalized (if ok a then FinalOk
                                          else FinalError (error_text (errorMessage a))))
                              (set_streamingMsg None s2)) in
          if ok a then effect (AutoTitle (convId sm)) s3 else s3
      end
  end.

(** [finalizeStreaming({ ok, errorMessage, sources, artifacts })] *)
Definition finalizeStreaming (a : FinalizeArgs) (s : Session) : Session :=
  match streamingMsg s with
  | None => s
  | Some _ => finalize_flushed a (flushStreamNow s)
  end.

(** [finalizeStreamingInterrupted()], after its guard and its flush. *)
Definition interrupt_flushed (s1 : Session) : Session :=
  match streamingMsg s1 with
  | None => s1
  | Some sm =>
      match find_msg (conversations s1) (convId sm) (msgId sm) with
      | None => set_streamingMsg None s1
      | Some _ =>
          let upd m :=
            let m1 := set_interrupted true m in
            if blank (content m1) then set_content (js "Geração interrompida.") m1
            else m1 in
          let s2 := set_conversations
                      (update_msg (convId sm) (msgId sm) upd (conversations s1)) s1 in
          effect Persist (effect (Finalized FinalInterrupted) (set_streamingMsg None s2))
      end
  end.

(** [finalizeStreamingInterrupted()] *)
Definition finalizeStreamingInterrupted (s : Session) : Session :=
  match streamingMsg s with
  | None => s
  | Some _ => interrupt_flushed (flushStreamNow s)
  end.

(** [startStreamingIntoMessage({ convId, msgId, contentEl })], when the
    content element exists (otherwise it returns false and changes
    nothing). *)
Definition startStreamingIntoMessage (c m : string) (s : Session) : Session :=
  let sm := mkStreamingMsg c m true false (js "Analisando…") None None in
  let s1 := ensureThinkingVisible (set_view ViewSame (set_streamingMsg (Some sm) s)) in
  set_streamFlushRaf false (set_streamBuffer [] s1).

(* ===================================================================== *)
(** ** Sending a message: [sendMessage], [runChatFallback], [stopGenerating] *)
(* ===================================================================== *)

(** The variables of one [sendMessage] call next to the module's:
    [conv.id] and [assistantMsg.id] of the call, [isGenerating],
    [sendInFlight], [currentAbortController] (whether it is set, and whether
    the signal it gave out has been aborted), the watchdog (the variable, and
    whether the timer can still fire) and the two flags of the call. *)
Record Send := mkSend {
  sess : Session;
  sendConv : string;
  sendMsg : string;
  isGenerating : bool;
  sendInFlight : bool;
  controller : bool;
  signalAborted : bool;
  watchdogTimer : bool;
  watchdogPending : bool;
  watchdogFallback : bool;
  emptyStreamDone : bool
}.

Definition on_sess (f : Session -> Session) (x : Send) : Send :=
  mkSend (f (sess x)) (sendConv x) (sendMsg x) (isGenerating x) (sendInFlight x)
         (controller x) (signalAborted x) (watchdogTimer x) (watchdogPending x)
         (watchdogFallback x) (emptyStreamDone x).
Definition set_ids (c m : string) (x : Send) : Send :=
  mkSend (sess x) c m (isGenerating x) (sendInFlight x)
         (controller x) (signalAborted x) (watchdogTimer x) (watchdogPending x)
         (watchdogFallback x) (emptyStreamDone x).
Definition setGenerating (b : bool) (x : Send) : Send :=
  mkSend (sess x) (sendConv x) (sendMsg x) b (sendInFlight x)
         (controller x) (signalAborted x) (watchdogTimer x) (watchdogPending x)
         (watchdogFallback x) (emptyStreamDone x).
Definition set_sendInFlight (b : bool) (x : Send) : Send :=
  mkSend (sess x) (sendConv x) (sendMsg x) (isGenerating x) b
         (controller x) (signalAborted x) (watchdogTimer x) (watchdogPending x)
         (watchdogFallback x) (emptyStreamDone x).
Definition set_controller (c a : bool) (x : Send) : Send :=
  mkSend (sess x) (sendConv x) (sendMsg x) (isGenerating x) (sendInFlight x)
         c a (watchdogTimer x) (watchdogPending x)
         (watchdogFallback x) (emptyStreamDone x).
Definition set_watchdog (t p : bool) (x : Send) : Send :=
  mkSend (sess x) (sendConv x) (sendMsg x) (isGenerating x) (sendInFlight x)
         (controller x) (signalAborted x) t p
         (watchdogFallback x) (emptyStreamDone x).
Definition set_watchdogFallback (b : bool) (x : Send) : Send :=
  mkSend (sess x) (sendConv x) (sendMsg x) (isGenerating x) (sendInFlight x)
         (controller x) (signalAborted x) (watchdogTimer x) (watchdogPending x)
         b (emptyStreamDone x).
Definition set_emptyStreamDone (b : bool) (x : Send) : Send :=
  mkSend (sess x) (sendConv x) (sendMsg x) (isGenerating x) (sendInFlight x)
         (controller x) (signalAborted x) (watchdogTimer x) (watchdogPending x)
         (watchdogFallback x) b.

(** [currentAbortController?.abort()] *)
Definition abort (x : Send) : Send :=
  if controller x then on_sess (effect Abort) (set_controller true true x) else x.

(** The watchdog's delay, in milliseconds. *)
Definition WATCHDOG_MS : N := 12000.

(** [v || dflt], as the [errorMessage] of a finalize. *)
Definition message_or (v : option JValue) (dflt : jstr) : option JValue :=
  if truthy_opt v then v else Some (JStr dflt).

Definition live_hasFirstChunk (s : Session) : bool :=
  match streamingMsg s with Some sm => hasFirstChunk sm | None => false end.

(** The handlers that [sendMessage] gives to [readSseStream]. *)
Definition onStatus (st : JValue) (x : Send) : Send :=
  let phase := toLowerCase (trim (String_or (get (js "phase") st))) in
  if eqs phase (js "thinking") then
    on_sess (fun s => ensureThinkingVisible (setThinkingStatus (js "Analisando…") s)) x
  else if eqs phase (js "tool") then
    on_sess (fun s => ensureThinkingVisible
                        (setThinkingStatus (js "Consultando documentos…") s)) x
  else if eqs phase (js "answer") then x
  else if eqs phase (js "done") then
    if negb (live_hasFirstChunk (sess x)) then set_emptyStreamDone true x
    else on_sess (finalizeStreaming finalize_ok) x
  else if eqs phase (js "error") then
    on_sess (finalizeStreaming
               (mkFinalizeArgs false
                  (message_or (get (js "message") st) (js "Erro no streaming.")) None)) x
  else x.

Definition onError (e : JValue) (x : Send) : Send :=
  on_sess (finalizeStreaming
             (mkFinalizeArgs false
                (message_or (get (js "message") e) (js "Erro no streaming.")) None)) x.

Definition handle (c : Call) (x : Send) : Send :=
  match c with
  | OnDelta t => on_sess (streamAppend t) x
  | OnStatus st => onStatus st x
  | OnSources p => on_sess (setStreamingSources (get (js "items") p)) x
  | OnArtifact a => on_sess (pushStreamingArtifact a) x
  | OnError e => onError e x
  | OnDone => on_sess (finalizeStreaming finalize_ok) x
  | OnMeta _ | OnCitations _ => x
  end.

Definition handle_all (cs : list Call) (x : Send) : Send :=
  fold_left (fun y c => handle c y) cs x.

(** What a request gives: it throws (after its retries), or a response with
    its [ok], [status], body as text and body as JSON ([null] when it is
    not JSON). *)
Inductive PostResult :=
| PostThrows (message : jstr)
| PostResponse (r_ok : bool) (r_status : N) (r_text : jstr) (r_data : JValue).

(** What the fallback meets: the two possible [/chat] requests, the second
    reachability probe between them, the probe of the [catch] clause, and
    [BACKEND_BASE]. *)
Record FallbackEnv := mkFallbackEnv {
  post1 : PostResult;
  online2 : bool;
  post2 : PostResult;
  healthOk : bool;
  base : jstr
}.

Definition dec (n : N) : jstr := js (DecimalString.NilZero.string_of_uint (N.to_uint n)).

(** [`${prefix}${status}. ${t ? t.slice(0, 240) : ""}`.trim()] *)
Definition status_text (prefix : jstr) (status : N) (t : jstr) : jstr :=
  trim (prefix ++ dec status ++ js ". " ++ slice_to 240 t).

Definition fallback_failure_text (fb : FallbackEnv) (message : jstr) : jstr :=
  trim (js "Falha no fallback /chat (" ++ trim (base fb) ++ js "). " ++ message)
  ++ nl ++
  (if healthOk fb
   then js "O backend respondeu ao /health. Isso costuma ser bloqueio do navegador (CORS/mixed-content) ou um erro de rede momentâneo."
   else js "Backend parece offline. Inicie com backend/run_dev.ps1 (porta 8000) e confirme /health.").

(** The part of [runChatFallback] that follows a response. *)
Definition fallback_response (r_ok : bool) (status : N) (text : jstr) (data : JValue)
    (x : Send) : Send :=
  if negb r_ok then
    on_sess (finalizeStreaming
               (finalize_error (status_text (js "Fallback /chat retornou ") status text))) x
  else
    let reply := trim (String_or (get (js "reply") data)) in
    if eqs reply [] then
      on_sess (finalizeStreaming (finalize_error (js "Fallback /chat retornou vazio."))) x
    else
      let artifacts :=
        match get (js "artifacts") data with Some (JArr l) => l | _ => [] end in
      on_sess (fun s =>
        finalizeStreaming (mkFinalizeArgs true None (Some artifacts))
          (set_conversations
             (update_msg (sendConv x) (sendMsg x) (set_content reply) (conversations s)) s)) x.

Definition fallback_catch (fb : FallbackEnv) (message : jstr) (x : Send) : Send :=
  on_sess (finalizeStreaming (finalize_error (fallback_failure_text fb message))) x.

(** [runChatFallback(reason)] when no other task runs while it waits for
    its probes, its requests and their bodies: the state afterwards and the
    value returned.  It is the three stretches [fallback_start],
    [fallback_request] and [fallback_settle] below, one after the other
    (see [runChatFallback_stretches]); the runs in which a stop or another
    event comes in between are built from the stretches. *)
Definition runChatFallback (reason : jstr) (fb : FallbackEnv) (x : Send) : Send * bool :=
  match streamingMsg (sess x) with
  | None => (x, false)
  | Some sm =>
      if hasFirstChunk sm then (x, false)
      else
        let x1 := set_watchdogFallback true x in
        let x2 := on_sess (fun s => ensureThinkingVisible (setThinkingStatus reason s)) x1 in
        let x3 := abort x2 in
        let x4 := on_sess (effect (Fetch "/chat")) x3 in
        (match post1 fb with
         | PostResponse o st t d => fallback_response o st t d x4
         | PostThrows m =>
             if online2 fb then
               let x5 := on_sess (effect (Fetch "/chat")) x4 in
               match post2 fb with
               | PostResponse o st t d => fallback_response o st t d x5
               | PostThrows m2 => fallback_catch fb m2 x5
               end
             else fallback_catch fb m x4
         end, true)
  end.

(** [runChatFallback(reason)] up to its first [await]: the two guards, the
    flag, the status line and the abort of the stream request.  With the
    state comes whether the guards let it through. *)
Definition fallback_start (reason : jstr) (x : Send) : Send * bool :=
  match streamingMsg (sess x) with
  | None => (x, false)
  | Some sm =>
      if hasFirstChunk sm then (x, false)
      else
        (abort (on_sess (fun s => ensureThinkingVisible (setThinkingStatus reason s))
                        (set_watchdogFallback true x)), true)
  end.

(** The requests to [/chat] it then makes: one, and a second one when the
    first threw and a backend was found reachable.  They read nothing of the
    client's state. *)
Definition fallback_request (fb : FallbackEnv) (x : Send) : Send :=
  let x4 := on_sess (effect (Fetch "/chat")) x in
  match post1 fb with
  | PostResponse _ _ _ _ => x4
  | PostThrows _ => if online2 fb then on_sess (effect (Fetch "/chat")) x4 else x4
  end.

(** What it does once the last of its awaits has settled, in the state the
    client is in by then: the reply is written into the answer of the send
    and [finalizeStreaming] is called, or the failure is reported through
    [finalizeStreaming].  Neither [streamingMsg] nor [hasFirstChunk] is
    looked at again before the reply is written. *)
Definition fallback_settle (fb : FallbackEnv) (x : Send) : Send :=
  match post1 fb with
  | PostResponse o st t d => fallback_response o st t d x
  | PostThrows m =>
      if online2 fb then
        match post2 fb with
        | PostResponse o st t d => fallback_response o st t d x
        | PostThrows m2 => fallback_catch fb m2 x
        end
      else fallback_catch fb m x
  end.

(** [stopGenerating()] *)
Definition stopGenerating (x : Send) : Send :=
  let x1 := abort x in
  let x2 := on_sess (fun s => effect (Toast (js "Geração interrompida."))
                                (finalizeStreamingInterrupted s)) x1 in
  set_controller false (signalAborted x2) (setGenerating false x2).

(** What can happen while [sendMessage] waits for the next chunk: the chunk
    arrives, the frame callback of the delta buffer runs, the watchdog fires,
    the user presses stop, or the thread is rendered again. *)
Inductive StreamStep :=
| Chunk (bytes : list byte)
| FrameTick
| WatchdogFires (fb : FallbackEnv)
| UserStop
| ThreadRendered (shown : bool).

(** How the stream ends when it is not aborted: the reader reports the end,
    or [read()] throws an error that is not an abort. *)
Inductive StreamEnd := EndOfStream | ReadThrows (message : jstr).

Inductive Exn := AbortError | OtherError (message : jstr).

(** The steps that are not a chunk.  The watchdog's callback is a task of
    its own that [sendMessage] does not wait for; here it is run to its end
    where it fires, which is the run in which its requests settle before
    the pending read is rejected.  The other orders are built from
    [fallback_start], [fallback_request] and [fallback_settle]. *)
Definition aside (st : StreamStep) (x : Send) : Send :=
  match st with
  | Chunk _ => x
  | FrameTick => on_sess frameCallback x
  | WatchdogFires fb =>
      if watchdogPending x then
        fst (runChatFallback (js "Sem resposta no streaming. Usando fallback…") fb
                             (set_watchdog (watchdogTimer x) false x))
      else x
  | UserStop => if isGenerating x then stopGenerating x else x
  | ThreadRendered shown => on_sess (renderThread shown) x
  end.

(** [await readSseStream(reader, handlers)] inside [sendMessage]: [None] when
    it returns, the exception when [read()] throws.  A read that is pending
    when the signal is aborted throws an abort error. *)
Fixpoint read_sse (p : Parser) (steps : list StreamStep) (ending : StreamEnd)
    (x : Send) : Send * option Exn :=
  if signalAborted x then (x, Some AbortError)
  else match steps with
  | [] =>
      match ending with
      | EndOfStream => (handle_all (snd (emit (frame p))) x, None)
      | ReadThrows m => (x, Some (OtherError m))
      end
  | Chunk b :: r =>
      let (p1, calls) := feed p b in
      read_sse p1 r ending (handle_all calls x)
  | st :: r => read_sse p r ending (aside st x)
  end.

(** The loop of [sendMessage] for a body that is not an event stream: every
    chunk of text is a delta, and the end of the body finalizes. *)
Fixpoint read_text (d : Utf8.Decoder) (steps : list StreamStep) (ending : StreamEnd)
    (x : Send) : Send * option Exn :=
  if signalAborted x then (x, Some AbortError)
  else match steps with
  | [] =>
      match ending with
      | EndOfStream =>
          let tail := if (Utf8.bytes_needed d =? 0)%N then []
                      else snd (Utf8.serialize (Utf8.bom_seen d) [65533%N]) in
          let x1 := match tail with [] => x | _ :: _ => on_sess (streamAppend tail) x end in
          (on_sess (finalizeStreaming finalize_ok) x1, None)
      | ReadThrows m => (x, Some (OtherError m))
      end
  | Chunk b :: r =>
      let (d1, chunk) := Utf8.decode d b in
      read_text d1 r ending
        (match chunk with [] => x | _ :: _ => on_sess (streamAppend chunk) x end)
  | st :: r => read_text d r ending (aside st x)
  end.

(** The response to the stream request. *)
Record StreamResponse := mkStreamResponse {
  resp_ok : bool;
  resp_status : N;
  resp_text : jstr;
  has_reader : bool;
  is_event_stream : bool;
  steps : list StreamStep;
  ending : StreamEnd
}.

Inductive FetchResult :=
| FetchThrows (message : jstr)
| FetchAborted
| FetchResponse (r : StreamResponse).

(** What one [sendMessage] call meets; [chat_slow] tells whether the request
    made with streaming switched off is still pending five seconds after it
    was made. *)
Record SendEnv := mkSendEnv {
  text : jstr;
  hasFiles : bool;
  env_conv : string;
  userMsgId : string;
  assistantMsgId : string;
  contentFound : bool;
  streamingEnabled : bool;
  chat : PostResult;
  upload : option jstr;
  stream : FetchResult;
  fb_end : FallbackEnv;
  online_after : bool;
  chat_slow : bool
}.

Definition connect_failure_text (env : SendEnv) (message : jstr) : jstr :=
  trim (js "Falha ao conectar ao backend (" ++ base (fb_end env) ++ js "). " ++ message)
  ++ nl ++
  (if online_after env
   then js "O backend respondeu ao /health. Isso costuma ser reinício do servidor (reload) ou bloqueio do navegador (CORS)."
   else js "Backend parece offline. Inicie com backend/run_dev.ps1 (porta 8000).").

(** The [catch] clause of [sendMessage]. *)
Definition send_catch (env : SendEnv) (e : Exn) (x : Send) : Send :=
  match e with
  | AbortError =>
      if watchdogFallback x then x else on_sess finalizeStreamingInterrupted x
  | OtherError m =>
      let (x1, didFallback) :=
        runChatFallback (js "Falha no streaming. Tentando fallback…") (fb_end env) x in
      if didFallback then x1
      else on_sess (finalizeStreaming (finalize_error (connect_failure_text env m))) x1
  end.

(** The [finally] clause of [sendMessage]. *)
Definition send_finally (x : Send) : Send :=
  let x1 := if watchdogTimer x
            then set_watchdog false false (on_sess (effect ClearTimeout) x) else x in
  set_sendInFlight false (set_controller false (signalAborted x1) (setGenerating false x1)).

(** After the read loop has returned. *)
Definition after_stream (env : SendEnv) (x : Send) : Send :=
  if watchdogFallback x then x
  else if emptyStreamDone x then
    fst (runChatFallback (js "Stream finalizou sem tokens. Usando fallback…") (fb_end env) x)
  else
    match streamingMsg (sess x) with
    | Some sm =>
        if String.eqb (convId sm) (sendConv x) then
          let hasAny :=
            match find_msg (conversations (sess x)) (sendConv x) (sendMsg x) with
            | Some m => negb (blank (content m))
            | None => false
            end in
          if hasAny then
            on_sess (fun s => effect (Toast (js "Resposta interrompida (possível reload do backend)."))
                                (finalizeStreamingInterrupted s)) x
          else
            on_sess (finalizeStreaming
                       (finalize_error
                          (js "Stream finalizou sem resposta (possível reload do backend)."))) x
        else x
    | None => x
    end.

(** The stream request is about to be made. *)
Definition connecting (x : Send) : Send :=
  on_sess (effect (Fetch "/chat/stream"))
    (on_sess (fun s => ensureThinkingVisible (setThinkingStatus (js "Conectando…") s)) x).

(** [watchdogTimer = window.setTimeout(..., 12000)] *)
Definition start_watchdog (x : Send) : Send :=
  set_watchdog true true (on_sess (effect (SetTimeout WATCHDOG_MS)) x).

(** The read loop that fits the content type of the response. *)
Definition read_body (r : StreamResponse) (x : Send) : Send * option Exn :=
  if is_event_stream r then read_sse parser0 (steps r) (ending r) x
  else read_text Utf8.fresh (steps r) (ending r) x.

(** The streaming branch of the [try] block, from the stream request on. *)
Definition send_stream (env : SendEnv) (x : Send) : Send * option Exn :=
  let x2 := connecting x in
  match stream env with
  | FetchThrows m => (x2, Some (OtherError m))
  | FetchAborted => (stopGenerating x2, Some AbortError)
  | FetchResponse r =>
      if negb (resp_ok r) then
        (on_sess (finalizeStreaming
                    (finalize_error
                       (status_text (js "Servidor retornou ") (resp_status r) (resp_text r)))) x2,
         None)
      else if negb (has_reader r) then
        if blank (resp_text r) then
          (on_sess (finalizeStreaming
                      (finalize_error (js "Resposta inválida do servidor (sem stream)."))) x2,
           None)
        else
          (on_sess (fun s => finalizeStreaming finalize_ok (streamAppend (resp_text r) s)) x2,
           None)
      else
        let (x4, thrown) := read_body r (start_watchdog x2) in
        match thrown with
        | Some e => (x4, Some e)
        | None => (after_stream env x4, None)
        end
  end.

(** The delay of the hint that a request without streaming may be slow, in
    milliseconds. *)
Definition SLOW_HINT_MS : N := 5000.

Definition slow_hint_text : jstr :=
  js "Streaming está desligado; /chat pode demorar. Ative em Modo de resposta → Streaming.".

Definition no_files_text : jstr :=
  js "Anexos ainda não estão disponíveis sem streaming. Enviando só o texto.".

(** The branch of the [try] block for streaming switched off.  The hint
    timer is started first and cleared once the request is answered; its
    toast is shown if the request is still pending when it fires.  When the
    request throws the timer is not cleared: it stays set, and a toast still
    to come is not part of the send. *)
Definition send_once (env : SendEnv) (x : Send) : Send * option Exn :=
  let x0 := on_sess (effect (SetTimeout SLOW_HINT_MS)) x in
  let xf := if hasFiles env then on_sess (effect (Toast no_files_text)) x0 else x0 in
  let x1 := on_sess (fun s => ensureThinkingVisible (setThinkingStatus (js "Gerando…") s)) xf in
  let xr := on_sess (effect (Fetch "/chat")) x1 in
  let xs := if chat_slow env then on_sess (effect (Toast slow_hint_text)) xr else xr in
  match chat env with
  | PostThrows m => (xs, Some (OtherError m))
  | PostResponse o st t d =>
      let x2 := on_sess (effect ClearTimeout) xs in
      if negb o then
        (on_sess (finalizeStreaming
                    (finalize_error (status_text (js "Servidor retornou ") st t))) x2, None)
      else
        let reply := trim (String_or (get (js "reply") d)) in
        if eqs reply [] then
          (on_sess (finalizeStreaming (finalize_error (js "Resposta vazia do servidor."))) x2,
           None)
        else
          let artifacts :=
            match get (js "artifacts") d with Some (JArr l) => l | _ => [] end in
          (on_sess (fun s =>
             finalizeStreaming (mkFinalizeArgs true None (Some artifacts))
               (set_conversations
                  (update_msg (sendConv x) (sendMsg x) (set_content reply)
                     (conversations s)) s)) x2, None)
  end.

(** The [try] block. *)
Definition send_try (env : SendEnv) (x : Send) : Send * option Exn :=
  if negb (streamingEnabled env) then send_once env x
  else if hasFiles env then
    let x1 := on_sess (fun s => effect (Fetch "/downloads/upload")
                (ensureThinkingVisible (setThinkingStatus (js "Enviando documentos…") s))) x in
    match upload env with
    | Some m =>
        (on_sess (finalizeStreaming
                    (mkFinalizeArgs false
                       (message_or (Some (JStr m)) (js "Falha no upload dos documentos."))
                       None)) x1, None)
    | None => send_stream env x1
    end
  else send_stream env x.

Definition push_messages (env : SendEnv) (cs : list Conversation) : list Conversation :=
  update_first (is_conv (env_conv env))
    (fun c => mkConversation (conv_id c)
       (messages c ++
        [mkMessage (userMsgId env) User
           (if eqs (text env) [] then (if hasFiles env then js "(anexo)" else []) else text env)
           false [];
         mkMessage (assistantMsgId env) Assistant [] false []])) cs.

Definition bind_failure_text : jstr :=
  js "Falha ao iniciar thread (UI). Verifique se existe `#thread` e `.content` no HTML e se o DOM não foi recriado.".

(** The beginning of [sendMessage()]: the user's message and the empty
    answer are pushed and persisted. *)
Definition push (env : SendEnv) (x : Send) : Send :=
  on_sess (fun s => effect Persist
             (set_conversations (push_messages env (conversations s)) s))
    (set_ids (env_conv env) (assistantMsgId env) (set_sendInFlight true x)).

(** The session is armed on the answer, and the send gets its controller
    and its flags. *)
Definition arm (env : SendEnv) (x : Send) : Send :=
  set_emptyStreamDone false
    (set_watchdogFallback false
       (set_watchdog false false
          (set_controller true false
             (setGenerating true
                (on_sess (startStreamingIntoMessage (env_conv env) (assistantMsgId env))
                         x))))).

(** [sendMessage()], for the conversation [env_conv] (the selected one, or
    the one just created), which is in [conversations]. *)
Definition sendMessage (env : SendEnv) (x : Send) : Send :=
  if isGenerating x then x
  else if sendInFlight x then x
  else if eqs (text env) [] && negb (hasFiles env) then
    on_sess (effect (Toast (js "Digite uma mensagem ou anexe um arquivo."))) x
  else
    let x2 := push env x in
    if negb (contentFound env) then
      set_sendInFlight false
        (on_sess (fun s =>
           effect (Toast bind_failure_text)
             (renderThread true
                (effect Persist
                   (set_conversations
                      (update_msg (env_conv env) (assistantMsgId env)
                         (set_content bind_failure_text) (conversations s)) s)))) x2)
    else
      let (x5, thrown) := send_try env (arm env x2) in
      send_finally (match thrown with Some e => send_catch env e x5 | None => x5 end).

(* ===================================================================== *)
(** ** Requests and the backend base: [fetchWithRetry], [pingBackendHealth],
       [getAlternateBackendBases], [ensureBackendBaseOnline] *)
(* ===================================================================== *)

(** What one call of [fetch] gives: a response, or an exception together
    with [options.signal.aborted] as the [catch] clause finds it. *)
Inductive Try (R : Type) :=
| Responds (r : R)
| Throws (e : Exn) (signal_aborted : bool).

Arguments Responds {R} r.
Arguments Throws {R} e signal_aborted.

(** How [fetchWithRetry] ends. *)
Inductive Fetched (R : Type) :=
| Returned (r : R)
| Thrown (e : Exn).

Arguments Returned {R} r.
Arguments Thrown {R} e.

(** [String(e?.name || "") === "AbortError"] *)
Definition is_abort (e : Exn) : bool :=
  match e with AbortError => true | OtherError _ => false end.

(** The [for] loop of [fetchWithRetry] from [attempt] on, with [left] turns
    to go before [attempt <= retries] fails; [outcome] tells what the call of
    [fetch] number [attempt] gives.  With the outcome comes the number of
    calls of [fetch] made.  [retries] is a whole number, as at every call
    site (the default 1, and 2 in the fallback). *)
Fixpoint retry_loop {R : Type} (outcome : nat -> Try R) (retries attempt left : nat)
    (lastErr : option Exn) : Fetched R * nat :=
  match left with
  | 0 =>
      (Thrown (match lastErr with
               | Some e => e
               | None => OtherError (js "fetch failed")
               end), attempt)
  | S left' =>
      match outcome attempt with
      | Responds r => (Returned r, S attempt)
      | Throws e aborted =>
          if aborted || is_abort e then (Thrown e, S attempt)
          else if retries <=? attempt then (Thrown e, S attempt)
          else retry_loop outcome retries (S attempt) left' (Some e)
      end
  end.

(** [fetchWithRetry(url, options, { retries, delayMs })] *)
Definition fetchWithRetry {R : Type} (outcome : nat -> Try R) (retries : nat)
  : Fetched R * nat :=
  retry_loop outcome retries 0 (S retries) None.

Definition HEALTH_COOLDOWN_MS : Z := 2500.

(** The module's variables about the backend: [BACKEND_BASE],
    [backendOnline], the three [_healthLast...] variables, the base written
    to the local storage, the bases whose [/health] was requested and the
    toasts shown, both in order.  The calls below are taken one at a time,
    so that [_healthInFlight] is [null] whenever one begins. *)
Record Backend := mkBackend {
  BACKEND_BASE : jstr;
  backendOnline : bool;
  healthLastAt : Z;
  healthLastOk : option bool;
  healthLastBase : jstr;
  storedBase : option jstr;
  probed : list jstr;
  toasts : list jstr
}.

Definition set_BACKEND_BASE (v : jstr) (b : Backend) : Backend :=
  mkBackend v (backendOnline b) (healthLastAt b) (healthLastOk b) (healthLastBase b)
            (storedBase b) (probed b) (toasts b).
Definition set_backendOnline (v : bool) (b : Backend) : Backend :=
  mkBackend (BACKEND_BASE b) v (healthLastAt b) (healthLastOk b) (healthLastBase b)
            (storedBase b) (probed b) (toasts b).
Definition set_storedBase (v : option jstr) (b : Backend) : Backend :=
  mkBackend (BACKEND_BASE b) (backendOnline b) (healthLastAt b) (healthLastOk b)
            (healthLastBase b) v (probed b) (toasts b).
Definition toast (t : jstr) (b : Backend) : Backend :=
  mkBackend (BACKEND_BASE b) (backendOnline b) (healthLastAt b) (healthLastOk b)
            (healthLastBase b) (storedBase b) (probed b) (toasts b ++ [t]).

(** What one call of [pingBackendHealth] meets: [Date.now()] when it begins,
    whether the [/health] request, if made, is answered with an [ok]
    response in time, and [Date.now()] when that is known. *)
Record Probe := mkProbe {
  probe_now : Z;
  probe_ok : bool;
  probe_later : Z
}.

(** [pingBackendHealth(timeoutMs)]: the variables afterwards and the value
    the promise resolves to. *)
Definition pingBackendHealth (p : Probe) (b : Backend) : Backend * bool :=
  let base := trim (BACKEND_BASE b) in
  match healthLastOk b with
  | Some lastOk =>
      if negb (eqs base []) && eqs base (healthLastBase b)
         && (probe_now p - healthLastAt b <? HEALTH_COOLDOWN_MS)%Z
      then (b, lastOk)
      else
        (mkBackend (BACKEND_BASE b) (backendOnline b) (probe_later p) (Some (probe_ok p))
                   base (storedBase b) (probed b ++ [BACKEND_BASE b]) (toasts b),
         probe_ok p)
  | None =>
      (mkBackend (BACKEND_BASE b) (backendOnline b) (probe_later p) (Some (probe_ok p))
                 base (storedBase b) (probed b ++ [BACKEND_BASE b]) (toasts b),
       probe_ok p)
  end.

(** [getAlternateBackendBases()] *)
Definition getAlternateBackendBases (b : Backend) : list jstr :=
  let raw := trim (BACKEND_BASE b) in
  let cur := if eqs raw (js "http://localhost:8000") then js "http://127.0.0.1:8000"
             else raw in
  let ip := js "http://127.0.0.1:8000" in
  let bases := if eqs cur [] then [] else [cur] in
  if existsb (eqs ip) bases then bases else bases ++ [ip].

(** The loop of [ensureBackendBaseOnline] over the candidates left, the
    [i]-th probe being the next one; [writable] tells whether the local
    storage accepts the write. *)
Fixpoint ensure_loop (probes : nat -> Probe) (writable : bool) (i : nat)
    (candidates : list jstr) (b : Backend) : Backend * bool :=
  match candidates with
  | [] => (set_backendOnline false b, false)
  | base :: rest =>
      let prev := BACKEND_BASE b in
      let (b1, ok) := pingBackendHealth (probes i) (set_BACKEND_BASE base b) in
      if ok then
        let b2 := set_backendOnline true b1 in
        let b3 := if writable then set_storedBase (Some base) b2 else b2 in
        (if eqs prev base then b3 else toast (js "Backend conectado: " ++ base) b3, true)
      else ensure_loop probes writable (S i) rest b1
  end.

(** [ensureBackendBaseOnline()] *)
Definition ensureBackendBaseOnline (probes : nat -> Probe) (writable : bool)
    (b : Backend) : Backend * bool :=
  ensure_loop probes writable 0 (getAlternateBackendBases b) b.

(* ===================================================================== *)
(** ** What is sent, and titles: [buildBackendMessages], [normalizeMode],
       [deriveTitleFromFirstMessage], [maybeAutoTitleConversation] *)
(* ===================================================================== *)

(** [buildBackendMessages(conv)]: the [role] and the [content] of the
    messages that go into a request. *)
Definition buildBackendMessages (conv : Conversation) : list (Role * jstr) :=
  filter (fun m => negb (Nat.eqb (List.length (trim (snd m))) 0))
    (map (fun m => (role m, content m))
       (filter (fun m => match role m with
                         | User | Assistant | SystemRole => true
                         end) (messages conv))).

(** [normalizeMode(m)] *)
Definition normalizeMode (m : jstr) : jstr :=
  let t := toLowerCase (trim m) in
  if eqs t (js "tecnico") || eqs t (js "resumido") || eqs t (js "didatico")
     || eqs t (js "estrategico")
  then t else js "tecnico".

(** [s.replace(/\s+/g, " ")]; [in_run] tells whether the unit before was
    white space. *)
Fixpoint collapse_ws (in_run : bool) (s : jstr) : jstr :=
  match s with
  | [] => []
  | c :: r =>
      if is_ws c then
        if in_run then collapse_ws true r else 32%N :: collapse_ws true r
      else c :: collapse_ws false r
  end.

(** The class of quotation marks that the title is stripped of: the straight
    double and single quotes and the four curly ones. *)
Definition is_quote (c : N) : bool :=
  ((c =? 34) || (c =? 39) || (c =? 8220) || (c =? 8221) || (c =? 8216) || (c =? 8217))%N.

Fixpoint drop_while (p : N -> bool) (s : jstr) : jstr :=
  match s with
  | c :: r => if p c then drop_while p r else s
  | [] => []
  end.

(** [s.replace(/^[quotes]+|[quotes]+$/g, "")]: the run of quotation marks at
    the start goes, then the one at the end of what is left. *)
Definition strip_quotes (s : jstr) : jstr :=
  rev (drop_while is_quote (rev (drop_while is_quote s))).

(** [s.split(/[.!?]\s/)[0]] *)
Fixpoint first_sentence (s : jstr) : jstr :=
  match s with
  | c :: r =>
      match r with
      | d :: _ =>
          if ((c =? 46) || (c =? 33) || (c =? 63))%N && is_ws d then []
          else c :: first_sentence r
      | [] => [c]
      end
  | [] => []
  end.

(** [deriveTitleFromFirstMessage(text)] *)
Definition deriveTitleFromFirstMessage (text : jstr) : jstr :=
  let t := trim (collapse_ws false text) in
  if eqs t [] then js "Conversa"
  else
    let cleaned := trim (strip_quotes t) in
    let head := if eqs (first_sentence cleaned) [] then cleaned
                else first_sentence cleaned in
    let max := 48 in
    let short := if max <? List.length head
                 then trimEnd (slice_to (max - 1) head) ++ js "…" else head in
    if eqs short [] then js "Conversa" else short.

(** A conversation with what its title depends on: [title], [titleSource]
    ([local], [ai] or [manual]) and [titleAutoDone]. *)
Record Titled := mkTitled {
  titled : Conversation;
  title : jstr;
  titleSource : jstr;
  titleAutoDone : bool
}.

(** What the title request gives: it throws, or a response with its [ok] and
    its body as JSON ([null] when it is not JSON). *)
Inductive TitleReply :=
| TitleThrows
| TitleResponse (t_ok : bool) (t_data : JValue).

(** [maybeAutoTitleConversation] up to its request: the conversation
    afterwards and, when the request is made, its [first_user] and
    [first_assistant]. *)
Definition title_request (c : Titled) : Titled * option (jstr * jstr) :=
  if eqs (titleSource c) (js "manual") || titleAutoDone c then (c, None)
  else
    let users := filter (fun m => match role m with User => true | _ => false end)
                        (messages (titled c)) in
    let assistants := filter (fun m => match role m with Assistant => true | _ => false end)
                             (messages (titled c)) in
    match users, assistants with
    | [u], [a] =>
        let firstUser := trim (content u) in
        let firstAssistant := trim (content a) in
        if eqs firstUser [] || eqs firstAssistant [] then (c, None)
        else (mkTitled (titled c) (title c) (titleSource c) true,
              Some (firstUser, firstAssistant))
    | _, _ => (c, None)
    end.

(** The rest of it, once the request has settled; [c] is the conversation as
    it is by then. *)
Definition title_response (r : TitleReply) (c : Titled) : Titled :=
  match r with
  | TitleThrows => c
  | TitleResponse false _ => c
  | TitleResponse true data =>
      let t := trim (String_or (get (js "title") data)) in
      if eqs t [] then c
      else if eqs (titleSource c) (js "manual") then c
      else if negb (eqs t (title c)) then
        mkTitled (titled c) t (js "ai") (titleAutoDone c)
      else c
  end.

(** [maybeAutoTitleConversation(convId)] for a conversation that is found;
    [meanwhile] is what happens to the conversation while the request is
    under way.  With the conversation comes whether a request was made. *)
Definition maybeAutoTitleConversation (r : TitleReply) (meanwhile : Titled -> Titled)
    (c : Titled) : Titled * bool :=
  match title_request c with
  | (c1, Some _) => (title_response r (meanwhile c1), true)
  | (c1, None) => (c1, false)
  end.

(* ===================================================================== *)
(** ** Runs: what the statements below quantify over *)
(* ===================================================================== *)

(** The content of a message, looked up by its ids. *)
Definition content_of (s : Session) (c m : string) : option jstr :=
  option_map content (find_msg (conversations s) c m).

(** The reply a request brings, if it brings one: the response is [ok] and
    its [reply] is not blank. *)
Definition answer (r : PostResult) : option jstr :=
  match r with
  | PostResponse true _ _ d =>
      let reply := trim (String_or (get (js "reply") d)) in
      if eqs reply [] then None else Some reply
  | _ => None
  end.

(** The reply the fallback obtains, if it obtains one. *)
Definition fallback_answer (fb : FallbackEnv) : option jstr :=
  match post1 fb with
  | PostThrows _ => if online2 fb then answer (post2 fb) else None
  | PostResponse _ _ _ _ => answer (post1 fb)
  end.

(** What happens to the delta buffer between two flushes: a delta is
    appended, or the pending frame callback runs. *)
Inductive BufferOp := Append (text : jstr) | FrameRuns.

Definition buffer_op (o : BufferOp) (s : Session) : Session :=
  match o with
  | Append t => streamAppend t s
  | FrameRuns => frameCallback s
  end.

Definition run_buffer (ops : list BufferOp) (s : Session) : Session :=
  fold_left (fun y o => buffer_op o y) ops s.

(** The delta texts of a run, concatenated in order. *)
Definition appended (ops : list BufferOp) : jstr :=
  flat_map (fun o => match o with Append t => t | FrameRuns => [] end) ops.

(** What can still be tried on a session: an event reaches its handler, the
    frame callback runs, the buffer is flushed, a finalize of either kind is
    called, a fallback is started, the user presses stop, or one of the
    things happens that can happen between two reads of the stream. *)
Inductive Attempt :=
| Event (c : Call)
| FrameCallback
| Flush
| Finalize (a : FinalizeArgs)
| Interrupt
| Fallback (reason : jstr) (fb : FallbackEnv)
| Stop
| Between (st : StreamStep).

Definition attempt (a : Attempt) (x : Send) : Send :=
  match a with
  | Event c => handle c x
  | FrameCallback => on_sess frameCallback x
  | Flush => on_sess flushStreamNow x
  | Finalize args => on_sess (finalizeStreaming args) x
  | Interrupt => on_sess finalizeStreamingInterrupted x
  | Fallback reason fb => fst (runChatFallback reason fb x)
  | Stop => stopGenerating x
  | Between st => aside st x
  end.

Definition attempts (l : list Attempt) (x : Send) : Send :=
  fold_left (fun y a => attempt a y) l x.

(* ===================================================================== *)
(** ** Notions of the proofs *)
(* ===================================================================== *)

(** A string without a line feed. *)
Definition no_nl (s : jstr) : Prop := indexOf 10%N s = None.

(** The same loop, read one code unit at a time: [cur] is the line under
    construction. *)
Fixpoint lines_of (f : Frame) (cur t : jstr) (out : list Call)
  : Frame * jstr * list Call :=
  match t with
  | [] => (f, cur, out)
  | c :: r =>
      if (c =? 10)%N then
        lines_of (fst (on_line f cur)) [] r (out ++ snd (on_line f cur))
      else lines_of f (cur ++ [c]) r out
  end.

(** A parser whose buffer holds no complete line: what every turn of the
    outer loop leaves. *)
Definition settled (p : Parser) : Prop := no_nl (buf p).

(** Decoder states never expect a continuation byte below 0x80. *)
Definition good (d : Utf8.Decoder) : Prop := (128 <= Utf8.lower_boundary d)%N.

(** A line as [on_line] keeps it: without its carriage return. *)
Definition chomp (p : jstr) : jstr := if endsWith [13%N] p then removelast p else p.

(** A payload line that does not begin with white space. *)
Definition flush_left (l : jstr) : Prop :=
  match l with c :: _ => is_ws c = false | [] => True end.

(** The session is live for the message [m] of [sm], and the text of the
    message followed by the text still in the buffer is [t]. *)
Definition carries (s : Session) (sm : StreamingMsg) (m : Message) (t : jstr) : Prop :=
  exists sm' cnt,
    streamingMsg s = Some sm' /\ convId sm' = convId sm /\ msgId sm' = msgId sm /\
    find_msg (conversations s) (convId sm) (msgId sm) = Some (set_content cnt m) /\
    cnt ++ streamBuffer s = t.

(** Nothing has touched the messages, and no session is live. *)
Definition inert (x y : Send) : Prop :=
  conversations (sess y) = conversations (sess x) /\ streamingMsg (sess y) = None.

(** The message an interrupted finalize leaves. *)
Definition interrupted_message (t : jstr) (m : Message) : Message :=
  if blank t then set_content (js "Geração interrompida.") (set_interrupted true (set_content t m))
  else set_interrupted true (set_content t m).

(** The session, if one is live, has had its first chunk. *)
Definition past_first_chunk (s : Session) : Prop :=
  match streamingMsg s with
  | Some sm => hasFirstChunk sm = true
  | None => True
  end.

(** Between [x] and [y] nothing was aborted, no fallback was started and no
    request was made. *)
Definition undisturbed (x y : Send) : Prop :=
  signalAborted y = signalAborted x /\
  watchdogFallback y = watchdogFallback x /\
  isGenerating y = isGenerating x /\
  (forall e, In e (log (sess y)) ->
     In e (log (sess x)) \/ (e <> Abort /\ forall p, e <> Fetch p)).

Definition is_stop (st : StreamStep) : bool :=
  match st with UserStop => true | _ => false end.

(** The artifacts the live session has collected. *)
Definition collected (s : Session) : list JValue :=
  match streamingMsg s with
  | Some sm => match sm_artifacts sm with Some l => l | None => [] end
  | None => []
  end.

(** The message a finalize leaves, from its text [t] once flushed and the
    artifacts the session has collected. *)
Definition final_message (a : FinalizeArgs) (arts : list JValue) (t : jstr)
    (m : Message) : Message :=
  let m1 := if ok a then set_content t m
            else set_content (error_text (errorMessage a)) (set_content t m) in
  match (match arg_artifacts a with Some l => l | None => arts end) with
  | [] => m1
  | (_ :: _) as l => set_artifacts l m1
  end.

(** The events that neither finalize nor change the status line. *)
Definition quiet (c : Call) : bool :=
  match c with
  | OnStatus _ | OnError _ | OnDone => false
  | _ => true
  end.

(** The delta texts and the artifacts of a list of events, in order. *)
Definition deltas (cs : list Call) : jstr :=
  flat_map (fun c => match c with OnDelta t => t | _ => [] end) cs.

Definition artifacts_in (cs : list Call) : list JValue :=
  flat_map (fun c => match c with OnArtifact a => [a] | _ => [] end) cs.

(** No send is under way: the flags are down, no controller is held and no
    watchdog timer is set. *)
Definition idle (x : Send) : Prop :=
  isGenerating x = false /\ sendInFlight x = false /\
  controller x = false /\ watchdogTimer x = false.

(** What [decoder.decode()] returns at the end of a body. *)
Definition decoder_tail (d : Utf8.Decoder) : jstr :=
  if (Utf8.bytes_needed d =? 0)%N then []
  else snd (Utf8.serialize (Utf8.bom_seen d) [65533%N]).

(** A line that [on_line] passes over: once its carriage return is cut off
    it is not empty and begins neither with [event:] nor with [data:] (a
    comment, an [id:] or a [retry:] field, anything else). *)
Definition ignored_line (l : jstr) : bool :=
  negb (eqs (chomp l) []) && negb (startsWith (js "event:") (chomp l))
  && negb (startsWith (js "data:") (chomp l)).

(** The decoder between two characters once a character has come out. *)
Definition mid_stream : Utf8.Decoder := Utf8.mkDecoder 0 0 0 128 191 true.

(** The text of a line whose bytes are [c], as it is decoded in the middle
    of a stream: a sequence left open at the end of the line yields U+FFFD
    when the line feed comes. *)
Definition line_text (c : list byte) : jstr :=
  let (d, t) := Utf8.decode mid_stream c in
  t ++ (if (Utf8.bytes_needed d =? 0)%N then [] else [65533%N]).

(** A decoder that expects no continuation byte is in its initial state,
    but for the byte order mark. *)
Definition tidy (d : Utf8.Decoder) : Prop :=
  good d /\
  (Utf8.bytes_needed d = 0%N -> d = Utf8.mkDecoder 0 0 0 128 191 (Utf8.bom_seen d)).

(** The complete lines of a text, each without its line feed, and what
    follows the last line feed; [cur] is the line under construction. *)
Fixpoint split_lines (cur t : jstr) : list jstr * jstr :=
  match t with
  | [] => ([], cur)
  | c :: r =>
      if (c =? 10)%N then
        let (ls, rest) := split_lines [] r in (cur :: ls, rest)
      else split_lines (cur ++ [c]) r
  end.

(** The lines of a stream through [on_line], one after the other. *)
Fixpoint run_lines (f : Frame) (ls : list jstr) : Frame * list Call :=
  match ls with
  | [] => (f, [])
  | l :: r =>
      let (f1, o1) := on_line f l in
      let (f2, o2) := run_lines f1 r in
      (f2, o1 ++ o2)
  end.

(** A call of [fetch] that is tried again if a retry is left: it threw, the
    signal was not aborted and the exception is no abort. *)
Definition retried {R : Type} (t : Try R) : bool :=
  match t with
  | Responds _ => false
  | Throws e aborted => negb (aborted || is_abort e)
  end.

(** The outcome that a call of [fetch] passes on when it ends the loop. *)
Definition passed_on {R : Type} (t : Try R) : Fetched R :=
  match t with
  | Responds r => Returned r
  | Throws e _ => Thrown e
  end.

(** The text of the user's message as [sendMessage] stores it. *)
Definition shown_text (env : SendEnv) : jstr :=
  if eqs (text env) [] then (if hasFiles env then js "(anexo)" else []) else text env.

(** A stream of bytes with a carriage return put before every line feed,
    and the same for a text. *)
Definition crlf (bs : list byte) : list byte :=
  flat_map (fun b => if Byte.eqb b x0a then [x0d; x0a] else [b]) bs.

Definition crlf_units (t : jstr) : jstr :=
  flat_map (fun c => if (c =? 10)%N then [13%N; 10%N] else [c]) t.

(** What holds of every state the decoder reaches: the bounds for the next
    byte lie within the continuation bytes, and the code point under
    construction is not zero unless its lead byte was 0xE0 or 0xF0, whose
    first continuation byte is bounded from below. *)
Definition sound (d : Utf8.Decoder) : Prop :=
  good d /\ (Utf8.upper_boundary d <= 191)%N /\
  (Utf8.bytes_needed d <> 0%N ->
   Utf8.code_point d <> 0%N \/
   ((128 < Utf8.lower_boundary d)%N /\ (Utf8.bytes_seen d + 1)%N <> Utf8.bytes_needed d)).

(* ===================================================================== *)
(** ** Concrete inputs *)
(* ===================================================================== *)

(** Bytes on the wire, written as text in which an apostrophe stands for a
    double quote and a vertical bar for a line feed. *)
Definition wire (s : string) : list byte :=
  map (fun b => if Byte.eqb b x27 then x22 else if Byte.eqb b x7c then x0a else b)
      (list_byte_of_string s).

(** A client at rest with one empty conversation, and a send of the text
    [hi] in it, with streaming on and no files, that meets the response
    [st] to its stream request and the fallback environment [fb]. *)
Definition at_rest : Send :=
  mkSend (mkSession [mkConversation "c1" []] None [] false ViewGone [])
         "" "" false false false false false false false false.

Definition send_env (st : FetchResult) (fb : FallbackEnv) : SendEnv :=
  mkSendEnv (js "hi") false "c1" "u1" "a1" true true (PostThrows []) None st fb false
            false.

(** An event stream delivered in one chunk, then ended. *)
Definition sse_body (body : string) : FetchResult :=
  FetchResponse (mkStreamResponse true 200 [] true true [Chunk (wire body)] EndOfStream).

(** The same client once that send has pushed its two messages and armed
    the session (see [armed_by_the_send]), and once the stream has begun: the
    request answered, the watchdog started. *)
Definition armed : Send :=
  mkSend (mkSession
            [mkConversation "c1"
               [mkMessage "u1" User (js "hi") false [];
                mkMessage "a1" Assistant [] false []]]
            (Some (mkStreamingMsg "c1" "a1" true false (js "Analisando…") None None))
            [] false ViewSame [Persist])
         "c1" "a1" true true true false false false false false.

Definition reading : Send := start_watchdog (connecting armed).

(** A fallback whose request is answered with the reply [X], and one whose
    request fails with the backend unreachable. *)
Definition fallback_replies : FallbackEnv :=
  mkFallbackEnv (PostResponse true 200 [] (JObj [(js "reply", JStr (js "X"))]))
                false (PostThrows []) false (js "http://127.0.0.1:8000").

Definition fallback_fails : FallbackEnv :=
  mkFallbackEnv (PostThrows (js "Failed to fetch")) false (PostThrows []) false
                (js "http://127.0.0.1:8000").

(** The send of [armed] has made its stream request, which threw; the
    fallback has started and made its request; the user presses stop while
    that request is pending. *)
Definition request_pending : Send :=
  fallback_request fallback_replies
    (fst (fallback_start (js "Falha no streaming. Tentando fallback…") (connecting armed))).

Definition stopped_mid_fallback : Send := stopGenerating request_pending.

(** A send with streaming switched off, answered with a reply. *)
Definition send_env_once (r : PostResult) : SendEnv :=
  mkSendEnv (js "hi") false "c1" "u1" "a1" true false r None (FetchThrows [])
            fallback_fails false false.

(** The stream has delivered [Hel], flushed into the answer. *)
Definition partial : Send :=
  on_sess (fun s => flushStreamNow (streamAppend (js "Hel") s)) reading.

(** A client whose base is the loopback address, never probed. *)
Definition backend0 : Backend :=
  mkBackend (js "http://127.0.0.1:8000") false 0 None [] None [] [].

(** A conversation after its first exchange. *)
Definition first_exchange : Titled :=
  mkTitled (mkConversation "c1"
              [mkMessage "u1" User (js "hi") false [];
               mkMessage "a1" Assistant (js "Hello") false []])
           (js "hi") (js "local") false.

(** Calls of [fetch] that fail twice, not aborted, and are then answered;
    and calls aborted at once. *)
Definition third_time (i : nat) : Try N :=
  if i <? 2 then Throws (OtherError (js "Failed to fetch")) false else Responds 7%N.

Definition aborted_at_once (i : nat) : Try N :=
  match i with
  | 0 => Throws AbortError true
  | S _ => Responds 7%N
  end.

(** A client whose base is [http://localhost:8000], and probes that all
    fail. *)
Definition backend_localhost : Backend :=
  mkBackend (js "http://localhost:8000") true 0 None [] None [] [].

Definition all_fail (i : nat) : Probe := mkProbe 0 false 1.

(** The same conversation with a title given by hand. *)
Definition renamed : Titled :=
  mkTitled (titled first_exchange) (js "Mine") (js "manual") true.

(* ===================================================================== *)
(** ** The literals of the parser, evaluated *)
(* ===================================================================== *)

Lemma js_data : js "data:" = [100; 97; 116; 97; 58]%N.
Proof. reflexivity. Qed.

Lemma js_event : js "event:" = [101; 118; 101; 110; 116; 58]%N.
Proof. reflexivity. Qed.


Lemma js_message : js "message" = [109; 101; 115; 115; 97; 103; 101]%N.
Proof. reflexivity. Qed.


(* ===================================================================== *)
(** ** Strings *)
(* ===================================================================== *)

Lemma eqs_true a b : eqs a b = true <-> a = b.
Proof. unfold eqs. destruct (jstr_eq_dec a b); split; congruence. Qed.

Lemma eqs_false a b : eqs a b = false <-> a <> b.
Proof. unfold eqs. destruct (jstr_eq_dec a b); split; congruence. Qed.

Lemma eqs_refl a : eqs a a = true.
Proof. apply eqs_true. reflexivity. Qed.

Lemma indexOf_app_nl (cur r : jstr) :
  no_nl cur -> indexOf 10%N (cur ++ 10%N :: r) = Some (List.length cur).
Proof.
  unfold no_nl. induction cur as [|x c IH]; simpl; intros H.
  - reflexivity.
  - destruct (x =? 10)%N; [discriminate|].
    destruct (indexOf 10%N c); [discriminate|].
    rewrite IH by reflexivity. reflexivity.
Qed.

Lemma no_nl_snoc (cur : jstr) (c : N) :
  no_nl cur -> c <> 10%N -> no_nl (cur ++ [c]).
Proof.
  unfold no_nl. induction cur as [|x r IH]; simpl; intros H Hc.
  - destruct (N.eqb_spec c 10); [contradiction|reflexivity].
  - destruct (x =? 10)%N; [discriminate|].
    destruct (indexOf 10%N r); [discriminate|].
    rewrite IH by auto. reflexivity.
Qed.

Lemma slice_to_app (cur r : jstr) : slice_to (List.length cur) (cur ++ r) = cur.
Proof.
  unfold slice_to. rewrite firstn_app, Nat.sub_diag, firstn_all. simpl.
  apply app_nil_r.
Qed.

Lemma slice_from_app (cur : jstr) (c : N) (r : jstr) :
  slice_from (S (List.length cur)) (cur ++ c :: r) = r.
Proof.
  unfold slice_from. induction cur as [|x l IH]; simpl; auto.
Qed.

(* ===================================================================== *)
(** ** The decoder and the line loop, one unit at a time *)
(* ===================================================================== *)

Lemma decode_app (d : Utf8.Decoder) (a b : list byte) :
  Utf8.decode d (a ++ b) =
  (fst (Utf8.decode (fst (Utf8.decode d a)) b),
   snd (Utf8.decode d a) ++ snd (Utf8.decode (fst (Utf8.decode d a)) b)).
Proof.
  revert d. induction a as [|x a IH]; intros d; simpl.
  - destruct (Utf8.decode d b). reflexivity.
  - destruct (Utf8.step_units d x) as [d1 o1]. rewrite IH.
    destruct (Utf8.decode d1 a) as [d2 o2]. simpl.
    destruct (Utf8.decode d2 b) as [d3 o3]. simpl.
    rewrite app_assoc. reflexivity.
Qed.

(** One turn of the inner loop. *)
Lemma drain_step (f : Frame) (b : jstr) (out : list Call) :
  drain f b out =
  match indexOf 10%N b with
  | Some idx => drain (fst (on_line f (slice_to idx b))) (slice_from (S idx) b)
                      (out ++ snd (on_line f (slice_to idx b)))
  | None => (f, b, out)
  end.
Proof.
  funelim (drain f b out).
  - rewrite e. reflexivity.
  - rewrite e. reflexivity.
Qed.

Lemma drain_lines_of (t : jstr) : forall f cur out,
  no_nl cur -> drain f (cur ++ t) out = lines_of f cur t out.
Proof.
  induction t as [|c r IH]; intros f cur out Hcur.
  - rewrite app_nil_r, drain_step. unfold no_nl in Hcur. rewrite Hcur. reflexivity.
  - simpl. destruct (N.eqb_spec c 10) as [->|Hc].
    + rewrite drain_step, indexOf_app_nl by assumption.
      rewrite slice_to_app, slice_from_app.
      apply (IH _ [] _). reflexivity.
    + replace (cur ++ c :: r) with ((cur ++ [c]) ++ r)
        by (rewrite <- app_assoc; reflexivity).
      apply IH. apply no_nl_snoc; assumption.
Qed.

Lemma lines_of_app (a : jstr) : forall f cur b out,
  lines_of f cur (a ++ b) out =
  let '(f1, c1, o1) := lines_of f cur a out in lines_of f1 c1 b o1.
Proof.
  induction a as [|c r IH]; intros f cur b out; simpl.
  - reflexivity.
  - destruct (c =? 10)%N; apply IH.
Qed.

Lemma lines_of_no_nl (t : jstr) : forall f cur out,
  no_nl cur -> no_nl (snd (fst (lines_of f cur t out))).
Proof.
  induction t as [|c r IH]; intros f cur out H; simpl.
  - assumption.
  - destruct (N.eqb_spec c 10) as [->|Hc].
    + apply IH. reflexivity.
    + apply IH. apply no_nl_snoc; assumption.
Qed.

Lemma lines_of_out (t : jstr) : forall f cur out,
  lines_of f cur t out =
  (fst (lines_of f cur t []), out ++ snd (lines_of f cur t [])).
Proof.
  induction t as [|c r IH]; intros f cur out; simpl.
  - rewrite app_nil_r. reflexivity.
  - destruct (c =? 10)%N.
    + rewrite (IH _ _ (out ++ _)), (IH _ _ (snd (on_line f cur))). simpl.
      rewrite app_assoc. reflexivity.
    + apply IH.
Qed.

Lemma feed_lines_of (p : Parser) (chunk : list byte) :
  settled p ->
  feed p chunk =
  (mkParser (fst (Utf8.decode (decoder p) chunk))
            (snd (fst (lines_of (frame p) (buf p) (snd (Utf8.decode (decoder p) chunk)) [])))
            (fst (fst (lines_of (frame p) (buf p) (snd (Utf8.decode (decoder p) chunk)) []))),
   snd (lines_of (frame p) (buf p) (snd (Utf8.decode (decoder p) chunk)) [])).
Proof.
  intros H. unfold feed. destruct (Utf8.decode (decoder p) chunk) as [d text]. simpl.
  rewrite drain_lines_of by exact H.
  destruct (lines_of (frame p) (buf p) text []) as [[f b] o]. reflexivity.
Qed.

Lemma feed_settled (p : Parser) (chunk : list byte) :
  settled p -> settled (fst (feed p chunk)).
Proof.
  intros H. rewrite feed_lines_of by exact H. simpl.
  apply lines_of_no_nl. exact H.
Qed.

Lemma feed_app (p : Parser) (a b : list byte) :
  settled p ->
  feed p (a ++ b) =
  (fst (feed (fst (feed p a)) b), snd (feed p a) ++ snd (feed (fst (feed p a)) b)).
Proof.
  intros H.
  rewrite (feed_lines_of (fst (feed p a)) b) by (apply feed_settled; exact H).
  rewrite !feed_lines_of by exact H. simpl.
  rewrite decode_app. simpl.
  rewrite lines_of_app.
  destruct (lines_of (frame p) (buf p) (snd (Utf8.decode (decoder p) a)) [])
    as [[f1 c1] o1] eqn:E1. simpl.
  rewrite (lines_of_out _ f1 c1 o1). reflexivity.
Qed.

Lemma feed_nil (p : Parser) : settled p -> feed p [] = (p, []).
Proof.
  intros H. rewrite feed_lines_of by exact H. simpl. destruct p; reflexivity.
Qed.

Lemma feed_all_concat (chunks : list (list byte)) : forall p,
  settled p -> feed_all p chunks = feed p (List.concat chunks).
Proof.
  induction chunks as [|c r IH]; intros p H; simpl.
  - rewrite feed_nil by exact H. reflexivity.
  - rewrite feed_app by exact H.
    destruct (feed p c) as [p1 o1] eqn:E1. simpl.
    assert (H1 : settled p1) by (change p1 with (fst (p1, o1)); rewrite <- E1;
                                 apply feed_settled; exact H).
    rewrite (IH p1 H1). destruct (feed p1 (List.concat r)). reflexivity.
Qed.

Lemma lead_good (d : Utf8.Decoder) (b : N) : good d -> good (fst (Utf8.lead d b)).
Proof.
  unfold good, Utf8.lead. intros H.
  repeat match goal with |- context [if ?c then _ else _] => destruct c end;
    simpl; try assumption; lia.
Qed.

Lemma step_good (d : Utf8.Decoder) (b : N) : good d -> good (fst (Utf8.step d b)).
Proof.
  intros H. unfold Utf8.step.
  destruct (Utf8.bytes_needed d =? 0)%N; [apply lead_good; exact H|].
  destruct ((Utf8.lower_boundary d <=? b) && (b <=? Utf8.upper_boundary d))%N.
  - destruct (Utf8.bytes_seen d + 1 =? Utf8.bytes_needed d)%N; unfold good; simpl; lia.
  - pose proof (lead_good (Utf8.reset d) b) as L.
    destruct (Utf8.lead (Utf8.reset d) b) as [d' o]. simpl in *.
    apply L. unfold good. simpl. lia.
Qed.

Lemma step_units_good (d : Utf8.Decoder) (b : byte) :
  good d -> good (fst (Utf8.step_units d b)).
Proof.
  intros H. unfold Utf8.step_units.
  pose proof (step_good d (Byte.to_N b) H) as G.
  destruct (Utf8.step d (Byte.to_N b)) as [d1 cps].
  destruct (Utf8.serialize (Utf8.bom_seen d1) cps) as [seen o]. exact G.
Qed.

Lemma decode_good (bs : list byte) : forall d, good d -> good (fst (Utf8.decode d bs)).
Proof.
  induction bs as [|b r IH]; intros d H; simpl.
  - exact H.
  - pose proof (step_units_good d b H) as G.
    destruct (Utf8.step_units d b) as [d1 o1].
    specialize (IH d1 G). destruct (Utf8.decode d1 r). exact IH.
Qed.

(** A line feed byte always comes out as a line feed, last, and closes
    whatever sequence was open. *)
Lemma decode_line_feed (d : Utf8.Decoder) :
  good d ->
  exists pre,
    snd (Utf8.decode d [x0a]) = pre ++ [10%N] /\
    Utf8.bytes_needed (fst (Utf8.decode d [x0a])) = 0%N.
Proof.
  intros H. unfold good in H. simpl. unfold Utf8.step_units, Utf8.step.
  change (Byte.to_N x0a) with 10%N.
  destruct (Utf8.bytes_needed d =? 0)%N eqn:E.
  - apply N.eqb_eq in E. simpl.
    exists []. destruct (Utf8.bom_seen d); simpl; rewrite E; auto.
  - replace ((Utf8.lower_boundary d <=? 10) && (10 <=? Utf8.upper_boundary d))%N
      with false
      by (symmetry; apply andb_false_iff; left; apply N.leb_gt; lia).
    simpl. destruct (Utf8.bom_seen d); simpl; exists [65533%N]; auto.
Qed.

Lemma decode_line_feed_idle (d : Utf8.Decoder) :
  Utf8.bytes_needed d = 0%N -> snd (Utf8.decode d [x0a]) = [10%N].
Proof.
  intros E. simpl. unfold Utf8.step_units, Utf8.step.
  change (Byte.to_N x0a) with 10%N. rewrite E. simpl.
  destruct (Utf8.bom_seen d); reflexivity.
Qed.

Lemma emit_dataLines (f : Frame) : dataLines (fst (emit f)) = [].
Proof.
  unfold emit. destruct (dataLines f) eqn:E; simpl; [exact E|].
  destruct (eqs _ _); simpl; [reflexivity|].
  destruct (dispatch _ _ _ _ _). reflexivity.
Qed.

Lemma emit_emit (f : Frame) : emit (fst (emit f)) = (fst (emit f), []).
Proof.
  unfold emit at 1. rewrite emit_dataLines. reflexivity.
Qed.

Lemma on_line_blank (f : Frame) : on_line f [] = emit f.
Proof. reflexivity. Qed.

Lemma lines_of_snoc_nl (t : jstr) (f : Frame) (cur : jstr) :
  snd (fst (lines_of f cur (t ++ [10%N]) [])) = [].
Proof.
  rewrite lines_of_app. destruct (lines_of f cur t []) as [[f1 c1] o1]. reflexivity.
Qed.

(** After a stream that ends with a line feed the buffer is empty and the
    decoder idle. *)
Lemma feed_line_feed (p : Parser) (bytes : list byte) :
  settled p -> good (decoder p) ->
  buf (fst (feed p (bytes ++ [x0a]))) = [] /\
  Utf8.bytes_needed (decoder (fst (feed p (bytes ++ [x0a])))) = 0%N.
Proof.
  intros Hs Hg. rewrite feed_lines_of by exact Hs. cbn [fst snd buf decoder].
  rewrite decode_app. cbn [fst snd].
  pose proof (decode_good bytes (decoder p) Hg) as G.
  destruct (decode_line_feed _ G) as (pre & Eo & En).
  split; [|exact En].
  rewrite Eo, app_assoc. apply lines_of_snoc_nl.
Qed.

(* ===================================================================== *)
(** ** Classification of a frame *)
(* ===================================================================== *)

(** C9.  The sentinel is looked for before the payload is parsed and before
    the event name is looked at: a frame with data lines whose joined text
    trims to [[DONE]] makes [emit] call [onDone] and nothing else, marks the
    stream terminal and resets the event name, whatever [event:] line the
    frame had ([delta], [error], ...). *)
Theorem C9_done_sentinel_comes_first (f : Frame) :
  dataLines f <> [] ->
  trim (join nl (dataLines f)) = js "[DONE]" ->
  emit f = (mkFrame (js "message") [] true, [OnDone]).
Proof.
  intros Hne Hs. unfold emit.
  destruct (dataLines f) as [|l ls] eqn:E; [contradiction|].
  rewrite Hs, eqs_refl. reflexivity.
Qed.

Lemma trimStart_split (s : jstr) :
  exists w, s = w ++ trimStart s /\ Forall (fun c => is_ws c = true) w.
Proof.
  induction s as [|c r IH]; simpl.
  - exists []. split; [reflexivity|constructor].
  - destruct (is_ws c) eqn:E.
    + destruct IH as (w & Hw & Fw). exists (c :: w). split.
      * simpl. f_equal. exact Hw.
      * constructor; assumption.
    + exists []. split; [reflexivity|constructor].
Qed.

Lemma trimEnd_split (s : jstr) :
  exists w, s = trimEnd s ++ w /\ Forall (fun c => is_ws c = true) w.
Proof.
  unfold trimEnd. destruct (trimStart_split (rev s)) as (w & Hw & Fw).
  exists (rev w). split.
  - rewrite <- rev_app_distr, <- Hw, rev_involutive. reflexivity.
  - apply Forall_rev. exact Fw.
Qed.

Lemma trimStart_head (c : N) (r : jstr) : is_ws c = false -> trimStart (c :: r) = c :: r.
Proof. intros H. simpl. rewrite H. reflexivity. Qed.




(* ===================================================================== *)
(** ** Data lines lose their indentation *)
(* ===================================================================== *)

Lemma trimStart_flush_left (s : jstr) : flush_left (trimStart s).
Proof.
  induction s as [|c r IH]; simpl; [exact I|].
  destruct (is_ws c) eqn:E; [exact IH|exact E].
Qed.

Lemma endsWith_snoc (s : jstr) (c : N) : endsWith [13%N] (s ++ [c]) = (13 =? c)%N.
Proof.
  unfold endsWith. rewrite rev_app_distr. simpl. apply andb_true_r.
Qed.

Lemma on_line_data (f : Frame) (p : jstr) :
  on_line f (js "data:" ++ p) =
  (mkFrame (event f) (dataLines f ++ [trimStart (chomp p)]) (sawTerminal f), []).
Proof.
  rewrite js_data. unfold on_line, chomp.
  destruct p as [|c q] using rev_ind.
  - reflexivity.
  - clear IHq. rewrite endsWith_snoc.
    replace (endsWith [13%N] ([100; 97; 116; 97; 58]%N ++ q ++ [c])) with (13 =? c)%N
      by (rewrite app_assoc, endsWith_snoc; reflexivity).
    destruct (13 =? c)%N.
    + rewrite removelast_last.
      replace (slice_to _ _) with ([100; 97; 116; 97; 58]%N ++ q).
      * reflexivity.
      * rewrite app_assoc.
        replace (List.length (([100; 97; 116; 97; 58]%N ++ q) ++ [c]) - 1)
          with (List.length ([100; 97; 116; 97; 58]%N ++ q))
          by (rewrite (length_app (_ ++ q) [c]); simpl; lia).
        rewrite slice_to_app. reflexivity.
    + reflexivity.
Qed.

Lemma emit_flush_left (f : Frame) : Forall flush_left (dataLines (fst (emit f))).
Proof. rewrite emit_dataLines. constructor. Qed.

Lemma on_line_flush_left (f : Frame) (line : jstr) :
  Forall flush_left (dataLines f) -> Forall flush_left (dataLines (fst (on_line f line))).
Proof.
  intros H. unfold on_line.
  destruct (eqs _ []); [apply emit_flush_left|].
  destruct (startsWith (js "event:") _); [exact H|].
  destruct (startsWith (js "data:") _); [|exact H].
  simpl. apply Forall_app. split; [exact H|].
  constructor; [apply trimStart_flush_left|constructor].
Qed.

Lemma lines_of_flush_left (t : jstr) : forall f cur out,
  Forall flush_left (dataLines f) ->
  Forall flush_left (dataLines (fst (fst (lines_of f cur t out)))).
Proof.
  induction t as [|c r IH]; intros f cur out H; simpl.
  - exact H.
  - destruct (c =? 10)%N; apply IH; [apply on_line_flush_left|]; exact H.
Qed.

(** C10.  A [data:] line contributes what follows the colon with all its
    leading white space removed (and its carriage return, if any), not only
    one space; so at no point of any stream does the parser hold a payload
    line that begins with a space or a tab, and an indented payload is
    delivered without its indentation. *)
Theorem C10_data_lines_are_trimmed_at_the_start :
  (forall (f : Frame) (p : jstr),
     on_line f (js "data:" ++ p) =
     (mkFrame (event f) (dataLines f ++ [trimStart (chomp p)]) (sawTerminal f), [])) /\
  (forall chunks : list (list byte),
     Forall flush_left (dataLines (frame (fst (feed_all parser0 chunks))))) /\
  readSseStream [list_byte_of_string "data:     indented" ++ [x0a; x0a]]
    = ([OnDelta (js "indented")], false).
Proof.
  split; [exact on_line_data|]. split.
  - intros chunks. rewrite feed_all_concat by reflexivity.
    rewrite feed_lines_of by reflexivity. cbn [fst frame].
    apply lines_of_flush_left. constructor.
  - vm_compute. reflexivity.
Qed.

(* ===================================================================== *)
(** ** The delta buffer loses nothing *)
(* ===================================================================== *)

Lemma find_update_first {A : Type} (p : A -> bool) (f : A -> A) (l : list A) :
  (forall x, p (f x) = p x) ->
  find p (update_first p f l) = option_map f (find p l).
Proof.
  intros H. induction l as [|a l IH]; simpl.
  - reflexivity.
  - destruct (p a) eqn:E; simpl.
    + rewrite H, E. reflexivity.
    + rewrite E. exact IH.
Qed.

Lemma find_msg_update (c m : string) (f : Message -> Message) (cs : list Conversation) :
  (forall x, msg_id (f x) = msg_id x) ->
  find_msg (update_msg c m f cs) c m = option_map f (find_msg cs c m).
Proof.
  intros H. unfold find_msg, update_msg.
  rewrite find_update_first by (intros; reflexivity).
  destruct (find (is_conv c) cs) as [x|]; simpl; [|reflexivity].
  apply find_update_first. intros y. unfold is_msg. rewrite H. reflexivity.
Qed.

Lemma carries_ensure s sm m t : carries s sm m t -> carries (ensureStreamingBind s) sm m t.
Proof.
  intros (sm' & cnt & Hs & Hc & Hm & Hf & Ht).
  unfold ensureStreamingBind. rewrite Hs.
  destruct (view s); try (exists sm', cnt; repeat split; assumption).
  destruct (blank _);
    eexists; exists cnt; (split; [reflexivity|]); repeat split; assumption.
Qed.

Lemma ensure_buffer s : streamBuffer (ensureStreamingBind s) = streamBuffer s.
Proof.
  unfold ensureStreamingBind. destruct (streamingMsg s); [|reflexivity].
  destruct (view s); reflexivity.
Qed.

Lemma ensure_live s sm :
  streamingMsg s = Some sm -> exists sm', streamingMsg (ensureStreamingBind s) = Some sm'.
Proof.
  intros H. unfold ensureStreamingBind. rewrite H.
  destruct (view s); eauto. destruct (blank _); eexists; reflexivity.
Qed.

Lemma carries_append s sm m t d :
  carries s sm m t -> carries (streamAppend d s) sm m (t ++ d).
Proof.
  intros H. pose proof (carries_ensure _ _ _ _ H) as (sm1 & cnt & Hs & Hc & Hm & Hf & Ht).
  destruct H as (sm0 & _ & Hs0 & _).
  unfold streamAppend. rewrite Hs0, Hs.
  exists (set_hasFirstChunk true sm1), cnt. simpl.
  repeat split; try assumption.
  rewrite app_assoc, Ht. reflexivity.
Qed.

Lemma carries_flushed s sm m t sm1 cnt :
  streamingMsg s = Some sm1 -> convId sm1 = convId sm -> msgId sm1 = msgId sm ->
  find_msg (conversations s) (convId sm) (msgId sm) = Some (set_content cnt m) ->
  cnt ++ streamBuffer s = t ->
  carries (set_streamBuffer [] (append_to_bound sm1 s)) sm m t /\
  streamBuffer (set_streamBuffer [] (append_to_bound sm1 s)) = [].
Proof.
  intros Hs Hc Hm Hf Ht. split; [|reflexivity].
  exists sm1, (cnt ++ streamBuffer s). simpl.
  repeat split; try assumption.
  - rewrite Hc, Hm, find_msg_update by reflexivity. rewrite Hf. reflexivity.
  - rewrite app_nil_r. exact Ht.
Qed.

Lemma carries_frame s sm m t : carries s sm m t -> carries (frameCallback s) sm m t.
Proof.
  intros (sm1 & cnt & Hs & Hc & Hm & Hf & Ht).
  unfold frameCallback. destruct (streamFlushRaf s).
  - simpl. rewrite Hs. destruct (streamBuffer s) as [|b0 br] eqn:Eb.
    + exists sm1, cnt. simpl. rewrite Eb. repeat split; assumption.
    + pose proof (carries_flushed (set_streamFlushRaf false s) sm m t sm1 cnt) as L.
      simpl in L. rewrite Eb in L. apply L; assumption.
  - exists sm1, cnt. repeat split; assumption.
Qed.

Lemma carries_run ops : forall s sm m t,
  carries s sm m t -> carries (run_buffer ops s) sm m (t ++ appended ops).
Proof.
  induction ops as [|o r IH]; intros s sm m t H; simpl.
  - rewrite app_nil_r. exact H.
  - unfold run_buffer in *. simpl. rewrite app_assoc. apply IH.
    destruct o; simpl.
    + apply carries_append. exact H.
    + rewrite app_nil_r. apply carries_frame. exact H.
Qed.

Lemma carries_flush s sm m t :
  carries s sm m t ->
  carries (flushStreamNow s) sm m t /\ streamBuffer (flushStreamNow s) = [].
Proof.
  intros H. pose proof (carries_ensure _ _ _ _ H) as (sm1 & cnt & Hs & Hc & Hm & Hf & Ht).
  destruct H as (sm0 & _ & Hs0 & _).
  unfold flushStreamNow. rewrite Hs0. simpl. rewrite Hs.
  destruct (streamBuffer (ensureStreamingBind s)) as [|b0 br] eqn:Eb.
  - split; [|simpl; exact Eb].
    exists sm1, cnt. simpl. rewrite Eb. repeat split; assumption.
  - pose proof (carries_flushed (set_streamFlushRaf false (ensureStreamingBind s))
                  sm m t sm1 cnt) as L.
    simpl in L. rewrite Eb in L. apply L; assumption.
Qed.

Lemma carries_content s sm m t :
  carries s sm m t -> streamBuffer s = [] ->
  find_msg (conversations s) (convId sm) (msgId sm) = Some (set_content t m).
Proof.
  intros (sm1 & cnt & Hs & Hc & Hm & Hf & Ht) Hb.
  rewrite Hb, app_nil_r in Ht. subst cnt. exact Hf.
Qed.

Lemma carries_start s sm m :
  streamingMsg s = Some sm ->
  find_msg (conversations s) (convId sm) (msgId sm) = Some m ->
  carries s sm m (content m ++ streamBuffer s).
Proof.
  intros Hs Hf. exists sm, (content m). repeat split; try assumption.
  rewrite Hf. destruct m; reflexivity.
Qed.

Lemma flush_idempotent s : flushStreamNow (flushStreamNow s) = flushStreamNow s.
Proof.
  unfold flushStreamNow, ensureStreamingBind.
  destruct s as [cs [sm|] b raf v lg]; simpl; [|reflexivity].
  destruct v; simpl; destruct b; simpl; try reflexivity.
  all: destruct (blank _); reflexivity.
Qed.

Lemma flush_live s sm :
  streamingMsg s = Some sm -> exists sm', streamingMsg (flushStreamNow s) = Some sm'.
Proof.
  intros H. unfold flushStreamNow, ensureStreamingBind.
  destruct s as [cs o b raf v lg]; simpl in *. subst o.
  destruct v; simpl; destruct b; simpl; eauto.
  all: destruct (blank _); simpl; eauto.
Qed.

Lemma finalize_flush_first a s :
  finalizeStreaming a s = finalizeStreaming a (flushStreamNow s).
Proof.
  unfold finalizeStreaming. destruct (streamingMsg s) as [sm|] eqn:E.
  - destruct (flush_live _ _ E) as (sm' & E'). rewrite E', flush_idempotent. reflexivity.
  - unfold flushStreamNow. rewrite E, E. reflexivity.
Qed.

Lemma interrupt_flush_first s :
  finalizeStreamingInterrupted s = finalizeStreamingInterrupted (flushStreamNow s).
Proof.
  unfold finalizeStreamingInterrupted. destruct (streamingMsg s) as [sm|] eqn:E.
  - destruct (flush_live _ _ E) as (sm' & E'). rewrite E', flush_idempotent. reflexivity.
  - unfold flushStreamNow. rewrite E, E. reflexivity.
Qed.

(* ===================================================================== *)
(** ** After the finalize *)
(* ===================================================================== *)

Lemma finalize_detaches a s : streamingMsg (finalizeStreaming a s) = None.
Proof.
  unfold finalizeStreaming. destruct (streamingMsg s) eqn:E; [|exact E].
  unfold finalize_flushed. destruct (streamingMsg (flushStreamNow s)) eqn:E1; [|exact E1].
  destruct (find_msg _ _ _); [|reflexivity].
  destruct (ok a); reflexivity.
Qed.

Lemma interrupt_detaches s : streamingMsg (finalizeStreamingInterrupted s) = None.
Proof.
  unfold finalizeStreamingInterrupted. destruct (streamingMsg s) eqn:E; [|exact E].
  unfold interrupt_flushed. destruct (streamingMsg (flushStreamNow s)) eqn:E1; [|exact E1].
  destruct (find_msg _ _ _); reflexivity.
Qed.

Section Detached.

Variable s : Session.
Hypothesis dead : streamingMsg s = None.

Lemma dead_append t : streamAppend t s = s.
Proof. unfold streamAppend. rewrite dead. reflexivity. Qed.

Lemma dead_flush : flushStreamNow s = s.
Proof. unfold flushStreamNow. rewrite dead. reflexivity. Qed.

Lemma dead_finalize a : finalizeStreaming a s = s.
Proof. unfold finalizeStreaming. rewrite dead. reflexivity. Qed.

Lemma dead_interrupt : finalizeStreamingInterrupted s = s.
Proof. unfold finalizeStreamingInterrupted. rewrite dead. reflexivity. Qed.

Lemma dead_thinking t : setThinkingStatus t s = s.
Proof. unfold setThinkingStatus. rewrite dead. reflexivity. Qed.

Lemma dead_visible : ensureThinkingVisible s = s.
Proof. unfold ensureThinkingVisible. rewrite dead. reflexivity. Qed.

Lemma dead_sources i : setStreamingSources i s = s.
Proof. unfold setStreamingSources. rewrite dead. reflexivity. Qed.

Lemma dead_artifact a : pushStreamingArtifact a s = s.
Proof. unfold pushStreamingArtifact. rewrite dead. reflexivity. Qed.

Lemma dead_frame :
  conversations (frameCallback s) = conversations s /\
  streamingMsg (frameCallback s) = None.
Proof.
  unfold frameCallback. destruct (streamFlushRaf s); simpl; rewrite dead; auto.
Qed.

Lemma dead_first_chunk : live_hasFirstChunk s = false.
Proof. unfold live_hasFirstChunk. rewrite dead. reflexivity. Qed.

End Detached.

Lemma on_sess_same (f : Session -> Session) (x : Send) :
  f (sess x) = sess x -> on_sess f x = x.
Proof. intros H. unfold on_sess. rewrite H. destruct x; reflexivity. Qed.

Lemma inert_refl x : streamingMsg (sess x) = None -> inert x x.
Proof. intros H. split; [reflexivity|exact H]. Qed.

Lemma inert_handle (c : Call) (x : Send) :
  streamingMsg (sess x) = None -> inert x (handle c x).
Proof.
  intros H. destruct c; simpl.
  - rewrite on_sess_same by (apply dead_append; exact H). apply inert_refl, H.
  - unfold onStatus.
    repeat match goal with |- context [if eqs ?a ?b then _ else _] => destruct (eqs a b) end.
    + rewrite on_sess_same; [apply inert_refl, H|].
      rewrite dead_thinking, dead_visible by exact H. reflexivity.
    + rewrite on_sess_same; [apply inert_refl, H|].
      rewrite dead_thinking, dead_visible by exact H. reflexivity.
    + apply inert_refl, H.
    + rewrite dead_first_chunk by exact H. simpl. split; [reflexivity|exact H].
    + rewrite on_sess_same by (apply dead_finalize; exact H). apply inert_refl, H.
    + apply inert_refl, H.
  - apply inert_refl, H.
  - rewrite on_sess_same by (apply dead_sources; exact H). apply inert_refl, H.
  - rewrite on_sess_same by (apply dead_artifact; exact H). apply inert_refl, H.
  - apply inert_refl, H.
  - unfold onError. rewrite on_sess_same by (apply dead_finalize; exact H).
    apply inert_refl, H.
  - rewrite on_sess_same by (apply dead_finalize; exact H). apply inert_refl, H.
Qed.

Lemma inert_stop (x : Send) :
  streamingMsg (sess x) = None -> inert x (stopGenerating x).
Proof.
  intros H. unfold stopGenerating, abort, inert.
  destruct (controller x); simpl; rewrite dead_interrupt by exact H; simpl; auto.
Qed.

Lemma inert_attempt (a : Attempt) (x : Send) :
  streamingMsg (sess x) = None -> inert x (attempt a x).
Proof.
  intros H. destruct a; simpl.
  - apply inert_handle, H.
  - exact (dead_frame (sess x) H).
  - rewrite on_sess_same by (apply dead_flush; exact H). apply inert_refl, H.
  - rewrite on_sess_same by (apply dead_finalize; exact H). apply inert_refl, H.
  - rewrite on_sess_same by (apply dead_interrupt; exact H). apply inert_refl, H.
  - unfold runChatFallback. rewrite H. apply inert_refl, H.
  - apply inert_stop, H.
  - destruct st; simpl.
    + apply inert_refl, H.
    + exact (dead_frame (sess x) H).
    + destruct (watchdogPending x); [|apply inert_refl, H].
      unfold runChatFallback. simpl. rewrite H. split; [reflexivity|exact H].
    + destruct (isGenerating x); [apply inert_stop, H|apply inert_refl, H].
    + unfold inert, renderThread, clearThread. simpl. rewrite H. simpl. auto.
Qed.

Lemma inert_attempts (l : list Attempt) : forall x,
  streamingMsg (sess x) = None -> inert x (attempts l x).
Proof.
  induction l as [|a r IH]; intros x H.
  - apply inert_refl, H.
  - unfold attempts in *. simpl.
    destruct (inert_attempt a x H) as [Hc Hd].
    destruct (IH _ Hd) as [Hc' Hd']. split; [congruence|exact Hd'].
Qed.


(** The reply of a fallback that settles when no session is live: it is
    written into the answer all the same, and nothing else happens. *)
Lemma late_reply (fb : FallbackEnv) (x : Send) (m : Message) (reply : jstr) :
  streamingMsg (sess x) = None ->
  find_msg (conversations (sess x)) (sendConv x) (sendMsg x) = Some m ->
  fallback_answer fb = Some reply ->
  streamingMsg (sess (fallback_settle fb x)) = None /\
  log (sess (fallback_settle fb x)) = log (sess x) /\
  find_msg (conversations (sess (fallback_settle fb x))) (sendConv x) (sendMsg x)
    = Some (set_content reply m).
Proof.
  intros Hd Hf Ha.
  assert (R : forall o st t d, answer (PostResponse o st t d) = Some reply ->
            streamingMsg (sess (fallback_response o st t d x)) = None /\
            log (sess (fallback_response o st t d x)) = log (sess x) /\
            find_msg (conversations (sess (fallback_response o st t d x)))
                     (sendConv x) (sendMsg x) = Some (set_content reply m)).
  { intros o st t d Hans. unfold answer in Hans. destruct o; [|discriminate].
    unfold fallback_response. simpl negb. cbv iota.
    destruct (eqs (trim (String_or (get (js "reply") d))) []); [discriminate|].
    injection Hans as Hans. rewrite Hans. cbn [on_sess sess].
    rewrite dead_finalize by exact Hd. cbn [streamingMsg log conversations set_conversations].
    rewrite find_msg_update by reflexivity. rewrite Hf. auto. }
  unfold fallback_settle. unfold fallback_answer in Ha.
  destruct (post1 fb) as [m0|o st t d]; [|apply R; exact Ha].
  destruct (online2 fb); [|discriminate].
  destruct (post2 fb) as [m2|o st t d]; [discriminate|apply R; exact Ha].
Qed.

(** C5, as the code has it.  Once a session has been finalized, by
    [finalizeStreaming] with any argument or by
    [finalizeStreamingInterrupted], there is no live session; whatever is
    tried afterwards of what the guards cover (events of every kind reaching
    their handlers, the frame callback, a flush, either finalize, the start
    of a fallback, stop, the watchdog, a rendering of the thread), in any
    number and order, leaves every message as the finalize left it, and a
    second finalize changes nothing at all.  But the reply of a fallback
    request that was pending when the session was finalized is written into
    the answer with no test of the session: the finalized message gets the
    reply as its text, and nothing is finalized, persisted or logged.  So
    in the run [stopped_mid_fallback], where the user stops while the
    fallback's request is pending, the answer holds the placeholder of the
    interruption after the stop, and the reply [X] once the reply is in,
    still marked as interrupted. *)
Theorem C5_late_reply_overwrites_a_finalized_message (x : Send) (l : list Attempt) :
  (forall a,
     let y := on_sess (finalizeStreaming a) x in
     streamingMsg (sess y) = None /\
     conversations (sess (attempts l y)) = conversations (sess y) /\
     (forall a', finalizeStreaming a' (sess y) = sess y) /\
     finalizeStreamingInterrupted (sess y) = sess y) /\
  (let y := on_sess finalizeStreamingInterrupted x in
   streamingMsg (sess y) = None /\
   conversations (sess (attempts l y)) = conversations (sess y) /\
   (forall a', finalizeStreaming a' (sess y) = sess y) /\
   finalizeStreamingInterrupted (sess y) = sess y) /\
  (forall fb m reply,
     streamingMsg (sess x) = None ->
     find_msg (conversations (sess x)) (sendConv x) (sendMsg x) = Some m ->
     fallback_answer fb = Some reply ->
     streamingMsg (sess (fallback_settle fb x)) = None /\
     log (sess (fallback_settle fb x)) = log (sess x) /\
     find_msg (conversations (sess (fallback_settle fb x))) (sendConv x) (sendMsg x)
       = Some (set_content reply m)) /\
  (streamingMsg (sess stopped_mid_fallback) = None /\
   log (sess stopped_mid_fallback)
     = [Persist; Fetch "/chat/stream"; Abort; Fetch "/chat"; Abort;
        Finalized FinalInterrupted; Persist; Toast (js "Geração interrompida.")] /\
   find_msg (conversations (sess stopped_mid_fallback)) "c1" "a1"
     = Some (mkMessage "a1" Assistant (js "Geração interrompida.") true []) /\
   log (sess (fallback_settle fallback_replies stopped_mid_fallback))
     = log (sess stopped_mid_fallback) /\
   find_msg (conversations (sess (fallback_settle fallback_replies stopped_mid_fallback)))
            "c1" "a1"
     = Some (mkMessage "a1" Assistant (js "X") true [])).
Proof.
  split; [|split; [|split]].
  - intros a y.
    assert (H : streamingMsg (sess y) = None) by apply finalize_detaches.
    split; [exact H|]. split; [apply (inert_attempts l y H)|].
    split; [intros a'; apply dead_finalize, H|apply dead_interrupt, H].
  - intros y.
    assert (H : streamingMsg (sess y) = None) by apply interrupt_detaches.
    split; [exact H|]. split; [apply (inert_attempts l y H)|].
    split; [intros a'; apply dead_finalize, H|apply dead_interrupt, H].
  - intros fb m reply. apply late_reply.
  - split; [vm_compute; reflexivity|]. split; [vm_compute; reflexivity|].
    split; [vm_compute; reflexivity|]. split; vm_compute; reflexivity.
Qed.

(* ===================================================================== *)
(** ** The log of effects *)
(* ===================================================================== *)

Lemma ensure_log s : log (ensureStreamingBind s) = log s.
Proof.
  unfold ensureStreamingBind. destruct (streamingMsg s); [|reflexivity].
  destruct (view s); reflexivity.
Qed.

Lemma flush_log s : log (flushStreamNow s) = log s.
Proof.
  unfold flushStreamNow. destruct (streamingMsg s); [|reflexivity].
  simpl. destruct (streamBuffer (ensureStreamingBind s));
    [|destruct (streamingMsg (ensureStreamingBind s))]; simpl; apply ensure_log.
Qed.

Lemma thinking_log t s : log (setThinkingStatus t s) = log s.
Proof.
  unfold setThinkingStatus. destruct (streamingMsg s); [|reflexivity].
  destruct (blank t); [apply ensure_log|].
  destruct (streamingMsg (ensureStreamingBind s)); simpl; apply ensure_log.
Qed.

Lemma visible_log s : log (ensureThinkingVisible s) = log s.
Proof.
  unfold ensureThinkingVisible. destruct (streamingMsg s); [apply ensure_log|reflexivity].
Qed.

Lemma announce_log t s : log (ensureThinkingVisible (setThinkingStatus t s)) = log s.
Proof. rewrite visible_log. apply thinking_log. Qed.

(** What a finalize adds to the log: nothing when no session is live or its
    message is gone; otherwise its outcome, and what follows it. *)
Lemma finalize_log a s :
  exists l, log (finalizeStreaming a s) = log s ++ l /\
    (l = [] \/
     (ok a = true /\ exists c, l = [Finalized FinalOk; Persist; AutoTitle c]) \/
     (ok a = false /\ l = [Finalized (FinalError (error_text (errorMessage a))); Persist])).
Proof.
  unfold finalizeStreaming. destruct (streamingMsg s) eqn:E.
  2:{ exists []. rewrite app_nil_r. auto. }
  unfold finalize_flushed. destruct (streamingMsg (flushStreamNow s)) as [sm|] eqn:E1.
  2:{ exists []. rewrite app_nil_r, flush_log. auto. }
  destruct (find_msg _ _ _).
  2:{ exists []. simpl. rewrite app_nil_r, flush_log. auto. }
  destruct (ok a) eqn:Eo; simpl; rewrite flush_log, <- !app_assoc; simpl.
  - eexists. split; [reflexivity|]. right. left. split; [reflexivity|]. eexists. reflexivity.
  - eexists. split; [reflexivity|]. right. right. split; reflexivity.
Qed.

Lemma finalize_log_no_request a s :
  exists l, log (finalizeStreaming a s) = log s ++ l /\
    (forall p, ~ In (Fetch p) l) /\ ~ In Abort l /\
    (forall t, In (Finalized (FinalError t)) l -> ok a = false).
Proof.
  destruct (finalize_log a s) as (l & Hl & [->|[(Ho & c & ->)|(Ho & ->)]]);
    eexists; (split; [exact Hl|]); simpl;
    repeat split; try intros p; intros; intuition (try discriminate; auto).
Qed.

(* ===================================================================== *)
(** ** Stop *)
(* ===================================================================== *)

Lemma carries_effect e s sm m t : carries s sm m t -> carries (effect e s) sm m t.
Proof. intros H. exact H. Qed.

Lemma interrupt_result s sm m t :
  carries s sm m t ->
  streamingMsg (finalizeStreamingInterrupted s) = None /\
  log (finalizeStreamingInterrupted s) = log s ++ [Finalized FinalInterrupted; Persist] /\
  find_msg (conversations (finalizeStreamingInterrupted s)) (convId sm) (msgId sm)
    = Some (interrupted_message t m).
Proof.
  intros H. destruct (carries_flush _ _ _ _ H) as [Hc Hb].
  pose proof (carries_content _ _ _ _ Hc Hb) as Hm.
  destruct H as (sm0 & _ & Hs0 & _).
  destruct Hc as (sm1 & cnt & Hs1 & Hc1 & Hm1 & _).
  split; [apply interrupt_detaches|].
  unfold finalizeStreamingInterrupted. rewrite Hs0.
  unfold interrupt_flushed. rewrite Hs1, Hc1, Hm1, Hm. simpl.
  rewrite flush_log, <- app_assoc. split; [reflexivity|].
  rewrite find_msg_update by (intros y; simpl; destruct (blank (content y)); reflexivity).
  rewrite Hm. reflexivity.
Qed.

(** C6, as the code has it.  Stop on a live session bound to a message, after
    any run of appended deltas, finalizes it as interrupted: no session stays
    live, the message is flagged [interrupted], and its text is everything
    appended so far, buffered or not, when that text has a character that is
    not white space, and the placeholder otherwise (in particular when
    nothing was received). *)
Theorem C6_stop_keeps_the_partial_text
    (x : Send) (sm : StreamingMsg) (m : Message) (ops : list BufferOp) :
  streamingMsg (sess x) = Some sm ->
  find_msg (conversations (sess x)) (convId sm) (msgId sm) = Some m ->
  let y := stopGenerating (on_sess (run_buffer ops) x) in
  let all := content m ++ streamBuffer (sess x) ++ appended ops in
  streamingMsg (sess y) = None /\
  In (Finalized FinalInterrupted) (log (sess y)) /\
  option_map interrupted (find_msg (conversations (sess y)) (convId sm) (msgId sm))
    = Some true /\
  content_of (sess y) (convId sm) (msgId sm)
    = Some (if blank all then js "Geração interrompida." else all).
Proof.
  intros Hs Hf y all.
  pose proof (carries_run ops _ _ _ _ (carries_start _ _ _ Hs Hf)) as Hr.
  rewrite <- app_assoc in Hr. fold all in Hr.
  assert (Ha : carries (sess (abort (on_sess (run_buffer ops) x))) sm m all).
  { unfold abort. destruct (controller _); simpl; exact Hr. }
  destruct (interrupt_result _ _ _ _ Ha) as (Hd & Hl & Hm).
  set (z := finalizeStreamingInterrupted (sess (abort (on_sess (run_buffer ops) x)))) in *.
  assert (Ec : conversations (sess y) = conversations z) by reflexivity.
  assert (Es : streamingMsg (sess y) = streamingMsg z) by reflexivity.
  assert (El : log (sess y) = log z ++ [Toast (js "Geração interrompida.")])
    by reflexivity.
  unfold content_of. rewrite Ec, Es, El, Hd, Hl, Hm. repeat split.
  - apply in_or_app. left. apply in_or_app. right. left. reflexivity.
  - unfold interrupted_message. destruct (blank all); reflexivity.
  - unfold interrupted_message. destruct (blank all); reflexivity.
Qed.

(* ===================================================================== *)
(** ** The fallback *)
(* ===================================================================== *)

Lemma fallback_response_log o st t d x :
  exists l, log (sess (fallback_response o st t d x)) = log (sess x) ++ l /\
    (forall p, ~ In (Fetch p) l) /\ ~ In Abort l /\
    (forall e, In (Finalized (FinalError e)) l -> answer (PostResponse o st t d) = None).
Proof.
  unfold fallback_response, answer. destruct o; simpl.
  - destruct (eqs (trim (String_or (get (js "reply") d))) []) eqn:E; simpl.
    + destruct (finalize_log_no_request
                  (finalize_error (js "Fallback /chat retornou vazio.")) (sess x))
        as (l & Hl & Hf & Ha & He).
      exists l. repeat split; auto.
    + match goal with |- context [finalizeStreaming ?a ?s] =>
        destruct (finalize_log_no_request a s) as (l & Hl & Hf & Ha & He) end.
      exists l. repeat split; auto.
      intros e Hin. specialize (He e Hin). discriminate.
  - match goal with |- context [finalizeStreaming ?a ?s] =>
      destruct (finalize_log_no_request a s) as (l & Hl & Hf & Ha & He) end.
    exists l. repeat split; auto.
Qed.

Lemma fallback_response_flags o st t d x :
  watchdogFallback (fallback_response o st t d x) = watchdogFallback x /\
  signalAborted (fallback_response o st t d x) = signalAborted x.
Proof.
  unfold fallback_response. destruct o; simpl; [|auto].
  destruct (eqs _ []); auto.
Qed.

Lemma fallback_catch_log fb m x :
  exists l, log (sess (fallback_catch fb m x)) = log (sess x) ++ l /\
    (forall p, ~ In (Fetch p) l) /\ ~ In Abort l.
Proof.
  unfold fallback_catch. simpl.
  match goal with |- context [finalizeStreaming ?a ?s] =>
    destruct (finalize_log_no_request a s) as (l & Hl & Hf & Ha & He) end.
  exists l. repeat split; auto.
Qed.

Lemma abort_log x :
  log (sess (abort x)) = log (sess x) ++ (if controller x then [Abort] else []) /\
  (controller x = true -> signalAborted (abort x) = true).
Proof.
  unfold abort. destruct (controller x); simpl.
  - auto.
  - rewrite app_nil_r. split; [reflexivity|discriminate].
Qed.

(** A fallback that passes its guard: it answers [true], marks the send, aborts
    the stream when the send still has its controller, posts to [/chat], and
    finalizes as an error only when it obtained no reply. *)
Lemma runChatFallback_log reason fb x sm :
  streamingMsg (sess x) = Some sm -> hasFirstChunk sm = false ->
  snd (runChatFallback reason fb x) = true /\
  watchdogFallback (fst (runChatFallback reason fb x)) = true /\
  (controller x = true -> signalAborted (fst (runChatFallback reason fb x)) = true) /\
  exists l, log (sess (fst (runChatFallback reason fb x))) = log (sess x) ++ l /\
    In (Fetch "/chat") l /\
    (controller x = true -> In Abort l) /\
    (forall e, In (Finalized (FinalError e)) l -> fallback_answer fb = None).
Proof.
  intros Hs Hh. unfold runChatFallback. rewrite Hs, Hh. cbn [fst snd].
  set (x2 := on_sess _ (set_watchdogFallback true x)).
  assert (L2 : log (sess x2) = log (sess x)) by (unfold x2; simpl; apply announce_log).
  assert (C2 : controller x2 = controller x) by reflexivity.
  destruct (abort_log x2) as [L3 A3]. rewrite L2, C2 in L3. rewrite C2 in A3.
  set (x3 := abort x2) in *.
  assert (W3 : watchdogFallback x3 = true)
    by (unfold x3, abort; destruct (controller x2); reflexivity).
  set (x4 := on_sess (effect (Fetch "/chat")) x3).
  assert (L4 : log (sess x4) = log (sess x) ++ (if controller x then [Abort] else [])
                                 ++ [Fetch "/chat"])
    by (unfold x4; simpl; rewrite L3, <- app_assoc; reflexivity).
  unfold fallback_answer.
  destruct (post1 fb) as [m1|o st t d].
  - destruct (online2 fb).
    + set (x5 := on_sess (effect (Fetch "/chat")) x4).
      assert (L5 : log (sess x5) = log (sess x4) ++ [Fetch "/chat"]) by reflexivity.
      destruct (post2 fb) as [m2|o st t d].
      * destruct (fallback_catch_log fb m2 x5) as (l & Hl & Hf & Ha).
        split; [reflexivity|]. split; [exact W3|]. split; [exact A3|].
        eexists. split.
        { rewrite Hl, L5, L4, <- !app_assoc. reflexivity. }
        split; [apply in_or_app; right; left; reflexivity|].
        split; [intros Hc; rewrite Hc; left; reflexivity|]. intros; reflexivity.
      * destruct (fallback_response_log o st t d x5) as (l & Hl & Hf & Ha & He).
        destruct (fallback_response_flags o st t d x5) as [F1 F2].
        split; [reflexivity|]. split; [rewrite F1; exact W3|].
        split; [intros Hc; rewrite F2; exact (A3 Hc)|].
        eexists. split.
        { rewrite Hl, L5, L4, <- !app_assoc. reflexivity. }
        split; [apply in_or_app; right; left; reflexivity|].
        split; [intros Hc; rewrite Hc; left; reflexivity|].
        intros e Hin. apply (He e).
        apply in_app_or in Hin. destruct Hin as [Hin|Hin].
        { destruct (controller x); [destruct Hin as [X|[]]; discriminate|destruct Hin]. }
        destruct Hin as [X|[X|Hin]]; try discriminate. exact Hin.
    + destruct (fallback_catch_log fb m1 x4) as (l & Hl & Hf & Ha).
      split; [reflexivity|]. split; [exact W3|]. split; [exact A3|].
      eexists. split.
      { rewrite Hl, L4, <- !app_assoc. reflexivity. }
      split; [apply in_or_app; right; left; reflexivity|].
      split; [intros Hc; rewrite Hc; left; reflexivity|]. intros; reflexivity.
  - destruct (fallback_response_log o st t d x4) as (l & Hl & Hf & Ha & He).
    destruct (fallback_response_flags o st t d x4) as [F1 F2].
    split; [reflexivity|]. split; [rewrite F1; exact W3|].
    split; [intros Hc; rewrite F2; exact (A3 Hc)|].
    eexists. split.
    { rewrite Hl, L4, <- !app_assoc. reflexivity. }
    split; [apply in_or_app; right; left; reflexivity|].
    split; [intros Hc; rewrite Hc; left; reflexivity|].
    intros e Hin. apply (He e).
    apply in_app_or in Hin. destruct Hin as [Hin|Hin].
    { destruct (controller x); [destruct Hin as [X|[]]; discriminate|destruct Hin]. }
    destruct Hin as [X|Hin]; try discriminate. exact Hin.
Qed.



(* ===================================================================== *)
(** ** Once the first chunk has arrived *)
(* ===================================================================== *)

Ltac session_cases s :=
  destruct s as [cs [sm|] b raf v lg]; simpl in *; auto;
  repeat match goal with
         | |- context [match ?x with _ => _ end] =>
             is_var x; destruct x; simpl in *; auto
         | |- context [if ?x then _ else _] => destruct x eqn:?; simpl in *; auto
         end.

Lemma past_ensure s : past_first_chunk s -> past_first_chunk (ensureStreamingBind s).
Proof. unfold past_first_chunk, ensureStreamingBind. session_cases s. Qed.

Lemma past_append t s : past_first_chunk s -> past_first_chunk (streamAppend t s).
Proof. unfold past_first_chunk, streamAppend, ensureStreamingBind. session_cases s. Qed.

Lemma past_frame s : past_first_chunk s -> past_first_chunk (frameCallback s).
Proof. unfold past_first_chunk, frameCallback. session_cases s. Qed.

Lemma past_thinking t s : past_first_chunk s -> past_first_chunk (setThinkingStatus t s).
Proof. unfold past_first_chunk, setThinkingStatus, ensureStreamingBind. session_cases s. Qed.

Lemma past_visible s : past_first_chunk s -> past_first_chunk (ensureThinkingVisible s).
Proof. unfold past_first_chunk, ensureThinkingVisible, ensureStreamingBind. session_cases s. Qed.

Lemma past_sources i s : past_first_chunk s -> past_first_chunk (setStreamingSources i s).
Proof. unfold past_first_chunk, setStreamingSources. session_cases s. Qed.

Lemma past_artifact a s : past_first_chunk s -> past_first_chunk (pushStreamingArtifact a s).
Proof. unfold past_first_chunk, pushStreamingArtifact. session_cases s. Qed.

Lemma past_render shown s : past_first_chunk s -> past_first_chunk (renderThread shown s).
Proof. unfold past_first_chunk, renderThread, clearThread. session_cases s. Qed.

Lemma past_finalize a s : past_first_chunk (finalizeStreaming a s).
Proof. unfold past_first_chunk. rewrite finalize_detaches. exact I. Qed.

Lemma append_log t s : log (streamAppend t s) = log s.
Proof.
  unfold streamAppend. destruct (streamingMsg s); [|reflexivity].
  destruct (streamingMsg (ensureStreamingBind s)); simpl; apply ensure_log.
Qed.

Lemma frame_log s : log (frameCallback s) = log s.
Proof. unfold frameCallback. session_cases s. Qed.

Lemma sources_log i s : log (setStreamingSources i s) = log s.
Proof. unfold setStreamingSources. destruct (streamingMsg s); reflexivity. Qed.

Lemma artifact_log a s : log (pushStreamingArtifact a s) = log s.
Proof. unfold pushStreamingArtifact. destruct (streamingMsg s); reflexivity. Qed.

Lemma render_log shown s : log (renderThread shown s) = log s.
Proof. unfold renderThread, clearThread. destruct (streamingMsg s); reflexivity. Qed.

Lemma undisturbed_refl x : undisturbed x x.
Proof. repeat split; auto. Qed.

Lemma undisturbed_trans x y z : undisturbed x y -> undisturbed y z -> undisturbed x z.
Proof.
  intros (A1 & B1 & C1 & D1) (A2 & B2 & C2 & D2).
  repeat split; try congruence.
  intros e He. destruct (D2 e He) as [H|H]; [apply D1; exact H|right; exact H].
Qed.

(** An operation of the session that logs nothing. *)
Lemma undisturbed_silent (f : Session -> Session) (x : Send) :
  log (f (sess x)) = log (sess x) -> undisturbed x (on_sess f x).
Proof. intros H. repeat split; simpl; auto. rewrite H. auto. Qed.

Lemma undisturbed_finalize a x : undisturbed x (on_sess (finalizeStreaming a) x).
Proof.
  destruct (finalize_log_no_request a (sess x)) as (l & Hl & Hf & Ha & _).
  repeat split; simpl; auto. rewrite Hl. intros e He.
  apply in_app_or in He. destruct He as [He|He]; [left; exact He|right].
  split; [intros ->; contradiction|intros p ->; exact (Hf p He)].
Qed.

Lemma handle_past (c : Call) (x : Send) :
  past_first_chunk (sess x) ->
  past_first_chunk (sess (handle c x)) /\ undisturbed x (handle c x).
Proof.
  intros H. destruct c; simpl.
  - split; [apply past_append, H|apply undisturbed_silent, append_log].
  - unfold onStatus.
    repeat match goal with |- context [if ?a then _ else _] => destruct a end;
      simpl;
      try (split; [exact H|apply undisturbed_refl]);
      try (split; [apply past_finalize|apply undisturbed_finalize]);
      try (split; [apply past_visible, past_thinking, H
                  |apply undisturbed_silent, announce_log]).
    split; [exact H|]. repeat split; auto.
  - split; [exact H|apply undisturbed_refl].
  - split; [apply past_sources, H|apply undisturbed_silent, sources_log].
  - split; [apply past_artifact, H|apply undisturbed_silent, artifact_log].
  - split; [exact H|apply undisturbed_refl].
  - split; [apply past_finalize|apply undisturbed_finalize].
  - split; [apply past_finalize|apply undisturbed_finalize].
Qed.

Lemma handle_all_past (cs : list Call) : forall x,
  past_first_chunk (sess x) ->
  past_first_chunk (sess (handle_all cs x)) /\ undisturbed x (handle_all cs x).
Proof.
  induction cs as [|c r IH]; intros x H.
  - split; [exact H|apply undisturbed_refl].
  - unfold handle_all in *. simpl.
    destruct (handle_past c x H) as [P U].
    destruct (IH _ P) as [P' U']. split; [exact P'|].
    exact (undisturbed_trans _ _ _ U U').
Qed.

Lemma fallback_past reason fb x :
  past_first_chunk (sess x) -> runChatFallback reason fb x = (x, false).
Proof.
  unfold past_first_chunk, runChatFallback.
  destruct (streamingMsg (sess x)); [intros ->|]; reflexivity.
Qed.

Lemma aside_past (st : StreamStep) (x : Send) :
  is_stop st = false -> past_first_chunk (sess x) ->
  past_first_chunk (sess (aside st x)) /\ undisturbed x (aside st x).
Proof.
  intros Hst H. destruct st; simpl; try discriminate.
  - split; [exact H|apply undisturbed_refl].
  - split; [apply past_frame, H|apply undisturbed_silent, frame_log].
  - destruct (watchdogPending x); [|split; [exact H|apply undisturbed_refl]].
    rewrite fallback_past by exact H. simpl.
    split; [exact H|]. repeat split; auto.
  - split; [apply past_render, H|apply undisturbed_silent, render_log].
Qed.

(** The read loop from a session that has had its first chunk: unless the
    user stops, it returns or throws what the reader throws, and nothing has
    been aborted, no fallback started and no request made. *)
Lemma read_sse_past (steps : list StreamStep) : forall p ending x,
  forallb (fun st => negb (is_stop st)) steps = true ->
  past_first_chunk (sess x) ->
  signalAborted x = false ->
  undisturbed x (fst (read_sse p steps ending x)) /\
  snd (read_sse p steps ending x) <> Some AbortError.
Proof.
  induction steps as [|st r IH]; intros p ending x Hns Hp Ha.
  - simpl. rewrite Ha. destruct ending; simpl.
    + split; [apply handle_all_past, Hp|discriminate].
    + split; [apply undisturbed_refl|discriminate].
  - simpl in Hns. apply andb_true_iff in Hns. destruct Hns as [Hst Hns].
    apply negb_true_iff in Hst.
    assert (Step : forall y, past_first_chunk (sess y) -> undisturbed x y ->
              forall q,
              undisturbed x (fst (read_sse q r ending y)) /\
              snd (read_sse q r ending y) <> Some AbortError).
    { intros y Py Uy q.
      assert (Ay : signalAborted y = false) by (destruct Uy as (A & _); congruence).
      destruct (IH q ending y Hns Py Ay) as [U N].
      split; [exact (undisturbed_trans _ _ _ Uy U)|exact N]. }
    destruct st; simpl; rewrite Ha.
    + destruct (feed p bytes) as [p1 calls].
      destruct (handle_all_past calls x Hp) as [P U]. apply Step; assumption.
    + destruct (aside_past FrameTick x eq_refl Hp) as [P U]. apply Step; assumption.
    + destruct (aside_past (WatchdogFires fb) x eq_refl Hp) as [P U].
      apply Step; assumption.
    + discriminate.
    + destruct (aside_past (ThreadRendered shown) x eq_refl Hp) as [P U].
      apply Step; assumption.
Qed.

(** C7, as the code has it.  The watchdog has one delay, 12000 ms.  It is
    started once the stream request has been answered [ok] with a body to
    read, just before the first read.  When it fires while the session is
    live and has not had its first chunk, the stream is aborted, the send is
    marked as fallen back and the fallback request is made.  When it fires
    on a session that has had its first chunk, nothing happens: neither the
    session, nor the signal, nor the mark changes.  So from the first chunk
    on, however the chunks, the frame callbacks, the renderings of the thread
    and the firing of the watchdog follow one another, and unless the user
    stops, the read loop is never aborted, no fallback is started and no
    request is made. *)
Theorem C7_watchdog_waits_for_the_first_chunk_only
    (env : SendEnv) (x : Send) (fb : FallbackEnv) (sm : StreamingMsg) :
  streamingMsg (sess x) = Some sm ->
  WATCHDOG_MS = 12000%N /\
  (forall r, stream env = FetchResponse r -> resp_ok r = true -> has_reader r = true ->
     watchdogPending (start_watchdog (connecting x)) = true /\
     log (sess (start_watchdog (connecting x)))
       = log (sess x) ++ [Fetch "/chat/stream"; SetTimeout WATCHDOG_MS] /\
     send_stream env x
       = (let (x4, thrown) := read_body r (start_watchdog (connecting x)) in
          match thrown with
          | Some e => (x4, Some e)
          | None => (after_stream env x4, None)
          end)) /\
  (watchdogPending x = true -> controller x = true -> hasFirstChunk sm = false ->
     signalAborted (aside (WatchdogFires fb) x) = true /\
     watchdogFallback (aside (WatchdogFires fb) x) = true /\
     exists l, log (sess (aside (WatchdogFires fb) x)) = log (sess x) ++ l /\
       In Abort l /\ In (Fetch "/chat") l) /\
  (hasFirstChunk sm = true ->
     sess (aside (WatchdogFires fb) x) = sess x /\
     signalAborted (aside (WatchdogFires fb) x) = signalAborted x /\
     watchdogFallback (aside (WatchdogFires fb) x) = watchdogFallback x) /\
  (hasFirstChunk sm = true -> signalAborted x = false ->
     forall (p : Parser) (steps : list StreamStep) (ending : StreamEnd),
       forallb (fun st => negb (is_stop st)) steps = true ->
       undisturbed x (fst (read_sse p steps ending x)) /\
       snd (read_sse p steps ending x) <> Some AbortError).
Proof.
  intros Hs. split; [reflexivity|]. split; [|split; [|split]].
  4:{ intros Hh Ha p steps ending Hns. apply read_sse_past; try assumption.
      unfold past_first_chunk. rewrite Hs. exact Hh. }
  - intros r Hr Hok Hrd. split; [reflexivity|]. split.
    + unfold start_watchdog. simpl. rewrite announce_log, <- app_assoc. reflexivity.
    + unfold send_stream. rewrite Hr, Hok, Hrd. reflexivity.
  - intros Hp Hc Hh. unfold aside. rewrite Hp.
    destruct (runChatFallback_log (js "Sem resposta no streaming. Usando fallback…") fb
                (set_watchdog (watchdogTimer x) false x) sm Hs Hh)
      as (_ & Hw & Ha & l & Hl & Hin & Hab & _).
    split; [exact (Ha Hc)|]. split; [exact Hw|].
    exists l. split; [exact Hl|]. split; [exact (Hab Hc)|exact Hin].
  - intros Hh. unfold aside. destruct (watchdogPending x); [|auto].
    unfold runChatFallback. simpl. rewrite Hs, Hh. auto.
Qed.

(** C1: what the code does.  A stream that ends with the sentinel, or with a
    [done] event, before any delta is finalized as [ok] at once, with an empty
    answer and no [/chat] request, whatever the fallback would have met;
    only a [status] event with phase [done] makes the send try the fallback
    first. *)
Theorem C1_empty_done_finalizes_ok_at_once (fb : FallbackEnv) :
  (let y := sendMessage (send_env (sse_body "data: [DONE]||") fb) at_rest in
   log (sess y) = [Persist; Fetch "/chat/stream"; SetTimeout 12000; Finalized FinalOk;
                   Persist; AutoTitle "c1"; ClearTimeout] /\
   content_of (sess y) "c1" "a1" = Some []) /\
  (let y := sendMessage (send_env (sse_body "event: done|data: {}||") fb) at_rest in
   log (sess y) = [Persist; Fetch "/chat/stream"; SetTimeout 12000; Finalized FinalOk;
                   Persist; AutoTitle "c1"; ClearTimeout] /\
   content_of (sess y) "c1" "a1" = Some []) /\
  (let y := sendMessage (send_env (sse_body "event: status|data: {'phase':'done'}||")
                           fallback_replies) at_rest in
   log (sess y) = [Persist; Fetch "/chat/stream"; SetTimeout 12000; Abort; Fetch "/chat";
                   Finalized FinalOk; Persist; AutoTitle "c1"; ClearTimeout] /\
   content_of (sess y) "c1" "a1" = Some (js "X")).
Proof.
  repeat split; vm_compute; reflexivity.
Qed.

(* ===================================================================== *)
(** ** What a finalize leaves in the message *)
(* ===================================================================== *)

Lemma run_log ops : forall s, log (run_buffer ops s) = log s.
Proof.
  induction ops as [|o r IH]; intros s; [reflexivity|].
  unfold run_buffer in *. simpl. rewrite IH.
  destruct o; simpl; [apply append_log | apply frame_log].
Qed.

Lemma ensure_collected s : collected (ensureStreamingBind s) = collected s.
Proof.
  unfold collected, ensureStreamingBind.
  destruct (streamingMsg s) as [sm|] eqn:E; [|rewrite E; reflexivity].
  destruct (view s); try (rewrite E; reflexivity).
  destruct (blank _); reflexivity.
Qed.

Lemma flush_collected s : collected (flushStreamNow s) = collected s.
Proof.
  unfold flushStreamNow.
  destruct (streamingMsg s) as [sm|] eqn:E; [|reflexivity].
  rewrite <- (ensure_collected s).
  generalize (ensureStreamingBind s). intros s1.
  change (streamBuffer (set_streamFlushRaf false s1)) with (streamBuffer s1).
  change (streamingMsg (set_streamFlushRaf false s1)) with (streamingMsg s1).
  destruct (streamBuffer s1); [reflexivity|].
  destruct (streamingMsg s1) eqn:E1; unfold collected; simpl; rewrite E1; reflexivity.
Qed.

Lemma finalize_result a s sm m t :
  carries s sm m t ->
  streamingMsg (finalizeStreaming a s) = None /\
  log (finalizeStreaming a s)
    = log s ++ (if ok a then [Finalized FinalOk; Persist; AutoTitle (convId sm)]
                else [Finalized (FinalError (error_text (errorMessage a))); Persist]) /\
  find_msg (conversations (finalizeStreaming a s)) (convId sm) (msgId sm)
    = Some (final_message a (collected s) t m).
Proof.
  intros H. destruct (carries_flush _ _ _ _ H) as [Hc Hb].
  pose proof (carries_content _ _ _ _ Hc Hb) as Hm.
  pose proof (flush_collected s) as Hk.
  destruct H as (sm0 & _ & Hs0 & _).
  destruct Hc as (sm1 & cnt & Hs1 & Hc1 & Hm1 & _).
  split; [apply finalize_detaches|].
  unfold finalizeStreaming. rewrite Hs0.
  unfold finalize_flushed. rewrite Hs1, Hc1, Hm1, Hm.
  unfold collected in Hk. rewrite Hs1 in Hk. fold (collected s) in Hk.
  split.
  - destruct (ok a); simpl; rewrite flush_log, <- !app_assoc; reflexivity.
  - assert (E : find_msg
                  (update_msg (convId sm) (msgId sm)
                     (fun m0 =>
                        match
                          match arg_artifacts a, sm_artifacts sm1 with
                          | Some l, _ => l
                          | None, Some l => l
                          | None, None => []
                          end
                        with
                        | [] => if ok a then m0
                                else set_content (error_text (errorMessage a)) m0
                        | _ :: _ =>
                            set_artifacts
                              match arg_artifacts a, sm_artifacts sm1 with
                              | Some l, _ => l
                              | None, Some l => l
                              | None, None => []
                              end
                              (if ok a then m0
                               else set_content (error_text (errorMessage a)) m0)
                        end) (conversations (flushStreamNow s)))
                  (convId sm) (msgId sm)
                = Some (final_message a (collected s) t m)).
    { rewrite find_msg_update.
      - rewrite Hm. unfold final_message. simpl.
        rewrite <- Hk.
        destruct (arg_artifacts a) as [l|]; [|destruct (sm_artifacts sm1) as [l|]].
        + destruct l; destruct (ok a); reflexivity.
        + destruct l; destruct (ok a); reflexivity.
        + destruct (ok a); reflexivity.
      - intros y.
        destruct (match arg_artifacts a, sm_artifacts sm1 with
                  | Some l, _ => l | None, Some l => l | None, None => [] end);
          destruct (ok a); reflexivity. }
    destruct (ok a); exact E.
Qed.

(** C2.  For a live session bound to a message, after any run of appended
    deltas (with the frame callback running between them or not at all), one
    [flushStreamNow] leaves the message with its previous text, then what the
    buffer held, then every delta text in order, and leaves the buffer empty.
    Every finalize flushes first, so that this whole text is in the message
    before anything else is done to it, and then ends the session: as [ok]
    the message keeps exactly that text; as an error the text is then
    replaced by the error text; as interrupted the message is flagged and
    keeps that text, unless it is blank, in which case the placeholder
    takes its place. *)
Theorem C2_flush_loses_nothing
    (s : Session) (sm : StreamingMsg) (m : Message) (ops : list BufferOp) :
  streamingMsg s = Some sm ->
  find_msg (conversations s) (convId sm) (msgId sm) = Some m ->
  let s' := run_buffer ops s in
  let all := content m ++ streamBuffer s ++ appended ops in
  content_of (flushStreamNow s') (convId sm) (msgId sm) = Some all /\
  streamBuffer (flushStreamNow s') = [] /\
  content_of (finalizeStreaming finalize_ok s') (convId sm) (msgId sm) = Some all /\
  (forall a, finalizeStreaming a s' = finalizeStreaming a (flushStreamNow s')) /\
  finalizeStreamingInterrupted s' = finalizeStreamingInterrupted (flushStreamNow s') /\
  (forall a,
     streamingMsg (finalizeStreaming a s') = None /\
     find_msg (conversations (finalizeStreaming a s')) (convId sm) (msgId sm)
       = Some (final_message a (collected s') all m) /\
     content_of (finalizeStreaming a s') (convId sm) (msgId sm)
       = Some (if ok a then all else error_text (errorMessage a)) /\
     log (finalizeStreaming a s')
       = log s ++ (if ok a then [Finalized FinalOk; Persist; AutoTitle (convId sm)]
                   else [Finalized (FinalError (error_text (errorMessage a))); Persist])) /\
  streamingMsg (finalizeStreamingInterrupted s') = None /\
  find_msg (conversations (finalizeStreamingInterrupted s')) (convId sm) (msgId sm)
    = Some (interrupted_message all m) /\
  content_of (finalizeStreamingInterrupted s') (convId sm) (msgId sm)
    = Some (if blank all then js "Geração interrompida." else all) /\
  option_map interrupted
    (find_msg (conversations (finalizeStreamingInterrupted s')) (convId sm) (msgId sm))
    = Some true /\
  log (finalizeStreamingInterrupted s') = log s ++ [Finalized FinalInterrupted; Persist].
Proof.
  intros Hs Hf s' all.
  pose proof (carries_run ops _ _ _ _ (carries_start _ _ _ Hs Hf)) as Hr.
  fold s' in Hr. rewrite <- app_assoc in Hr. fold all in Hr.
  destruct (carries_flush _ _ _ _ Hr) as [Hc Hb].
  pose proof (carries_content _ _ _ _ Hc Hb) as Hm.
  assert (Ok : forall a,
     streamingMsg (finalizeStreaming a s') = None /\
     find_msg (conversations (finalizeStreaming a s')) (convId sm) (msgId sm)
       = Some (final_message a (collected s') all m) /\
     content_of (finalizeStreaming a s') (convId sm) (msgId sm)
       = Some (if ok a then all else error_text (errorMessage a)) /\
     log (finalizeStreaming a s')
       = log s ++ (if ok a then [Finalized FinalOk; Persist; AutoTitle (convId sm)]
                   else [Finalized (FinalError (error_text (errorMessage a))); Persist])).
  { intros a. destruct (finalize_result a _ _ _ _ Hr) as (Hd & Hl & Hfm).
    split; [exact Hd|]. split; [exact Hfm|]. split.
    - unfold content_of. rewrite Hfm. unfold final_message.
      destruct (match arg_artifacts a with Some l => l | None => collected s' end);
        destruct (ok a); reflexivity.
    - rewrite Hl. unfold s'. rewrite run_log. reflexivity. }
  split; [|split; [exact Hb|split; [|split; [|split; [|split]]]]].
  - unfold content_of. rewrite Hm. reflexivity.
  - destruct (Ok finalize_ok) as (_ & _ & Hk & _). exact Hk.
  - intros a. apply finalize_flush_first.
  - apply interrupt_flush_first.
  - exact Ok.
  - destruct (interrupt_result _ _ _ _ Hr) as (Hd & Hl & Him).
    split; [exact Hd|]. split; [exact Him|]. unfold content_of. rewrite Him.
    split; [|split].
    + unfold interrupted_message. destruct (blank all); reflexivity.
    + unfold interrupted_message. destruct (blank all); reflexivity.
    + rewrite Hl. unfold s'. rewrite run_log. reflexivity.
Qed.

Lemma carries_sources i s sm m t :
  carries s sm m t -> carries (setStreamingSources i s) sm m t.
Proof.
  intros (sm1 & cnt & Hs & Hc & Hm & Hf & Ht).
  unfold setStreamingSources. rewrite Hs.
  eexists; exists cnt. split; [reflexivity|]. repeat split; assumption.
Qed.

Lemma carries_artifact a s sm m t :
  carries s sm m t -> carries (pushStreamingArtifact a s) sm m t.
Proof.
  intros (sm1 & cnt & Hs & Hc & Hm & Hf & Ht).
  unfold pushStreamingArtifact. rewrite Hs.
  eexists; exists cnt. split; [reflexivity|]. repeat split; assumption.
Qed.

Lemma append_collected t s : collected (streamAppend t s) = collected s.
Proof.
  unfold streamAppend.
  destruct (streamingMsg s) as [sm|] eqn:E; [|reflexivity].
  rewrite <- (ensure_collected s).
  generalize (ensureStreamingBind s). intros s1.
  unfold collected. destruct (streamingMsg s1) eqn:E1; simpl; rewrite ?E1; reflexivity.
Qed.

Lemma quiet_event (c : Call) (x : Send) sm m t :
  quiet c = true ->
  carries (sess x) sm m t ->
  carries (sess (handle c x)) sm m (t ++ deltas [c]) /\
  collected (sess (handle c x)) = collected (sess x) ++ artifacts_in [c] /\
  log (sess (handle c x)) = log (sess x).
Proof.
  intros Hq H. destruct c; try discriminate Hq; simpl; rewrite ?app_nil_r.
  - split; [apply carries_append; exact H|].
    split; [apply append_collected | apply append_log].
  - auto.
  - split; [apply carries_sources; exact H|].
    split; [|apply sources_log].
    destruct H as (sm1 & _ & Hs & _).
    unfold collected, setStreamingSources. rewrite Hs. reflexivity.
  - split; [apply carries_artifact; exact H|].
    split; [|apply artifact_log].
    destruct H as (sm1 & _ & Hs & _).
    unfold collected, pushStreamingArtifact. rewrite Hs. simpl.
    destruct (sm_artifacts sm1); reflexivity.
  - auto.
Qed.

Lemma quiet_events (cs : list Call) : forall (x : Send) sm m t,
  forallb quiet cs = true ->
  carries (sess x) sm m t ->
  carries (sess (handle_all cs x)) sm m (t ++ deltas cs) /\
  collected (sess (handle_all cs x)) = collected (sess x) ++ artifacts_in cs /\
  log (sess (handle_all cs x)) = log (sess x).
Proof.
  induction cs as [|c r IH]; intros x sm m t Hq H.
  - simpl. rewrite !app_nil_r. auto.
  - simpl in Hq. apply andb_prop in Hq. destruct Hq as [Hc Hr].
    destruct (quiet_event c x sm m t Hc H) as (H1 & H2 & H3).
    destruct (IH (handle c x) sm m _ Hr H1) as (K1 & K2 & K3).
    assert (Ed : deltas (c :: r) = deltas [c] ++ deltas r)
      by (unfold deltas; simpl; rewrite app_nil_r; reflexivity).
    assert (Ea : artifacts_in (c :: r) = artifacts_in [c] ++ artifacts_in r)
      by (unfold artifacts_in; simpl; rewrite app_nil_r; reflexivity).
    rewrite Ed, Ea. unfold handle_all in *. simpl fold_left.
    rewrite !app_assoc. rewrite K2, K3, H2, H3. auto.
Qed.

(** X1.  A stream of delta, artifact, sources, meta and citations events
    followed by [done], handled on a live session bound to a message,
    finalizes it as a success: the message holds its earlier text, what was
    buffered and every delta in order; the artifacts collected before and
    those of the events, in order, are attached to it when there is one
    (otherwise the message keeps its own); exactly a finalize, a persist and
    a deferred titling are logged. *)
Theorem done_after_events_keeps_text_and_artifacts
    (x : Send) (sm : StreamingMsg) (m : Message) (cs : list Call) :
  streamingMsg (sess x) = Some sm ->
  find_msg (conversations (sess x)) (convId sm) (msgId sm) = Some m ->
  forallb quiet cs = true ->
  let y := handle_all (cs ++ [OnDone]) x in
  streamingMsg (sess y) = None /\
  content_of (sess y) (convId sm) (msgId sm)
    = Some (content m ++ streamBuffer (sess x) ++ deltas cs) /\
  option_map artifacts (find_msg (conversations (sess y)) (convId sm) (msgId sm))
    = Some (match collected (sess x) ++ artifacts_in cs with
            | [] => artifacts m
            | (_ :: _) as l => l
            end) /\
  log (sess y) = log (sess x) ++ [Finalized FinalOk; Persist; AutoTitle (convId sm)].
Proof.
  intros Hs Hf Hq y.
  destruct (quiet_events cs x sm m _ Hq (carries_start _ _ _ Hs Hf)) as (H1 & H2 & H3).
  destruct (finalize_result finalize_ok _ _ _ _ H1) as (Hd & Hl & Hm).
  assert (Ey : sess y = finalizeStreaming finalize_ok (sess (handle_all cs x))).
  { unfold y, handle_all. rewrite fold_left_app. reflexivity. }
  unfold content_of. rewrite Ey, Hd, Hl, Hm, H2, H3, <- app_assoc.
  unfold final_message. simpl.
  destruct (collected (sess x) ++ artifacts_in cs); auto.
Qed.



(** X3.  When the thread is rendered again while a session is live, the
    text that was in the delta buffer is dropped: whatever is appended
    afterwards, a flush or a finalize leaves in the message the text it had
    at the time of the rendering followed by the later deltas only. *)
Theorem rendering_the_thread_drops_the_buffer
    (s : Session) (sm : StreamingMsg) (m : Message) (shown : bool)
    (ops : list BufferOp) :
  streamingMsg s = Some sm ->
  find_msg (conversations s) (convId sm) (msgId sm) = Some m ->
  let s' := run_buffer ops (renderThread shown s) in
  streamBuffer (renderThread shown s) = [] /\
  content_of (flushStreamNow s') (convId sm) (msgId sm)
    = Some (content m ++ appended ops) /\
  content_of (finalizeStreaming finalize_ok s') (convId sm) (msgId sm)
    = Some (content m ++ appended ops).
Proof.
  intros Hs Hf s'. split; [reflexivity|].
  assert (H0 : carries (renderThread shown s) sm m (content m)).
  { exists (set_contentEl false sm), (content m).
    unfold renderThread, clearThread. rewrite Hs. simpl.
    repeat split; [| apply app_nil_r].
    rewrite Hf. destruct m; reflexivity. }
  pose proof (carries_run ops _ _ _ _ H0) as H1. fold s' in H1.
  destruct (carries_flush _ _ _ _ H1) as [H2 Hb].
  destruct (finalize_result finalize_ok _ _ _ _ H1) as (_ & _ & H3).
  unfold content_of. rewrite (carries_content _ _ _ _ H2 Hb), H3.
  unfold final_message. simpl.
  split; [reflexivity|]. destruct (collected s'); reflexivity.
Qed.

Lemma append_pending t s sm :
  streamingMsg s = Some sm -> streamFlushRaf (streamAppend t s) = true.
Proof. intros H. unfold streamAppend. rewrite H. reflexivity. Qed.

(** X4.  The frame callback that an append schedules delivers, when it
    runs, everything appended so far: the message then holds its earlier
    text, what was buffered and every delta in order, the buffer is empty
    and no callback is pending. *)
Theorem frame_callback_delivers_the_buffer
    (s : Session) (sm : StreamingMsg) (m : Message) (ops : list BufferOp) (t : jstr) :
  streamingMsg s = Some sm ->
  find_msg (conversations s) (convId sm) (msgId sm) = Some m ->
  let s' := frameCallback (streamAppend t (run_buffer ops s)) in
  content_of s' (convId sm) (msgId sm)
    = Some (content m ++ streamBuffer s ++ appended ops ++ t) /\
  streamBuffer s' = [] /\
  streamFlushRaf s' = false.
Proof.
  intros Hs Hf s'.
  pose proof (carries_run ops _ _ _ _ (carries_start _ _ _ Hs Hf)) as H1.
  pose proof (carries_append _ _ _ _ t H1) as H2.
  pose proof (carries_frame _ _ _ _ H2) as H3. fold s' in H3.
  destruct H1 as (sm1 & _ & Hs1 & _).
  pose proof (append_pending t _ _ Hs1) as Hp.
  assert (Hb : streamBuffer s' = [] /\ streamFlushRaf s' = false).
  { unfold s', frameCallback. rewrite Hp.
    destruct H2 as (sm2 & _ & Hs2 & _).
    change (streamingMsg (set_streamFlushRaf false (streamAppend t (run_buffer ops s))))
      with (streamingMsg (streamAppend t (run_buffer ops s))).
    rewrite Hs2.
    change (streamBuffer (set_streamFlushRaf false (streamAppend t (run_buffer ops s))))
      with (streamBuffer (streamAppend t (run_buffer ops s))).
    destruct (streamBuffer (streamAppend t (run_buffer ops s))) eqn:Eb.
    - simpl. rewrite Eb. auto.
    - auto. }
  destruct Hb as [Hb Hr].
  unfold content_of. rewrite (carries_content _ _ _ _ H3 Hb).
  simpl. rewrite <- !app_assoc. auto.
Qed.

(* ===================================================================== *)
(** ** Replies that arrive in one piece *)
(* ===================================================================== *)

Lemma carries_thinking r s sm m t :
  carries s sm m t -> carries (setThinkingStatus r s) sm m t.
Proof.
  intros H. pose proof (carries_ensure _ _ _ _ H) as (sm1 & cnt & Hs & Hc & Hm & Hf & Ht).
  destruct H as (sm0 & _ & Hs0 & _).
  unfold setThinkingStatus. rewrite Hs0.
  destruct (blank r).
  - exists sm1, cnt. repeat split; assumption.
  - rewrite Hs. eexists; exists cnt. split; [reflexivity|]. repeat split; assumption.
Qed.

Lemma carries_visible s sm m t :
  carries s sm m t -> carries (ensureThinkingVisible s) sm m t.
Proof.
  intros H. pose proof (carries_ensure _ _ _ _ H) as K.
  destruct H as (sm0 & _ & Hs0 & _).
  unfold ensureThinkingVisible. rewrite Hs0. exact K.
Qed.

Lemma thinking_buffer r s : streamBuffer (setThinkingStatus r s) = streamBuffer s.
Proof.
  unfold setThinkingStatus. destruct (streamingMsg s); [|reflexivity].
  destruct (blank r); [apply ensure_buffer|].
  destruct (streamingMsg (ensureStreamingBind s)); simpl; apply ensure_buffer.
Qed.

Lemma visible_buffer s : streamBuffer (ensureThinkingVisible s) = streamBuffer s.
Proof.
  unfold ensureThinkingVisible. destruct (streamingMsg s); [apply ensure_buffer|reflexivity].
Qed.

Lemma carries_announce r s sm m t :
  carries s sm m t ->
  carries (ensureThinkingVisible (setThinkingStatus r s)) sm m t /\
  streamBuffer (ensureThinkingVisible (setThinkingStatus r s)) = streamBuffer s.
Proof.
  intros H. split.
  - apply carries_visible, carries_thinking, H.
  - rewrite visible_buffer. apply thinking_buffer.
Qed.

(** A reply is written into the answer and the session finalized as a
    success. *)
Lemma reply_spliced (x : Send) sm m t (reply : jstr) (arts : list JValue) :
  carries (sess x) sm m t ->
  convId sm = sendConv x -> msgId sm = sendMsg x ->
  let s' := finalizeStreaming (mkFinalizeArgs true None (Some arts))
              (set_conversations
                 (update_msg (sendConv x) (sendMsg x) (set_content reply)
                    (conversations (sess x))) (sess x)) in
  streamingMsg s' = None /\
  log s' = log (sess x) ++ [Finalized FinalOk; Persist; AutoTitle (convId sm)] /\
  content_of s' (convId sm) (msgId sm) = Some (reply ++ streamBuffer (sess x)).
Proof.
  intros (sm1 & cnt & Hs & Hc & Hm & Hf & Ht) Ec Em s'.
  assert (H1 : carries (set_conversations
                          (update_msg (sendConv x) (sendMsg x) (set_content reply)
                             (conversations (sess x))) (sess x))
                       sm m (reply ++ streamBuffer (sess x))).
  { exists sm1, reply. simpl. repeat split; try assumption.
    rewrite <- Ec, <- Em, find_msg_update by reflexivity. rewrite Hf. reflexivity. }
  destruct (finalize_result (mkFinalizeArgs true None (Some arts)) _ _ _ _ H1)
    as (Hd & Hl & Hr).
  fold s' in Hd, Hl, Hr. unfold content_of. rewrite Hd, Hl, Hr.
  unfold final_message. simpl. destruct arts; auto.
Qed.





Lemma trimStart_nil (s : jstr) : trimStart s = [] <-> Forall (fun c => is_ws c = true) s.
Proof.
  induction s as [|c r IH]; simpl.
  - split; auto.
  - destruct (is_ws c) eqn:E.
    + rewrite IH. split; intros H; [constructor; assumption | inversion H; assumption].
    + split; [discriminate|]. intros H. inversion H. congruence.
Qed.

Lemma blank_spec (t : jstr) : blank t = true <-> Forall (fun c => is_ws c = true) t.
Proof.
  unfold blank. rewrite eqs_true. unfold trim, trimEnd.
  split.
  - intros H. apply (f_equal (@rev N)) in H. rewrite rev_involutive in H. simpl in H.
    apply trimStart_nil in H. apply Forall_rev in H. rewrite rev_involutive in H.
    destruct (trimStart_split t) as (w & E & Hw).
    rewrite E. apply Forall_app. split; assumption.
  - intros H. apply trimStart_nil in H. rewrite H. reflexivity.
Qed.

Lemma blank_app (a b : jstr) : blank a = false -> blank (a ++ b) = false.
Proof.
  intros H. destruct (blank (a ++ b)) eqn:E; [|reflexivity].
  apply blank_spec in E. apply Forall_app in E. destruct E as [E _].
  apply blank_spec in E. congruence.
Qed.

Lemma trimStart_last (l : jstr) (c : N) :
  is_ws c = false -> exists l', trimStart (l ++ [c]) = l' ++ [c].
Proof.
  intros H. induction l as [|d r IH]; simpl.
  - rewrite H. exists []. reflexivity.
  - destruct (is_ws d); [exact IH|]. exists (d :: r). reflexivity.
Qed.

Lemma trim_head (c : N) (r : jstr) :
  is_ws c = false -> exists r', trim (c :: r) = c :: r'.
Proof.
  intros H. unfold trim. rewrite (trimStart_head c r H).
  unfold trimEnd.
  destruct r as [|d r0] using rev_ind.
  - simpl. rewrite H. exists []. reflexivity.
  - clear IHr0.
    assert (E : rev (c :: r0 ++ [d]) = d :: rev (c :: r0)).
    { change (c :: r0 ++ [d]) with ((c :: r0) ++ [d]). rewrite rev_app_distr. reflexivity. }
    rewrite E. clear E. change (rev (c :: r0)) with (rev r0 ++ [c]).
    destruct (trimStart_last (rev r0) c H) as (l' & E).
    assert (K : exists l2, trimStart (d :: rev r0 ++ [c]) = l2 ++ [c]).
    { simpl. destruct (is_ws d); [exact (ex_intro _ l' E)|].
      exists (d :: rev r0). reflexivity. }
    destruct K as (l2 & K). rewrite K, rev_app_distr. simpl. eauto.
Qed.

Lemma status_text_shown (c : N) (p : jstr) (status : N) (t : jstr) :
  is_ws c = false ->
  error_text (Some (JStr (status_text (c :: p) status t))) = status_text (c :: p) status t.
Proof.
  intros H. unfold status_text.
  destruct (trim_head c (p ++ dec status ++ js ". " ++ slice_to 240 t) H) as (r' & E).
  change ((c :: p) ++ dec status ++ js ". " ++ slice_to 240 t)
    with (c :: p ++ dec status ++ js ". " ++ slice_to 240 t).
  rewrite E. reflexivity.
Qed.

Lemma refused_text_shown (st : N) (t : jstr) :
  error_text (Some (JStr (status_text (js "Servidor retornou ") st t)))
  = status_text (js "Servidor retornou ") st t.
Proof.
  assert (L : exists p, js "Servidor retornou " = 83%N :: p)
    by (eexists; vm_compute; reflexivity).
  destruct L as (p & L). rewrite L. apply status_text_shown. reflexivity.
Qed.

(** X6.  A send with streaming switched off, on a live session bound to
    its answer.  The slow hint timer is started, a toast says that the
    attached files are not sent if there are any, the one request is made,
    the hint is shown if the request is slow, and the timer is cleared once
    the request is answered.  A response that brings a reply makes the
    reply, trimmed, the text of the answer (followed by what the delta
    buffer held), and the session is finalized as a success.  A response
    without a reply finalizes it as failed, the answer showing the status
    and the start of the body when the response is not [ok], and that the
    reply was empty when it is.  When the request throws, the exception is
    passed on with the session still live and the timer still set. *)
Theorem single_reply_send
    (env : SendEnv) (x : Send) (sm : StreamingMsg) (m : Message) :
  streamingMsg (sess x) = Some sm ->
  convId sm = sendConv x -> msgId sm = sendMsg x ->
  find_msg (conversations (sess x)) (convId sm) (msgId sm) = Some m ->
  let asked :=
    [SetTimeout SLOW_HINT_MS] ++ (if hasFiles env then [Toast no_files_text] else [])
    ++ [Fetch "/chat"] ++ (if chat_slow env then [Toast slow_hint_text] else []) in
  (forall reply, answer (chat env) = Some reply ->
     snd (send_once env x) = None /\
     streamingMsg (sess (fst (send_once env x))) = None /\
     content_of (sess (fst (send_once env x))) (convId sm) (msgId sm)
       = Some (reply ++ streamBuffer (sess x)) /\
     log (sess (fst (send_once env x)))
       = log (sess x) ++ asked
         ++ [ClearTimeout; Finalized FinalOk; Persist; AutoTitle (convId sm)]) /\
  (forall o st t d, chat env = PostResponse o st t d -> answer (chat env) = None ->
     let shown := if o then js "Resposta vazia do servidor."
                  else status_text (js "Servidor retornou ") st t in
     snd (send_once env x) = None /\
     streamingMsg (sess (fst (send_once env x))) = None /\
     content_of (sess (fst (send_once env x))) (convId sm) (msgId sm) = Some shown /\
     log (sess (fst (send_once env x)))
       = log (sess x) ++ asked ++ [ClearTimeout; Finalized (FinalError shown); Persist]) /\
  (forall e, chat env = PostThrows e ->
     snd (send_once env x) = Some (OtherError e) /\
     (exists sm', streamingMsg (sess (fst (send_once env x))) = Some sm') /\
     content_of (sess (fst (send_once env x))) (convId sm) (msgId sm) = Some (content m) /\
     log (sess (fst (send_once env x))) = log (sess x) ++ asked).
Proof.
  intros Hs Ec Em Hf asked.
  pose proof (carries_start _ _ _ Hs Hf) as H0.
  set (x0 := on_sess (effect (SetTimeout SLOW_HINT_MS)) x).
  set (xf := if hasFiles env then on_sess (effect (Toast no_files_text)) x0 else x0).
  assert (Hxf : carries (sess xf) sm m (content m ++ streamBuffer (sess x)) /\
                streamBuffer (sess xf) = streamBuffer (sess x) /\
                log (sess xf) = log (sess x) ++ [SetTimeout SLOW_HINT_MS]
                                ++ (if hasFiles env then [Toast no_files_text] else [])).
  { unfold xf. destruct (hasFiles env).
    - split; [apply carries_effect, carries_effect, H0|].
      split; [reflexivity|]. simpl. rewrite <- app_assoc. reflexivity.
    - split; [apply carries_effect, H0|].
      split; [reflexivity|]. simpl. reflexivity. }
  destruct Hxf as (Cf & Bf & Lf).
  destruct (carries_announce (js "Gerando…") _ _ _ _ Cf) as [H1 Hb1].
  set (x1 := on_sess (fun s => ensureThinkingVisible (setThinkingStatus (js "Gerando…") s)) xf)
    in *.
  set (xr := on_sess (effect (Fetch "/chat")) x1).
  set (xs := if chat_slow env then on_sess (effect (Toast slow_hint_text)) xr else xr).
  assert (Hxs : carries (sess xs) sm m (content m ++ streamBuffer (sess x)) /\
                streamBuffer (sess xs) = streamBuffer (sess x) /\
                log (sess xs) = log (sess x) ++ asked /\
                sendConv xs = sendConv x /\ sendMsg xs = sendMsg x).
  { assert (Lr : log (sess xr) = log (sess x) ++ [SetTimeout SLOW_HINT_MS]
                   ++ (if hasFiles env then [Toast no_files_text] else [])
                   ++ [Fetch "/chat"]).
    { unfold xr, x1. simpl. rewrite announce_log, Lf, <- !app_assoc. reflexivity. }
    assert (Ir : sendConv xr = sendConv x /\ sendMsg xr = sendMsg x).
    { unfold xr, x1, xf, x0. destruct (hasFiles env); auto. }
    unfold xs, asked. destruct (chat_slow env).
    - split; [apply carries_effect, carries_effect, H1|].
      split; [simpl; rewrite Hb1; exact Bf|].
      split; [simpl; rewrite announce_log, Lf, <- !app_assoc; reflexivity | exact Ir].
    - split; [apply carries_effect, H1|].
      split; [simpl; rewrite Hb1; exact Bf|].
      split; [rewrite Lr, app_nil_r; reflexivity | exact Ir]. }
  destruct Hxs as (Cs & Bs & Ls & Ics & Ims).
  set (x2 := on_sess (effect ClearTimeout) xs).
  assert (H2 : carries (sess x2) sm m (content m ++ streamBuffer (sess x)))
    by (apply carries_effect; exact Cs).
  assert (Hl2 : log (sess x2) = log (sess x) ++ asked ++ [ClearTimeout]).
  { unfold x2. simpl. rewrite Ls, <- app_assoc. reflexivity. }
  assert (Hb2 : streamBuffer (sess x2) = streamBuffer (sess x)) by exact Bs.
  assert (Ec2 : convId sm = sendConv x2) by (rewrite Ec; symmetry; exact Ics).
  assert (Em2 : msgId sm = sendMsg x2) by (rewrite Em; symmetry; exact Ims).
  assert (Eo : send_once env x
               = match chat env with
                 | PostThrows m0 => (xs, Some (OtherError m0))
                 | PostResponse o st t d =>
                     if negb o then
                       (on_sess (finalizeStreaming
                                   (finalize_error
                                      (status_text (js "Servidor retornou ") st t))) x2, None)
                     else if eqs (trim (String_or (get (js "reply") d))) [] then
                       (on_sess (finalizeStreaming
                                   (finalize_error (js "Resposta vazia do servidor."))) x2,
                        None)
                     else
                       (on_sess (fun s =>
                          finalizeStreaming
                            (mkFinalizeArgs true None
                               (Some match get (js "artifacts") d with
                                     | Some (JArr l) => l
                                     | _ => []
                                     end))
                            (set_conversations
                               (update_msg (sendConv x) (sendMsg x)
                                  (set_content (trim (String_or (get (js "reply") d))))
                                  (conversations s)) s)) x2, None)
                 end) by reflexivity.
  rewrite Eo. clear Eo.
  split; [|split].
  - intros reply Ha. unfold answer in Ha.
    destruct (chat env) as [m0|o st t d]; [discriminate|].
    destruct o; [|discriminate]. simpl negb. cbv iota.
    destruct (eqs (trim (String_or (get (js "reply") d))) []) eqn:Er; [discriminate|].
    injection Ha as Ha.
    destruct (reply_spliced x2 sm m _ (trim (String_or (get (js "reply") d)))
                (match get (js "artifacts") d with Some (JArr l0) => l0 | _ => [] end)
                H2 Ec2 Em2) as (Kd & Kl & Kc).
    cbn [fst snd]. unfold on_sess at 1 2 3. cbn [sess].
    replace (sendConv x) with (sendConv x2) by (exact Ics).
    replace (sendMsg x) with (sendMsg x2) by (exact Ims).
    rewrite Kd, Kl, Kc, Ha, Hb2, Hl2, <- !app_assoc. auto.
  - intros o st t d Hc Ha shown. unfold answer in Ha. rewrite Hc in *.
    destruct o; simpl negb; cbv iota.
    + destruct (eqs (trim (String_or (get (js "reply") d))) []) eqn:Er; [|discriminate].
      destruct (finalize_result (finalize_error (js "Resposta vazia do servidor.")) _ _ _ _ H2)
        as (Kd & Kl & Kc).
      cbn [fst snd]. unfold on_sess at 1 2 3. cbn [sess]. unfold content_of.
      rewrite Kd, Kl, Kc, Hl2, <- !app_assoc.
      unfold final_message. simpl ok. simpl arg_artifacts. simpl errorMessage. cbv iota.
      assert (E : error_text (Some (JStr (js "Resposta vazia do servidor.")))
                  = js "Resposta vazia do servidor.") by (vm_compute; reflexivity).
      rewrite E. unfold shown. destruct (collected (sess x2)); auto.
    + destruct (finalize_result
                  (finalize_error (status_text (js "Servidor retornou ") st t)) _ _ _ _ H2)
        as (Kd & Kl & Kc).
      cbn [fst snd]. unfold on_sess at 1 2 3. cbn [sess]. unfold content_of.
      rewrite Kd, Kl, Kc, Hl2, <- !app_assoc.
      unfold final_message. simpl ok. simpl arg_artifacts. simpl errorMessage. cbv iota.
      rewrite refused_text_shown. unfold shown.
      destruct (collected (sess x2)); auto.
  - intros e Hc. rewrite Hc. cbn [fst snd].
    split; [reflexivity|].
    destruct Cs as (sm' & cnt & S1 & _ & _ & S4 & S5).
    split; [exists sm'; exact S1|].
    split; [|exact Ls].
    unfold content_of. rewrite S4. simpl. f_equal.
    rewrite Bs in S5. apply app_inv_tail in S5. exact S5.
Qed.

(** X7.  When the event stream ends without a terminal event, no fallback
    having been started and no empty [done] status seen, a session still
    live on the answer is finalized at once.  If the answer already holds
    text that is not white space, it is finalized as interrupted and keeps
    that text and what is in the delta buffer; otherwise it is finalized as
    failed and shows the notice, whatever the delta buffer holds. *)
Theorem stream_end_without_terminal_event
    (env : SendEnv) (x : Send) (sm : StreamingMsg) (m : Message) :
  watchdogFallback x = false -> emptyStreamDone x = false ->
  streamingMsg (sess x) = Some sm ->
  convId sm = sendConv x -> msgId sm = sendMsg x ->
  find_msg (conversations (sess x)) (convId sm) (msgId sm) = Some m ->
  let y := after_stream env x in
  let notice := js "Stream finalizou sem resposta (possível reload do backend)." in
  streamingMsg (sess y) = None /\
  (blank (content m) = false ->
     content_of (sess y) (convId sm) (msgId sm)
       = Some (content m ++ streamBuffer (sess x)) /\
     option_map interrupted (find_msg (conversations (sess y)) (convId sm) (msgId sm))
       = Some true /\
     log (sess y)
       = log (sess x) ++ [Finalized FinalInterrupted; Persist;
                          Toast (js "Resposta interrompida (possível reload do backend).")]) /\
  (blank (content m) = true ->
     content_of (sess y) (convId sm) (msgId sm) = Some notice /\
     log (sess y) = log (sess x) ++ [Finalized (FinalError notice); Persist]).
Proof.
  intros Hw He Hs Ec Em Hf y notice.
  pose proof (carries_start _ _ _ Hs Hf) as H0.
  assert (Ey : y = if negb (blank (content m))
                   then on_sess (fun s =>
                          effect (Toast (js "Resposta interrompida (possível reload do backend)."))
                                 (finalizeStreamingInterrupted s)) x
                   else on_sess (finalizeStreaming (finalize_error notice)) x).
  { unfold y, after_stream. rewrite Hw, He, Hs, Ec, String.eqb_refl.
    rewrite <- Ec, <- Em, Hf. reflexivity. }
  destruct (interrupt_result _ _ _ _ H0) as (Id & Il & Im).
  destruct (finalize_result (finalize_error notice) _ _ _ _ H0) as (Fd & Fl & Fm).
  split; [|split].
  - rewrite Ey. destruct (blank (content m)); simpl; assumption.
  - intros Hb. rewrite Ey, Hb. simpl. unfold content_of, effect.
    cbn [conversations log]. rewrite Im, Il.
    unfold interrupted_message. rewrite (blank_app _ _ Hb), <- app_assoc. auto.
  - intros Hb. rewrite Ey, Hb. cbn [negb on_sess sess]. unfold content_of. rewrite Fm, Fl.
    unfold final_message, finalize_error. cbn [ok arg_artifacts errorMessage].
    assert (E : error_text (Some (JStr notice)) = notice) by (vm_compute; reflexivity).
    rewrite E. destruct (collected (sess x)); split; reflexivity.
Qed.

(** The read loop for a body of plain text, without interruptions. *)
Lemma read_text_chunks (cs : list (list byte)) : forall d (x : Send) sm m t,
  carries (sess x) sm m t ->
  signalAborted x = false ->
  let r := read_text d (map Chunk cs) EndOfStream x in
  let d' := fst (Utf8.decode d (List.concat cs)) in
  let all := t ++ snd (Utf8.decode d (List.concat cs)) ++ decoder_tail d' in
  snd r = None /\
  streamingMsg (sess (fst r)) = None /\
  content_of (sess (fst r)) (convId sm) (msgId sm) = Some all /\
  log (sess (fst r)) = log (sess x) ++ [Finalized FinalOk; Persist; AutoTitle (convId sm)].
Proof.
  induction cs as [|c r IH]; intros d x sm m t H Ha.
  - cbn [map List.concat read_text]. rewrite Ha. cbn [Utf8.decode fst snd].
    change (if (Utf8.bytes_needed d =? 0)%N then []
            else snd (Utf8.serialize (Utf8.bom_seen d) [65533%N]))
      with (decoder_tail d).
    set (x1 := match decoder_tail d with
               | [] => x
               | _ :: _ => on_sess (streamAppend (decoder_tail d)) x
               end).
    assert (H1 : carries (sess x1) sm m (t ++ decoder_tail d)).
    { unfold x1. destruct (decoder_tail d) eqn:E.
      - rewrite app_nil_r. exact H.
      - simpl. apply carries_append. exact H. }
    assert (Hl : log (sess x1) = log (sess x)).
    { unfold x1. destruct (decoder_tail d); [reflexivity|]. simpl. apply append_log. }
    destruct (finalize_result finalize_ok _ _ _ _ H1) as (Kd & Kl & Kc).
    change (sess (on_sess (finalizeStreaming finalize_ok) x1))
      with (finalizeStreaming finalize_ok (sess x1)).
    unfold content_of. rewrite Kd, Kl, Kc, Hl. unfold final_message.
    cbn [ok arg_artifacts finalize_ok app].
    repeat split.
    destruct (collected _); reflexivity.
  - simpl map. simpl List.concat. cbn [read_text]. rewrite Ha.
    rewrite decode_app. cbn [fst snd].
    destruct (Utf8.decode d c) as [d1 chunk] eqn:Ed. cbn [fst snd].
    set (x1 := match chunk with [] => x | _ :: _ => on_sess (streamAppend chunk) x end).
    assert (H1 : carries (sess x1) sm m (t ++ chunk)).
    { unfold x1. destruct chunk.
      - rewrite app_nil_r. exact H.
      - simpl. apply carries_append. exact H. }
    assert (Ha1 : signalAborted x1 = false) by (unfold x1; destruct chunk; exact Ha).
    assert (Hl1 : log (sess x1) = log (sess x)).
    { unfold x1. destruct chunk; [reflexivity|]. simpl. apply append_log. }
    destruct (IH d1 x1 sm m _ H1 Ha1) as (K1 & K2 & K3 & K4).
    rewrite K1, K2, K3, K4, Hl1, <- !app_assoc. auto.
Qed.

(** X8.  A response that is not an event stream is read as plain text: when
    its chunks have been read without interruption and the body has ended,
    the answer holds its earlier text, what was buffered, and the UTF-8
    decoding of the whole body, however the body was cut into chunks; the
    session is finalized as a success. *)
Theorem plain_text_body_is_the_answer
    (cs : list (list byte)) (x : Send) (sm : StreamingMsg) (m : Message) :
  streamingMsg (sess x) = Some sm ->
  find_msg (conversations (sess x)) (convId sm) (msgId sm) = Some m ->
  signalAborted x = false ->
  let r := read_text Utf8.fresh (map Chunk cs) EndOfStream x in
  snd r = None /\
  streamingMsg (sess (fst r)) = None /\
  content_of (sess (fst r)) (convId sm) (msgId sm)
    = Some (content m ++ streamBuffer (sess x) ++ Utf8.decode_all (List.concat cs)) /\
  log (sess (fst r)) = log (sess x) ++ [Finalized FinalOk; Persist; AutoTitle (convId sm)].
Proof.
  intros Hs Hf Ha r.
  destruct (read_text_chunks cs Utf8.fresh x sm m _ (carries_start _ _ _ Hs Hf) Ha)
    as (K1 & K2 & K3 & K4).
  fold r in K1, K2, K3, K4. rewrite K1, K2, K3, K4.
  repeat split. f_equal. rewrite <- app_assoc. do 2 f_equal.
  unfold Utf8.decode_all, decoder_tail.
  destruct (Utf8.decode Utf8.fresh (List.concat cs)) as [d out]. simpl.
  destruct (Utf8.bytes_needed d =? 0)%N; [rewrite app_nil_r|]; reflexivity.
Qed.

(** X9.  Whatever a send meets, it leaves the client idle when it found it
    idle: [isGenerating] and [sendInFlight] are down again, no controller
    is held and no watchdog timer is set. *)
Theorem sendMessage_returns_to_idle (env : SendEnv) (x : Send) :
  idle x -> idle (sendMessage env x).
Proof.
  intros (Hg & Hi & Hc & Hw). unfold sendMessage. rewrite Hg, Hi.
  destruct (eqs (text env) [] && negb (hasFiles env)).
  - repeat split; assumption.
  - destruct (negb (contentFound env)).
    + repeat split; assumption.
    + destruct (send_try env (arm env (push env x))) as [x5 thrown].
      unfold send_finally.
      destruct (match thrown with Some e => send_catch env e x5 | None => x5 end) as
        [s c mm g f k a w p wf es].
      destruct w; repeat split; reflexivity.
Qed.


(* ===================================================================== *)
(** ** More on the frame parser *)
(* ===================================================================== *)

Lemma open_not_close (c : N) : is_open c = true -> is_close c = false.
Proof.
  unfold is_open, is_close. intros H. apply orb_prop in H.
  destruct H as [H|H]; apply N.eqb_eq in H; subst c; reflexivity.
Qed.

Lemma scanJson_split (s : jstr) : forall depth inString esc seen j r,
  (0 < depth)%Z \/
  (depth = 0%Z /\ inString = false /\ exists o s', s = o :: s' /\ is_open o = true) ->
  scanJson s depth inString esc seen = Some (j, r) ->
  exists body c,
    j = rev seen ++ body ++ [c] /\ body ++ c :: r = s /\ is_close c = true.
Proof.
  induction s as [|ch s IH]; intros depth inString esc seen j r Inv H; simpl in H.
  - discriminate.
  - assert (Step : forall d i e,
              (0 < d)%Z ->
              scanJson s d i e (ch :: seen) = Some (j, r) ->
              exists body c,
                j = rev seen ++ body ++ [c] /\ body ++ c :: r = ch :: s /\
                is_close c = true).
    { intros d i e Hd K.
      destruct (IH d i e (ch :: seen) j r (or_introl Hd) K) as (body & c & Ej & Es & Hc).
      exists (ch :: body), c. simpl rev in Ej. rewrite <- app_assoc in Ej.
      split; [exact Ej|]. split; [|exact Hc]. simpl. rewrite Es. reflexivity. }
    destruct inString.
    + destruct Inv as [Hd|(_ & Hi & _)]; [|discriminate].
      destruct esc; [apply (Step _ _ _ Hd H)|].
      destruct (ch =? 92)%N; [apply (Step _ _ _ Hd H)|].
      destruct (ch =? 34)%N; apply (Step _ _ _ Hd H).
    + destruct (ch =? 34)%N eqn:Eq.
      * destruct Inv as [Hd|(_ & _ & o & s' & Es & Ho)]; [apply (Step _ _ _ Hd H)|].
        injection Es as <- <-. apply N.eqb_eq in Eq. subst ch. discriminate.
      * destruct (is_open ch) eqn:Eo; destruct (is_close ch) eqn:Ec.
        -- rewrite (open_not_close _ Eo) in Ec. discriminate.
        -- destruct Inv as [Hd|(Hd & _)].
           ++ destruct (depth + 1 =? 0)%Z eqn:Ez; [apply Z.eqb_eq in Ez; lia|].
              apply (Step (depth + 1)%Z false esc); [lia|exact H].
           ++ subst depth. simpl in H. apply (Step 1%Z false esc); [lia|exact H].
        -- destruct Inv as [Hd|(_ & _ & o & s' & Es & Ho)];
             [|injection Es as <- <-; congruence].
           destruct (depth - 1 =? 0)%Z eqn:Ez.
           ++ injection H as <- <-. exists [], ch. simpl rev. auto.
           ++ apply (Step (depth - 1)%Z false esc); [|exact H].
              apply Z.eqb_neq in Ez. lia.
        -- destruct Inv as [Hd|(_ & _ & o & s' & Es & Ho)];
             [|injection Es as <- <-; congruence].
           destruct (depth =? 0)%Z eqn:Ez; [apply Z.eqb_eq in Ez; lia|].
           apply (Step depth false esc Hd H).
Qed.

(** X10.  When [splitLeadingJson] finds a prefix, nothing is lost and
    nothing is added: the prefix followed by the rest is the text without
    its leading white space; the prefix begins with an opening bracket or
    brace and ends with a closing one. *)
Theorem splitLeadingJson_partitions_the_text (text jsonText rest : jstr) :
  splitLeadingJson text = Some (jsonText, rest) ->
  jsonText ++ rest = trimStart text /\
  exists o body c,
    jsonText = o :: body ++ [c] /\ is_open o = true /\ is_close c = true.
Proof.
  unfold splitLeadingJson. intros H.
  destruct (trimStart text) as [|first t] eqn:Et; [discriminate|].
  destruct (is_open first) eqn:Eo; [|discriminate].
  destruct (scanJson_split (first :: t) 0 false false [] jsonText rest)
    as (body & c & Ej & Es & Hc).
  - right. repeat split. exists first, t. auto.
  - exact H.
  - simpl in Ej. subst jsonText. split.
    + rewrite <- app_assoc. exact Es.
    + destruct body as [|o body'].
      * simpl in Es. injection Es as -> _.
        rewrite (open_not_close _ Eo) in Hc. discriminate.
      * simpl in Es. injection Es as -> _.
        exists first, body', c. auto.
Qed.

Lemma lines_of_plain (t : jstr) : forall f cur out,
  no_nl t -> lines_of f cur t out = (f, cur ++ t, out).
Proof.
  unfold no_nl. induction t as [|c r IH]; intros f cur out H; simpl.
  - rewrite app_nil_r. reflexivity.
  - simpl in H. destruct (c =? 10)%N; [discriminate|].
    rewrite IH.
    + rewrite <- app_assoc. reflexivity.
    + destruct (indexOf 10%N r); [discriminate|reflexivity].
Qed.

Lemma on_line_chomp (f : Frame) (l : jstr) :
  (if endsWith [13%N] l then slice_to (List.length l - 1) l else l) = chomp l.
Proof.
  unfold chomp. destruct l as [|c q] using rev_ind; [reflexivity|].
  rewrite endsWith_snoc. destruct (13 =? c)%N; [|reflexivity].
  rewrite removelast_last.
  replace (List.length (q ++ [c]) - 1) with (List.length q)
    by (rewrite length_app; simpl; lia).
  apply slice_to_app.
Qed.

Lemma on_line_ignored (f : Frame) (l : jstr) :
  ignored_line l = true -> on_line f l = (f, []).
Proof.
  unfold ignored_line, on_line. rewrite (on_line_chomp f l). intros H.
  apply andb_prop in H. destruct H as [H H3].
  apply andb_prop in H. destruct H as [H1 H2].
  apply negb_true_iff in H1, H2, H3. rewrite H1, H2, H3. reflexivity.
Qed.

Lemma decode_line_feed_bom (d : Utf8.Decoder) :
  good d -> Utf8.bom_seen (fst (Utf8.decode d [x0a])) = true.
Proof.
  intros H. unfold good in H. simpl. unfold Utf8.step_units, Utf8.step.
  change (Byte.to_N x0a) with 10%N.
  destruct (Utf8.bytes_needed d =? 0)%N eqn:E.
  - simpl. destruct (Utf8.bom_seen d); reflexivity.
  - replace ((Utf8.lower_boundary d <=? 10) && (10 <=? Utf8.upper_boundary d))%N
      with false
      by (symmetry; apply andb_false_iff; left; apply N.leb_gt; lia).
    simpl. destruct (Utf8.bom_seen d); reflexivity.
Qed.

Lemma good_fresh : good Utf8.fresh.
Proof. unfold good. simpl. lia. Qed.

Lemma settled_parser0 : settled parser0.
Proof. reflexivity. Qed.

(** The parser after a stream that ends with a line feed. *)
Lemma feed_line_feed_state (bytes : list byte) :
  let p := fst (feed parser0 (bytes ++ [x0a])) in
  settled p /\ buf p = [] /\
  Utf8.bytes_needed (decoder p) = 0%N /\ Utf8.bom_seen (decoder p) = true.
Proof.
  intros p.
  destruct (feed_line_feed parser0 bytes settled_parser0 good_fresh) as [Hb Hn].
  fold p in Hb, Hn.
  split; [apply feed_settled, settled_parser0|].
  split; [exact Hb|]. split; [exact Hn|].
  unfold p. rewrite feed_lines_of by apply settled_parser0. cbn [fst decoder].
  rewrite decode_app. cbn [fst].
  apply decode_line_feed_bom, decode_good, good_fresh.
Qed.

(* ===================================================================== *)
(** ** Requests and the backend base *)
(* ===================================================================== *)

Lemma retry_loop_spec {R : Type} (outcome : nat -> Try R) (retries : nat) :
  forall left attempt lastErr,
    attempt + left = S retries -> 1 <= left ->
    let res := fst (retry_loop outcome retries attempt left lastErr) in
    let n := snd (retry_loop outcome retries attempt left lastErr) in
    attempt < n <= S retries /\
    (forall i, attempt <= i -> i < n - 1 -> retried (outcome i) = true) /\
    res = passed_on (outcome (n - 1)) /\
    (n <= retries -> retried (outcome (n - 1)) = false).
Proof.
  induction left as [|left IH]; intros attempt lastErr Hs Hl; [lia|].
  simpl retry_loop.
  destruct (outcome attempt) as [r|e aborted] eqn:Eo.
  - simpl. rewrite Nat.sub_0_r, Eo. repeat split; try lia; auto; try (intros; lia).
  - destruct (aborted || is_abort e) eqn:Ea.
    + simpl. rewrite Nat.sub_0_r, Eo. simpl. rewrite Ea.
      repeat split; try lia; auto; try (intros; lia).
    + destruct (retries <=? attempt) eqn:Er.
      * simpl. rewrite Nat.sub_0_r, Eo. apply Nat.leb_le in Er.
        repeat split; try lia; auto; try (intros; lia).
      * apply Nat.leb_gt in Er.
        destruct (IH (S attempt) (Some e)) as (H1 & H2 & H3 & H4); [lia|lia|].
        repeat split; try lia; auto.
        intros i Hi Hn. destruct (Nat.eq_dec i attempt) as [->|Hne].
        -- rewrite Eo. simpl. rewrite Ea. reflexivity.
        -- apply H2; lia.
Qed.

(** X12.  [fetchWithRetry] makes at least one and at most [retries + 1]
    calls of [fetch]; every call but the last threw an exception that was
    no abort; it returns the response or throws the exception of its last
    call (never an error of its own); and when it stops before
    [retries + 1] calls, its last call was answered or aborted: an abort is
    never followed by another attempt. *)
Theorem fetchWithRetry_stops_at_the_first_answer
    {R : Type} (outcome : nat -> Try R) (retries : nat) :
  let res := fst (fetchWithRetry outcome retries) in
  let n := snd (fetchWithRetry outcome retries) in
  1 <= n <= S retries /\
  (forall i, i < n - 1 -> retried (outcome i) = true) /\
  res = passed_on (outcome (n - 1)) /\
  (n <= retries -> retried (outcome (n - 1)) = false).
Proof.
  unfold fetchWithRetry.
  destruct (retry_loop_spec outcome retries (S retries) 0 None) as (H1 & H2 & H3 & H4);
    [reflexivity | lia |].
  repeat split; try lia; auto.
  intros i Hi. apply H2; lia.
Qed.

Lemma ip_facts :
  eqs (js "http://127.0.0.1:8000") [] = false /\
  eqs (js "http://127.0.0.1:8000") (js "http://localhost:8000") = false.
Proof. split; vm_compute; reflexivity. Qed.

Lemma candidates_shape (b : Backend) :
  let l := getAlternateBackendBases b in
  let ip := js "http://127.0.0.1:8000" in
  NoDup l /\
  (l = [ip] \/ l = [trim (BACKEND_BASE b); ip]) /\
  ~ In [] l /\
  ~ In (js "http://localhost:8000") l.
Proof.
  intros l ip. unfold l, ip, getAlternateBackendBases. clear l ip. cbv zeta.
  destruct ip_facts as [Hn Hl].
  remember (js "http://127.0.0.1:8000") as ip eqn:Eip.
  remember (js "http://localhost:8000") as lh eqn:Elh. clear Eip Elh.
  apply eqs_false in Hn, Hl.
  assert (One : NoDup [ip] /\ ([ip] = [ip] \/ [ip] = [trim (BACKEND_BASE b); ip]) /\
                ~ In [] [ip] /\ ~ In lh [ip]).
  { repeat split; auto.
    - constructor; [intros []|constructor].
    - intros [H|[]]; congruence.
    - intros [H|[]]; congruence. }
  destruct (eqs (trim (BACKEND_BASE b)) lh) eqn:E1.
  - destruct (eqs ip []) eqn:E2; [apply eqs_true in E2; congruence|].
    simpl existsb. rewrite eqs_refl. exact One.
  - apply eqs_false in E1.
    destruct (eqs (trim (BACKEND_BASE b)) []) eqn:E2.
    + exact One.
    + apply eqs_false in E2. simpl existsb.
      destruct (eqs ip (trim (BACKEND_BASE b))) eqn:E3.
      * apply eqs_true in E3. rewrite <- E3. simpl.
        destruct One as (O1 & O2 & O3 & O4). repeat split; auto.
      * apply eqs_false in E3. simpl app. repeat split; auto.
        -- constructor; [intros [H|[]]; congruence|].
           constructor; [intros []|constructor].
        -- intros [H|[H|[]]]; congruence.
        -- intros [H|[H|[]]]; congruence.
Qed.

(** X13.  The candidates for the backend base are one or two, without
    repetition; the last one is always [http://127.0.0.1:8000]; each is
    that address or the current base, trimmed; none is empty and none is
    [http://localhost:8000], which is replaced by the address. *)
Theorem backend_candidates_end_with_the_loopback_address (b : Backend) :
  let l := getAlternateBackendBases b in
  let ip := js "http://127.0.0.1:8000" in
  NoDup l /\
  (l = [ip] \/ l = [trim (BACKEND_BASE b); ip]) /\
  ~ In [] l /\
  ~ In (js "http://localhost:8000") l.
Proof. exact (candidates_shape b). Qed.

Lemma ping_keeps (p : Probe) (b : Backend) :
  BACKEND_BASE (fst (pingBackendHealth p b)) = BACKEND_BASE b /\
  backendOnline (fst (pingBackendHealth p b)) = backendOnline b /\
  storedBase (fst (pingBackendHealth p b)) = storedBase b /\
  (probed (fst (pingBackendHealth p b)) = probed b \/
   probed (fst (pingBackendHealth p b)) = probed b ++ [BACKEND_BASE b]) /\
  healthLastOk (fst (pingBackendHealth p b)) = Some (snd (pingBackendHealth p b)) /\
  toasts (fst (pingBackendHealth p b)) = toasts b.
Proof.
  unfold pingBackendHealth.
  destruct (healthLastOk b) as [lastOk|] eqn:E; [|simpl; auto 7].
  destruct (_ && _ && _); simpl; auto 7.
Qed.

Lemma last_cons_default {A : Type} (l : list A) : forall x d d',
  last (x :: l) d = last (x :: l) d'.
Proof.
  induction l as [|y r IH]; intros x d d'; [reflexivity|].
  change (last (x :: y :: r) d) with (last (y :: r) d).
  change (last (x :: y :: r) d') with (last (y :: r) d'). apply IH.
Qed.

Lemma ensure_loop_spec (probes : nat -> Probe) (writable : bool) (cands : list jstr) :
  forall i b,
    let b' := fst (ensure_loop probes writable i cands b) in
    let ok := snd (ensure_loop probes writable i cands b) in
    BACKEND_BASE b' = (if ok then BACKEND_BASE b' else last cands (BACKEND_BASE b)) /\
    (ok = true -> In (BACKEND_BASE b') cands /\ healthLastOk b' = Some true /\
                  (writable = true -> storedBase b' = Some (BACKEND_BASE b'))) /\
    (ok = false -> storedBase b' = storedBase b /\ toasts b' = toasts b) /\
    backendOnline b' = ok /\
    exists l, probed b' = probed b ++ l /\ incl l cands /\
              List.length l <= List.length cands.
Proof.
  induction cands as [|base rest IH]; intros i b.
  - simpl. repeat split; try discriminate; auto.
    exists []. rewrite app_nil_r. repeat split; auto. intros x [].
  - cbn [ensure_loop].
    destruct (ping_keeps (probes i) (set_BACKEND_BASE base b))
      as (K1 & K2 & K3 & K4 & K5 & K6).
    destruct (pingBackendHealth (probes i) (set_BACKEND_BASE base b)) as [b1 ok1].
    cbn [fst snd] in *. simpl in K1, K2, K3, K4, K6.
    assert (P1 : exists l, probed b1 = probed b ++ l /\ incl l [base] /\ List.length l <= 1).
    { destruct K4 as [K4|K4].
      - exists []. rewrite app_nil_r. repeat split; auto. intros x [].
      - exists [base]. repeat split; auto. apply incl_refl. }
    destruct ok1.
    + assert (Q : forall b3, BACKEND_BASE b3 = base -> healthLastOk b3 = Some true ->
                    (writable = true -> storedBase b3 = Some base) ->
                    backendOnline b3 = true -> probed b3 = probed b1 ->
                    forall b4, (b4 = b3 \/ b4 = toast (js "Backend conectado: " ++ base) b3) ->
                    BACKEND_BASE b4 = BACKEND_BASE b4 /\
                    (true = true -> In (BACKEND_BASE b4) (base :: rest) /\
                       healthLastOk b4 = Some true /\
                       (writable = true -> storedBase b4 = Some (BACKEND_BASE b4))) /\
                    (true = false -> storedBase b4 = storedBase b /\ toasts b4 = toasts b) /\
                    backendOnline b4 = true /\
                    exists l, probed b4 = probed b ++ l /\ incl l (base :: rest) /\
                              List.length l <= List.length (base :: rest)).
      { intros b3 H1 H2 H3 H4 H5 b4 H6.
        assert (E : BACKEND_BASE b4 = base /\ healthLastOk b4 = Some true /\
                    storedBase b4 = storedBase b3 /\ backendOnline b4 = true /\
                    probed b4 = probed b1).
        { destruct H6 as [->| ->]; simpl; auto. }
        destruct E as (E1 & E2 & E3 & E4 & E5).
        split; [reflexivity|]. split; [|split; [discriminate|split; [exact E4|]]].
        - intros _. rewrite E1, E2, E3. repeat split; auto. left. reflexivity.
        - destruct P1 as (l & P1 & P2 & P3). exists l. rewrite E5.
          repeat split; auto.
          + intros x Hx. destruct (P2 x Hx) as [<-|[]]. left. reflexivity.
          + simpl. lia. }
      cbn [fst snd].
      apply (Q (if writable then set_storedBase (Some base) (set_backendOnline true b1)
                else set_backendOnline true b1)).
      * destruct writable; simpl; exact K1.
      * destruct writable; simpl; exact K5.
      * intros ->. reflexivity.
      * destruct writable; reflexivity.
      * destruct writable; reflexivity.
      * destruct (eqs (BACKEND_BASE b) base); auto.
    + specialize (IH (S i) b1). cbn zeta in IH.
      destruct (ensure_loop probes writable (S i) rest b1) as [b' ok].
      cbn [fst snd] in *.
      destruct IH as (I1 & I2 & I3 & I4 & l2 & I5 & I6 & I7).
      split; [|split; [|split; [|split]]].
      * destruct ok; [reflexivity|]. rewrite I1, K1.
        destruct rest as [|j rest']; [reflexivity|].
        change (last (base :: j :: rest') (BACKEND_BASE b))
          with (last (j :: rest') (BACKEND_BASE b)).
        apply last_cons_default.
      * intros Ho. destruct (I2 Ho) as (J1 & J2 & J3).
        repeat split; auto. right. exact J1.
      * intros Ho. destruct (I3 Ho) as (J1 & J2). rewrite J1, J2, K3, K6.
        split; reflexivity.
      * exact I4.
      * destruct P1 as (l1 & P1 & P2 & P3). exists (l1 ++ l2).
        rewrite I5, P1, app_assoc. repeat split.
        -- intros x Hx. apply in_app_or in Hx. destruct Hx as [Hx|Hx].
           ++ destruct (P2 x Hx) as [<-|[]]. left. reflexivity.
           ++ right. apply I6. exact Hx.
        -- rewrite length_app. simpl. lia.
Qed.


(** X14.  [ensureBackendBaseOnline] leaves [BACKEND_BASE] on one of the
    candidates, never on [http://localhost:8000], and [backendOnline] equal
    to what it returns.  When it returns true the last probe of that base
    said so, and the base is stored if the storage takes it.  When it
    returns false the base is left on [http://127.0.0.1:8000], whatever it
    was before, and nothing is stored or announced.  At most two probes are
    requested, of candidates only. *)
Theorem ensureBackendBaseOnline_settles_on_a_candidate
    (probes : nat -> Probe) (writable : bool) (b : Backend) :
  let b' := fst (ensureBackendBaseOnline probes writable b) in
  let ok := snd (ensureBackendBaseOnline probes writable b) in
  backendOnline b' = ok /\
  In (BACKEND_BASE b') (getAlternateBackendBases b) /\
  BACKEND_BASE b' <> js "http://localhost:8000" /\
  (ok = true ->
     healthLastOk b' = Some true /\
     (writable = true -> storedBase b' = Some (BACKEND_BASE b'))) /\
  (ok = false ->
     BACKEND_BASE b' = js "http://127.0.0.1:8000" /\
     storedBase b' = storedBase b /\ toasts b' = toasts b) /\
  exists l, probed b' = probed b ++ l /\ incl l (getAlternateBackendBases b) /\
            List.length l <= 2.
Proof.
  intros b' ok. unfold b', ok, ensureBackendBaseOnline. clear b' ok.
  destruct (candidates_shape b) as (_ & Hs & _ & Hl). cbv zeta in Hs.
  pose proof (ensure_loop_spec probes writable (getAlternateBackendBases b) 0 b) as H.
  cbv zeta in H.
  remember (js "http://127.0.0.1:8000") as ip eqn:Eip.
  remember (js "http://localhost:8000") as lh eqn:Elh. clear Eip Elh.
  remember (getAlternateBackendBases b) as cands eqn:Ec. clear Ec.
  destruct (ensure_loop probes writable 0 cands b) as [b' ok]. cbn [fst snd] in *.
  destruct H as (H1 & H2 & H3 & H4 & l & H5 & H6 & H7).
  assert (Hlast : last cands (BACKEND_BASE b) = ip /\ In ip cands /\ List.length cands <= 2).
  { destruct Hs as [-> | ->]; simpl; auto. }
  destruct Hlast as (L1 & L2 & L3).
  assert (Hin : In (BACKEND_BASE b') cands).
  { destruct ok; [apply H2; reflexivity|]. rewrite H1, L1. exact L2. }
  split; [exact H4|]. split; [exact Hin|]. split; [|split; [|split]].
  - intros E. apply Hl. rewrite <- E. exact Hin.
  - intros ->. destruct (H2 eq_refl) as (_ & J2 & J3). auto.
  - intros ->. destruct (H3 eq_refl) as (J1 & J2). rewrite H1, L1. auto.
  - exists l. repeat split; auto. lia.
Qed.

(** X15.  The reachability probe is throttled: a second call for the same
    base, not empty once trimmed, that begins less than 2500 ms after the
    time recorded by the first makes no request, changes nothing and
    returns what the first returned; one that begins later requests
    [/health] again. *)
Theorem health_probe_is_throttled (p q : Probe) (b : Backend) :
  trim (BACKEND_BASE b) <> [] ->
  let b1 := fst (pingBackendHealth p b) in
  ((probe_now q - healthLastAt b1 < HEALTH_COOLDOWN_MS)%Z ->
     pingBackendHealth q b1 = (b1, snd (pingBackendHealth p b))) /\
  ((HEALTH_COOLDOWN_MS <= probe_now q - healthLastAt b1)%Z ->
     probed (fst (pingBackendHealth q b1)) = probed b1 ++ [BACKEND_BASE b] /\
     snd (pingBackendHealth q b1) = probe_ok q).
Proof.
  intros Hne b1.
  assert (Hb : eqs (trim (BACKEND_BASE b)) [] = false) by (apply eqs_false; exact Hne).
  assert (S1 : BACKEND_BASE b1 = BACKEND_BASE b /\
               healthLastOk b1 = Some (snd (pingBackendHealth p b)) /\
               healthLastBase b1 = trim (BACKEND_BASE b)).
  { unfold b1, pingBackendHealth.
    destruct (healthLastOk b) as [lastOk|] eqn:E; [|simpl; auto].
    rewrite Hb. simpl negb. cbn [andb].
    destruct (eqs (trim (BACKEND_BASE b)) (healthLastBase b)) eqn:E1; cbn [andb].
    - destruct (probe_now p - healthLastAt b <? HEALTH_COOLDOWN_MS)%Z; simpl; auto.
      apply eqs_true in E1. auto.
    - simpl. auto. }
  destruct S1 as (S1 & S2 & S3).
  split; intros Ht; unfold pingBackendHealth at 1; rewrite S2, S1, S3, Hb, eqs_refl;
    simpl negb; cbn [andb].
  - apply Z.ltb_lt in Ht. rewrite Ht. reflexivity.
  - apply Z.ltb_ge in Ht. unfold pingBackendHealth. rewrite S2, S1, S3, Hb, eqs_refl.
    simpl negb. cbn [andb]. rewrite Ht. simpl. auto.
Qed.

(* ===================================================================== *)
(** ** What is sent, and titles *)
(* ===================================================================== *)

Lemma length_zero_eqs (l : jstr) : Nat.eqb (List.length l) 0 = eqs l [].
Proof. destruct l; reflexivity. Qed.

Lemma build_messages_app (c : string) (l1 l2 : list Message) :
  buildBackendMessages (mkConversation c (l1 ++ l2))
  = buildBackendMessages (mkConversation c l1) ++ buildBackendMessages (mkConversation c l2).
Proof.
  unfold buildBackendMessages. simpl.
  rewrite filter_app, map_app, filter_app. reflexivity.
Qed.

(** X16.  The messages that go into a request never include one whose
    content is blank, and come in the order of the conversation.  So the
    request of a send carries what the conversation held before, then the
    user's message if it is not blank, and never the empty answer that was
    pushed with it. *)
Theorem request_leaves_out_blank_messages (env : SendEnv) (cs : list Conversation)
    (c : Conversation) :
  find (is_conv (env_conv env)) cs = Some c ->
  Forall (fun m => blank (snd m) = false) (buildBackendMessages c) /\
  exists c',
    find (is_conv (env_conv env)) (push_messages env cs) = Some c' /\
    buildBackendMessages c'
    = buildBackendMessages c
      ++ (if blank (shown_text env) then [] else [(User, shown_text env)]).
Proof.
  intros Hf. split.
  - unfold buildBackendMessages. apply Forall_forall. intros m Hm.
    apply filter_In in Hm. destruct Hm as [_ Hm].
    rewrite length_zero_eqs in Hm. apply negb_true_iff in Hm. exact Hm.
  - unfold push_messages.
    rewrite find_update_first by reflexivity. rewrite Hf. simpl option_map.
    eexists. split; [reflexivity|].
    rewrite build_messages_app.
    assert (E1 : buildBackendMessages (mkConversation (conv_id c) (messages c))
                 = buildBackendMessages c) by (destruct c; reflexivity).
    rewrite E1. apply f_equal.
    unfold buildBackendMessages. fold (shown_text env).
    cbn [messages filter map role content snd].
    rewrite !length_zero_eqs. fold (blank (shown_text env)).
    change (eqs (trim []) []) with true. cbn [negb].
    destruct (blank (shown_text env)); reflexivity.
Qed.

Lemma mode_literals :
  normalizeMode (js "tecnico") = js "tecnico" /\
  normalizeMode (js "resumido") = js "resumido" /\
  normalizeMode (js "didatico") = js "didatico" /\
  normalizeMode (js "estrategico") = js "estrategico".
Proof. repeat split; vm_compute; reflexivity. Qed.

(** X17.  [normalizeMode] always returns one of the four response modes,
    [tecnico] for anything else, and normalizing twice is normalizing
    once. *)
Theorem normalizeMode_is_a_mode (m : jstr) :
  In (normalizeMode m)
     [js "tecnico"; js "resumido"; js "didatico"; js "estrategico"] /\
  normalizeMode (normalizeMode m) = normalizeMode m.
Proof.
  destruct mode_literals as (L1 & L2 & L3 & L4).
  assert (K : forall t, In t [js "tecnico"; js "resumido"; js "didatico"; js "estrategico"] ->
                normalizeMode t = t).
  { intros t [<-|[<-|[<-|[<-|[]]]]]; assumption. }
  assert (M : In (normalizeMode m)
                 [js "tecnico"; js "resumido"; js "didatico"; js "estrategico"]).
  { unfold normalizeMode.
    remember (js "tecnico") as t1 eqn:E1. remember (js "resumido") as t2 eqn:E2.
    remember (js "didatico") as t3 eqn:E3. remember (js "estrategico") as t4 eqn:E4.
    clear E1 E2 E3 E4 L1 L2 L3 L4 K.
    destruct (eqs (toLowerCase (trim m)) t1) eqn:H1;
      [apply eqs_true in H1; rewrite H1; left; reflexivity|].
    destruct (eqs (toLowerCase (trim m)) t2) eqn:H2;
      [apply eqs_true in H2; rewrite H2; right; left; reflexivity|].
    destruct (eqs (toLowerCase (trim m)) t3) eqn:H3;
      [apply eqs_true in H3; rewrite H3; right; right; left; reflexivity|].
    destruct (eqs (toLowerCase (trim m)) t4) eqn:H4;
      [apply eqs_true in H4; rewrite H4; right; right; right; left; reflexivity|].
    left. reflexivity. }
  split; [exact M | exact (K _ M)].
Qed.

Lemma trimEnd_length (s : jstr) : List.length (trimEnd s) <= List.length s.
Proof.
  destruct (trimEnd_split s) as (w & E & _).
  rewrite E at 2. rewrite length_app. lia.
Qed.

Lemma title_literals :
  List.length (js "Conversa") = 8 /\ List.length (js "…") = 1.
Proof. split; vm_compute; reflexivity. Qed.

(** X18.  The title derived from a first message is never empty and never
    longer than 48 code units. *)
Theorem derived_title_is_short_and_not_empty (text : jstr) :
  deriveTitleFromFirstMessage text <> [] /\
  List.length (deriveTitleFromFirstMessage text) <= 48.
Proof.
  destruct title_literals as [L1 L2].
  unfold deriveTitleFromFirstMessage.
  remember (js "Conversa") as dflt eqn:E1. remember (js "…") as dots eqn:E2.
  clear E1 E2.
  assert (D : dflt <> [] /\ List.length dflt <= 48).
  { split; [|lia]. intros ->. discriminate. }
  destruct (eqs (trim (collapse_ws false text)) []); [exact D|].
  cbv zeta.
  set (cleaned := trim (strip_quotes (trim (collapse_ws false text)))).
  set (head := if eqs (first_sentence cleaned) [] then cleaned else first_sentence cleaned).
  match goal with
  | |- context [if eqs ?x [] then _ else _] => destruct (eqs x []) eqn:E
  end; [exact D|].
  apply eqs_false in E. split; [exact E|].
  match goal with
  | |- context [if ?c then _ else _] => destruct c eqn:El
  end.
  - rewrite length_app, L2.
    pose proof (trimEnd_length (slice_to (48 - 1) head)) as T.
    unfold slice_to in *. rewrite length_firstn in T. lia.
  - apply Nat.ltb_ge in El. exact El.
Qed.

(** X19.  Automatic titling asks the backend at most once per
    conversation, and only for a conversation with exactly one user
    message and one assistant message, neither blank, whose title was not
    set by hand: a call that made the request marks the conversation, and
    no later call makes one, whatever was done to the messages or the title
    in between. *)
Theorem auto_title_is_requested_once
    (r r' : TitleReply) (meanwhile later meanwhile' : Titled -> Titled) (c : Titled) :
  (forall t, titleAutoDone t = true -> titleAutoDone (meanwhile t) = true) ->
  (forall t, titleAutoDone t = true -> titleAutoDone (later t) = true) ->
  snd (maybeAutoTitleConversation r meanwhile c) = true ->
  (exists u a,
     filter (fun m => match role m with User => true | _ => false end)
            (messages (titled c)) = [u] /\
     filter (fun m => match role m with Assistant => true | _ => false end)
            (messages (titled c)) = [a] /\
     blank (content u) = false /\ blank (content a) = false /\
     titleSource c <> js "manual") /\
  titleAutoDone (fst (maybeAutoTitleConversation r meanwhile c)) = true /\
  maybeAutoTitleConversation r' meanwhile'
    (later (fst (maybeAutoTitleConversation r meanwhile c)))
  = (later (fst (maybeAutoTitleConversation r meanwhile c)), false).
Proof.
  intros Hm Hl Hreq.
  assert (A : exists u a,
            filter (fun m => match role m with User => true | _ => false end)
                   (messages (titled c)) = [u] /\
            filter (fun m => match role m with Assistant => true | _ => false end)
                   (messages (titled c)) = [a] /\
            blank (content u) = false /\ blank (content a) = false /\
            titleSource c <> js "manual" /\
            title_request c
            = (mkTitled (titled c) (title c) (titleSource c) true,
               Some (trim (content u), trim (content a)))).
  { unfold maybeAutoTitleConversation in Hreq. unfold title_request in *.
    remember (js "manual") as manual eqn:Em. clear Em.
    destruct (eqs (titleSource c) manual) eqn:E1; [discriminate Hreq|].
    destruct (titleAutoDone c) eqn:E2; [discriminate Hreq|].
    cbn [orb] in *.
    destruct (filter (fun m => match role m with User => true | _ => false end)
                     (messages (titled c))) as [|u [|u2 us]];
      try discriminate Hreq.
    destruct (filter (fun m => match role m with Assistant => true | _ => false end)
                     (messages (titled c))) as [|a [|a2 as_]];
      try discriminate Hreq.
    fold (blank (content u)) in *. fold (blank (content a)) in *.
    destruct (blank (content u)) eqn:Bu; [discriminate Hreq|].
    destruct (blank (content a)) eqn:Ba; [discriminate Hreq|].
    exists u, a. repeat split; auto. apply eqs_false. exact E1. }
  destruct A as (u & a & Fu & Fa & Bu & Ba & Hs & Er).
  set (c1 := mkTitled (titled c) (title c) (titleSource c) true) in *.
  assert (Ey : fst (maybeAutoTitleConversation r meanwhile c)
               = title_response r (meanwhile c1)).
  { unfold maybeAutoTitleConversation. rewrite Er. reflexivity. }
  assert (D1 : titleAutoDone (title_response r (meanwhile c1)) = true).
  { assert (D0 : titleAutoDone (meanwhile c1) = true) by (apply Hm; reflexivity).
    unfold title_response. destruct r as [|[|] data]; auto.
    destruct (eqs _ []); auto. destruct (eqs _ _); auto.
    destruct (negb _); auto. }
  split; [exists u, a; auto|].
  rewrite Ey. split; [exact D1|].
  unfold maybeAutoTitleConversation, title_request.
  rewrite (Hl _ D1), orb_true_r. reflexivity.
Qed.

(** X20.  A title set by hand is never replaced: a conversation marked
    [manual] gets no title request and is left as it is, and a reply that
    arrives once the conversation has become [manual] changes nothing.
    When a reply does change the title, the new title is the proposed one,
    trimmed, not empty and not the title it replaces, and the source
    becomes [ai]; the messages and the mark of the request stay. *)
Theorem manual_title_is_never_replaced
    (r : TitleReply) (meanwhile : Titled -> Titled) (c : Titled) :
  (titleSource c = js "manual" ->
     maybeAutoTitleConversation r meanwhile c = (c, false)) /\
  (forall t, titleSource t = js "manual" -> title_response r t = t) /\
  (forall t, title_response r t = t \/
     (exists data, r = TitleResponse true data /\
        title (title_response r t) = trim (String_or (get (js "title") data))) /\
     title (title_response r t) <> [] /\
     title (title_response r t) <> title t /\
     titleSource (title_response r t) = js "ai" /\
     titled (title_response r t) = titled t /\
     titleAutoDone (title_response r t) = titleAutoDone t).
Proof.
  split; [|split].
  - intros H. unfold maybeAutoTitleConversation, title_request.
    rewrite H, eqs_refl. reflexivity.
  - intros t H. unfold title_response.
    destruct r as [|[|] data]; auto.
    destruct (eqs _ []); auto. rewrite H, eqs_refl. reflexivity.
  - intros t. unfold title_response.
    destruct r as [|[|] data]; auto.
    destruct (eqs (trim (String_or (get (js "title") data))) []) eqn:E1; auto.
    destruct (eqs (titleSource t) (js "manual")); auto.
    destruct (eqs (trim (String_or (get (js "title") data))) (title t)) eqn:E2; auto.
    right. apply eqs_false in E1, E2. cbn [negb title titleSource titled titleAutoDone].
    repeat split; auto. exists data. auto.
Qed.

(* ===================================================================== *)
(** ** Carriage returns *)
(* ===================================================================== *)

Lemma lor_shift_low (a x u : N) :
  N.lor (N.shiftl a 6) x = u -> (u < 64)%N -> a = 0%N.
Proof.
  intros E H. apply (f_equal (fun v => N.shiftr v 6)) in E.
  rewrite N.shiftr_lor, N.shiftr_shiftl_l, N.sub_diag, N.shiftl_0_r in E by lia.
  assert (Z : N.shiftr u 6 = 0%N).
  { rewrite N.shiftr_div_pow2. apply N.div_small. exact H. }
  rewrite Z in E. apply N.lor_eq_0_l in E. exact E.
Qed.

Lemma land_63 (b : N) : (128 < b)%N -> (b <= 191)%N -> N.land b 63 <> 0%N.
Proof.
  intros H1 H2. change 63%N with (N.ones 6). rewrite N.land_ones. change (2 ^ 6)%N with 64%N.
  pose proof (N.Div0.div_mod b 64) as E. intros K. rewrite K in E.
  assert (b / 64 = 2)%N by lia. lia.
Qed.

Lemma land_31 (b : N) : (194 <= b)%N -> (b <= 223)%N -> N.land b 31 <> 0%N.
Proof.
  intros H1 H2. change 31%N with (N.ones 5). rewrite N.land_ones. change (2 ^ 5)%N with 32%N.
  pose proof (N.Div0.div_mod b 32) as E. intros K. rewrite K in E.
  assert (b / 32 = 6)%N by lia. lia.
Qed.

Lemma land_15 (b : N) : (224 < b)%N -> (b <= 239)%N -> N.land b 15 <> 0%N.
Proof.
  intros H1 H2. change 15%N with (N.ones 4). rewrite N.land_ones. change (2 ^ 4)%N with 16%N.
  pose proof (N.Div0.div_mod b 16) as E. intros K. rewrite K in E.
  assert (b / 16 = 14)%N by lia. lia.
Qed.

Lemma land_7 (b : N) : (240 < b)%N -> (b <= 244)%N -> N.land b 7 <> 0%N.
Proof.
  intros H1 H2. change 7%N with (N.ones 3). rewrite N.land_ones. change (2 ^ 3)%N with 8%N.
  pose proof (N.Div0.div_mod b 8) as E. intros K. rewrite K in E.
  assert (b / 8 = 30)%N by lia. lia.
Qed.

Lemma sound_reset (d : Utf8.Decoder) : sound (Utf8.reset d).
Proof. unfold sound, good. simpl. repeat split; lia. Qed.

Lemma lead_sound (d : Utf8.Decoder) (b : N) :
  sound d -> sound (fst (Utf8.lead d b)).
Proof.
  intros H. unfold Utf8.lead.
  destruct (b <=? 127)%N; [exact H|].
  destruct ((194 <=? b) && (b <=? 223))%N eqn:E1.
  { apply andb_prop in E1. destruct E1 as [A B].
    apply N.leb_le in A, B.
    unfold sound, good. simpl. repeat split; try lia.
    intros _. left. apply land_31; assumption. }
  destruct ((224 <=? b) && (b <=? 239))%N eqn:E2.
  { apply andb_prop in E2. destruct E2 as [A B].
    apply N.leb_le in A, B.
    unfold sound, good. simpl.
    destruct (b =? 224)%N eqn:E; destruct (b =? 237)%N; repeat split; try lia;
      intros _.
    all: try (right; split; [lia | discriminate]).
    all: left; apply N.eqb_neq in E; apply land_15; lia. }
  destruct ((240 <=? b) && (b <=? 244))%N eqn:E3.
  { apply andb_prop in E3. destruct E3 as [A B].
    apply N.leb_le in A, B.
    unfold sound, good. simpl.
    destruct (b =? 240)%N eqn:E; destruct (b =? 244)%N; repeat split; try lia;
      intros _.
    all: try (right; split; [lia | discriminate]).
    all: left; apply N.eqb_neq in E; apply land_7; lia. }
  exact H.
Qed.

Lemma lead_low (d : Utf8.Decoder) (b u : N) :
  In u (snd (Utf8.lead d b)) -> (u < 64)%N -> u = b.
Proof.
  unfold Utf8.lead.
  destruct (b <=? 127)%N; [intros [<-|[]]; reflexivity|].
  destruct (_ && _); [intros []|].
  destruct (_ && _); [intros []|].
  destruct (_ && _); [intros []|].
  intros [<-|[]] H. lia.
Qed.

Lemma step_sound (d : Utf8.Decoder) (b : N) : sound d -> sound (fst (Utf8.step d b)).
Proof.
  intros H. unfold Utf8.step.
  destruct (Utf8.bytes_needed d =? 0)%N eqn:En; [apply lead_sound; exact H|].
  apply N.eqb_neq in En.
  destruct ((Utf8.lower_boundary d <=? b) && (b <=? Utf8.upper_boundary d))%N eqn:Er.
  - apply andb_prop in Er. destruct Er as [A B]. apply N.leb_le in A, B.
    destruct (Utf8.bytes_seen d + 1 =? Utf8.bytes_needed d)%N eqn:Ef;
      [apply sound_reset|].
    destruct H as (Hg & Hu & Hc). unfold good in Hg.
    unfold sound, good. simpl. repeat split; try lia.
    intros _. left. intros K. apply N.lor_eq_0_iff in K. destruct K as [K1 K2].
    destruct (Hc En) as [Hz|[Hl _]].
    + apply N.shiftl_eq_0_iff in K1. congruence.
    + revert K2. apply land_63; lia.
  - pose proof (lead_sound (Utf8.reset d) b (sound_reset d)) as L.
    destruct (Utf8.lead (Utf8.reset d) b). exact L.
Qed.

Lemma step_low (d : Utf8.Decoder) (b u : N) :
  sound d -> In u (snd (Utf8.step d b)) -> (u < 64)%N -> u = b.
Proof.
  intros H. unfold Utf8.step.
  destruct (Utf8.bytes_needed d =? 0)%N eqn:En; [apply lead_low|].
  apply N.eqb_neq in En.
  destruct ((Utf8.lower_boundary d <=? b) && (b <=? Utf8.upper_boundary d))%N eqn:Er.
  - destruct (Utf8.bytes_seen d + 1 =? Utf8.bytes_needed d)%N eqn:Ef; [|intros []].
    apply N.eqb_eq in Ef. simpl. intros [E|[]] Hu.
    apply lor_shift_low in E; [|exact Hu].
    destruct H as (_ & _ & Hc). destruct (Hc En) as [Hz|[_ Hs]]; congruence.
  - pose proof (lead_low (Utf8.reset d) b u) as L.
    destruct (Utf8.lead (Utf8.reset d) b) as [d' out]. simpl in *.
    intros [E|Hi] Hu; [lia|]. apply L; assumption.
Qed.

Lemma units_low (cp u : N) : In u (Utf8.units cp) -> (u < 64)%N -> u = cp.
Proof.
  unfold Utf8.units. destruct (cp <? 65536)%N.
  - intros [<-|[]]. reflexivity.
  - intros [<-|[<-|[]]] H; lia.
Qed.

Lemma serialize_in (cps : list N) : forall seen u,
  In u (snd (Utf8.serialize seen cps)) -> exists cp, In cp cps /\ In u (Utf8.units cp).
Proof.
  induction cps as [|cp r IH]; intros seen u H; simpl in H; [destruct H|].
  destruct (Utf8.serialize true r) as [s' out] eqn:E. simpl in H.
  assert (K : In u out -> exists cp0, In cp0 (cp :: r) /\ In u (Utf8.units cp0)).
  { intros Hi. destruct (IH true u) as (c & Hc & Hu); [rewrite E; exact Hi|].
    exists c. split; [right; exact Hc | exact Hu]. }
  destruct (negb seen && (cp =? 65279)%N); [apply K; exact H|].
  apply in_app_or in H. destruct H as [H|H]; [|apply K; exact H].
  exists cp. split; [left; reflexivity | exact H].
Qed.

Lemma sound_with_bom (d : Utf8.Decoder) (b : bool) : sound d -> sound (Utf8.with_bom d b).
Proof. intros H. exact H. Qed.

Lemma step_units_sound (d : Utf8.Decoder) (b : byte) :
  sound d -> sound (fst (Utf8.step_units d b)).
Proof.
  intros H. unfold Utf8.step_units.
  pose proof (step_sound d (Byte.to_N b) H) as S.
  destruct (Utf8.step d (Byte.to_N b)) as [d1 cps].
  destruct (Utf8.serialize (Utf8.bom_seen d1) cps). exact S.
Qed.

Lemma step_units_low (d : Utf8.Decoder) (b : byte) (u : N) :
  sound d -> In u (snd (Utf8.step_units d b)) -> (u < 64)%N -> u = Byte.to_N b.
Proof.
  intros H. unfold Utf8.step_units.
  pose proof (step_low d (Byte.to_N b) u H) as S.
  destruct (Utf8.step d (Byte.to_N b)) as [d1 cps].
  pose proof (serialize_in cps (Utf8.bom_seen d1) u) as Z.
  destruct (Utf8.serialize (Utf8.bom_seen d1) cps) as [seen out]. simpl in *.
  intros Hi Hu. destruct (Z Hi) as (cp & Hc & Hcp).
  pose proof (units_low cp u Hcp Hu) as ->. apply S; assumption.
Qed.

Lemma decode_low (bs : list byte) : forall d u,
  sound d -> In u (snd (Utf8.decode d bs)) -> (u < 64)%N -> In u (map Byte.to_N bs).
Proof.
  induction bs as [|b r IH]; intros d u H; simpl; [auto|].
  pose proof (step_units_sound d b H) as S.
  pose proof (step_units_low d b u H) as L.
  destruct (Utf8.step_units d b) as [d1 o1].
  pose proof (IH d1 u S) as I.
  destruct (Utf8.decode d1 r) as [d2 o2]. simpl in *.
  intros Hi Hu. apply in_app_or in Hi. destruct Hi as [Hi|Hi].
  - left. symmetry. apply L; assumption.
  - right. apply I; assumption.
Qed.

Lemma sound_fresh : sound Utf8.fresh.
Proof. unfold sound, good. simpl. repeat split; lia. Qed.

Lemma to_N_line_feed (b : byte) : Byte.to_N b = 10%N -> b = x0a.
Proof.
  intros H. pose proof (Byte.of_to_N b) as E. rewrite H in E.
  vm_compute in E. injection E as <-. reflexivity.
Qed.

Lemma to_N_carriage_return (b : byte) : Byte.to_N b = 13%N -> b = x0d.
Proof.
  intros H. pose proof (Byte.of_to_N b) as E. rewrite H in E.
  vm_compute in E. injection E as <-. reflexivity.
Qed.

Lemma crlf_units_plain (t : jstr) : ~ In 10%N t -> crlf_units t = t.
Proof.
  induction t as [|c r IH]; intros H; [reflexivity|].
  unfold crlf_units in *. simpl.
  destruct (c =? 10)%N eqn:E.
  - apply N.eqb_eq in E. exfalso. apply H. left. exact E.
  - simpl. rewrite IH; [reflexivity|]. intros K. apply H. right. exact K.
Qed.

Lemma decode_cr_lf (d : Utf8.Decoder) :
  good d ->
  Utf8.decode d [x0d; x0a]
  = (fst (Utf8.decode d [x0a]), crlf_units (snd (Utf8.decode d [x0a]))).
Proof.
  intros H. unfold good in H. simpl. unfold Utf8.step_units, Utf8.step.
  change (Byte.to_N x0a) with 10%N. change (Byte.to_N x0d) with 13%N.
  destruct (Utf8.bytes_needed d =? 0)%N eqn:E.
  - simpl. rewrite E. simpl. destruct (Utf8.bom_seen d); reflexivity.
  - replace ((Utf8.lower_boundary d <=? 10) && (10 <=? Utf8.upper_boundary d))%N
      with false
      by (symmetry; apply andb_false_iff; left; apply N.leb_gt; lia).
    replace ((Utf8.lower_boundary d <=? 13) && (13 <=? Utf8.upper_boundary d))%N
      with false
      by (symmetry; apply andb_false_iff; left; apply N.leb_gt; lia).
    simpl. destruct (Utf8.bom_seen d); reflexivity.
Qed.

Lemma decode_crlf (bs : list byte) : forall d,
  sound d ->
  Utf8.decode d (crlf bs)
  = (fst (Utf8.decode d bs), crlf_units (snd (Utf8.decode d bs))).
Proof.
  induction bs as [|b r IH]; intros d H; [reflexivity|].
  change (crlf (b :: r)) with ((if Byte.eqb b x0a then [x0d; x0a] else [b]) ++ crlf r).
  change (b :: r) with ([b] ++ r).
  rewrite decode_app, (decode_app d [b] r).
  assert (S1 : sound (fst (Utf8.decode d [b]))).
  { simpl. pose proof (step_units_sound d b H) as S.
    destruct (Utf8.step_units d b). exact S. }
  assert (E : Utf8.decode d (if Byte.eqb b x0a then [x0d; x0a] else [b])
              = (fst (Utf8.decode d [b]), crlf_units (snd (Utf8.decode d [b])))).
  { destruct (Byte.eqb b x0a) eqn:Eb.
    - apply Byte.byte_dec_bl in Eb. subst b. apply decode_cr_lf. apply H.
    - rewrite crlf_units_plain; [destruct (Utf8.decode d [b]); reflexivity|].
      intros K.
      assert (Hb : Byte.to_N b = 10%N).
      { assert (L : In 10%N (map Byte.to_N [b]))
          by (apply (decode_low [b] d 10%N H K); lia).
        simpl in L. destruct L as [L|[]]. exact L. }
      apply to_N_line_feed in Hb. subst b. discriminate Eb. }
  rewrite E. cbn [fst snd]. rewrite (IH _ S1). cbn [fst snd].
  unfold crlf_units. rewrite flat_map_app. reflexivity.
Qed.

Lemma endsWith_absent (l : jstr) : ~ In 13%N l -> endsWith [13%N] l = false.
Proof.
  intros H. destruct l as [|c q] using rev_ind; [reflexivity|].
  rewrite endsWith_snoc. apply N.eqb_neq. intros E. apply H.
  apply in_or_app. right. left. symmetry. exact E.
Qed.

Lemma on_line_cr (f : Frame) (l : jstr) :
  ~ In 13%N l -> on_line f (l ++ [13%N]) = on_line f l.
Proof.
  intros H. unfold on_line.
  rewrite (on_line_chomp f (l ++ [13%N])), (on_line_chomp f l).
  unfold chomp. rewrite endsWith_snoc, (endsWith_absent l H). simpl.
  rewrite removelast_last. reflexivity.
Qed.

Lemma lines_of_crlf (t : jstr) : forall f cur out,
  ~ In 13%N t -> ~ In 13%N cur ->
  lines_of f cur (crlf_units t) out = lines_of f cur t out.
Proof.
  induction t as [|c r IH]; intros f cur out Ht Hc; [reflexivity|].
  assert (Hr : ~ In 13%N r) by (intros K; apply Ht; right; exact K).
  assert (Hn : c <> 13%N) by (intros K; apply Ht; left; exact K).
  change (crlf_units (c :: r))
    with ((if (c =? 10)%N then [13%N; 10%N] else [c]) ++ crlf_units r).
  destruct (c =? 10)%N eqn:E.
  - simpl. rewrite E. rewrite (on_line_cr f cur Hc). apply IH; [exact Hr|].
    intros [].
  - simpl. rewrite E. apply IH; [exact Hr|].
    intros K. apply in_app_or in K. destruct K as [K|[K|[]]]; [apply Hc; exact K|].
    apply Hn. exact K.
Qed.

(** X21.  A stream whose lines end with a carriage return and a line feed
    is parsed exactly as the same stream with bare line feeds: for bytes
    without a carriage return, putting one before every line feed changes
    neither the handler calls nor the value returned. *)
Theorem carriage_returns_before_line_feeds_change_nothing (bs : list byte) :
  ~ In x0d bs ->
  readSseStream [crlf bs] = readSseStream [bs].
Proof.
  intros H.
  assert (T : ~ In 13%N (snd (Utf8.decode Utf8.fresh bs))).
  { intros K. apply (decode_low bs Utf8.fresh 13%N sound_fresh) in K; [|lia].
    apply in_map_iff in K. destruct K as (b & Eb & Hb).
    apply to_N_carriage_return in Eb. subst b. exact (H Hb). }
  assert (F : feed parser0 (crlf bs) = feed parser0 bs).
  { rewrite !feed_lines_of by apply settled_parser0.
    change (decoder parser0) with Utf8.fresh. change (buf parser0) with (@nil N).
    rewrite (decode_crlf bs Utf8.fresh sound_fresh). cbn [fst snd].
    rewrite (lines_of_crlf _ _ _ _ T); [reflexivity|]. intros []. }
  unfold readSseStream. cbn [feed_all]. rewrite F. reflexivity.
Qed.


(* ===================================================================== *)
(** ** Lines, the end of the stream and lines passed over *)
(* ===================================================================== *)

Lemma decode_sound (bs : list byte) : forall d,
  sound d -> sound (fst (Utf8.decode d bs)).
Proof.
  induction bs as [|b r IH]; intros d H; [exact H|].
  simpl. pose proof (step_units_sound d b H) as S.
  destruct (Utf8.step_units d b) as [d1 o1].
  pose proof (IH d1 S) as I. destruct (Utf8.decode d1 r). exact I.
Qed.

Lemma decode_no_line_feed (bs : list byte) (d : Utf8.Decoder) :
  sound d -> ~ In x0a bs -> no_nl (snd (Utf8.decode d bs)).
Proof.
  intros H Hn. unfold no_nl.
  destruct (indexOf 10%N (snd (Utf8.decode d bs))) as [i|] eqn:E; [|reflexivity].
  exfalso. apply Hn.
  assert (K : In 10%N (snd (Utf8.decode d bs))).
  { revert i E. generalize (snd (Utf8.decode d bs)). intros t.
    induction t as [|c r IH]; intros i E; simpl in E; [discriminate|].
    destruct (c =? 10)%N eqn:Ec.
    - left. apply N.eqb_eq. exact Ec.
    - destruct (indexOf 10%N r) as [j|]; [|discriminate]. right. apply (IH j eq_refl). }
  apply (decode_low bs d 10%N H) in K; [|lia].
  apply in_map_iff in K. destruct K as (b & Eb & Hb).
  apply to_N_line_feed in Eb. subst b. exact Hb.
Qed.

Lemma lines_of_split (t : jstr) : forall f cur out,
  lines_of f cur t out
  = (fst (run_lines f (fst (split_lines cur t))), snd (split_lines cur t),
     out ++ snd (run_lines f (fst (split_lines cur t)))).
Proof.
  induction t as [|c r IH]; intros f cur out.
  - simpl. rewrite app_nil_r. reflexivity.
  - simpl. destruct (c =? 10)%N.
    + rewrite IH. destruct (split_lines [] r) as [ls rest]. cbn [fst snd run_lines].
      destruct (on_line f cur) as [f1 o1]. cbn [fst snd].
      destruct (run_lines f1 ls) as [f2 o2]. cbn [fst snd].
      rewrite app_assoc. reflexivity.
    + apply IH.
Qed.

Lemma feed_decoder (p : Parser) (chunk : list byte) :
  settled p -> decoder (fst (feed p chunk)) = fst (Utf8.decode (decoder p) chunk).
Proof. intros H. rewrite feed_lines_of by exact H. reflexivity. Qed.

(** Bytes without a line feed only lengthen the line under construction. *)
Lemma feed_no_line_feed (p : Parser) (tail : list byte) :
  settled p -> sound (decoder p) -> ~ In x0a tail ->
  frame (fst (feed p tail)) = frame p /\ snd (feed p tail) = [].
Proof.
  intros Hs Hd Hn. rewrite feed_lines_of by exact Hs. cbn [fst snd frame].
  rewrite (lines_of_plain _ _ _ _ (decode_no_line_feed tail _ Hd Hn)). auto.
Qed.

(** C3.  Splitting the bytes of a stream into chunks at any places, in the
    middle of a line, of a frame or of a UTF-8 sequence, changes neither the
    handler calls [readSseStream] makes, nor their arguments, nor their order,
    nor the value it returns: all are those of the stream fed as one chunk.
    They are these: the bytes are decoded as one text; every line that ends
    with a line feed goes through [on_line], in order; then, at the end of
    the stream, [emit] is called once more, so that a frame whose blank line
    never came is emitted just as that blank line would have emitted it.
    What follows the last line feed is kept in the buffer and never
    processed: such a trailing piece of a line changes nothing. *)
Theorem C3_chunk_boundaries_do_not_matter :
  (forall chunks : list (list byte),
     readSseStream chunks = readSseStream [List.concat chunks]) /\
  (forall bytes : list byte,
     readSseStream [bytes ++ [x0a]] = readSseStream [bytes ++ [x0a; x0a]]) /\
  (forall chunks : list (list byte),
     readSseStream chunks
     = (snd (run_lines (frame parser0)
               (fst (split_lines [] (snd (Utf8.decode Utf8.fresh (List.concat chunks))))))
        ++ snd (emit (fst (run_lines (frame parser0)
                             (fst (split_lines []
                                     (snd (Utf8.decode Utf8.fresh (List.concat chunks)))))))),
        sawTerminal
          (fst (emit (fst (run_lines (frame parser0)
                             (fst (split_lines []
                                     (snd (Utf8.decode Utf8.fresh
                                             (List.concat chunks))))))))))) /\
  (forall bytes tail : list byte,
     ~ In x0a tail ->
     readSseStream [bytes ++ x0a :: tail] = readSseStream [bytes ++ [x0a]]) /\
  (forall tail : list byte, ~ In x0a tail -> readSseStream [tail] = ([], false)) /\
  readSseStream [wire "data: x|"] = ([OnDelta (js "x")], false) /\
  readSseStream [wire "data: x||data: y"] = ([OnDelta (js "x")], false) /\
  readSseStream [wire "data: x"] = ([], false).
Proof.
  assert (S0 : settled parser0) by reflexivity.
  assert (G0 : good (decoder parser0)) by (unfold good; simpl; lia).
  assert (One : forall chunks, readSseStream chunks = readSseStream [List.concat chunks]).
  { intros chunks. unfold readSseStream.
    rewrite !feed_all_concat by exact S0. simpl. rewrite app_nil_r. reflexivity. }
  split; [exact One|]. split; [|split; [|split; [|split]]].
  - intros bytes. unfold readSseStream.
    rewrite !feed_all_concat by exact S0. simpl. rewrite !app_nil_r.
    replace (bytes ++ [x0a; x0a]) with ((bytes ++ [x0a]) ++ [x0a])
      by (rewrite <- app_assoc; reflexivity).
    rewrite (feed_app parser0 (bytes ++ [x0a]) [x0a] S0).
    destruct (feed_line_feed _ bytes S0 G0) as [Eb En].
    pose proof (feed_settled _ (bytes ++ [x0a]) S0) as S1.
    destruct (feed parser0 (bytes ++ [x0a])) as [p1 o1]. cbn [fst snd] in *.
    rewrite (feed_lines_of _ _ S1). cbn [fst snd frame buf decoder].
    rewrite (decode_line_feed_idle _ En), Eb.
    change (lines_of (frame p1) [] [10%N] [])
      with (fst (emit (frame p1)), @nil N, snd (emit (frame p1))).
    cbn [fst snd frame]. rewrite emit_emit.
    destruct (emit (frame p1)) as [f1 l1]. cbn [fst snd].
    rewrite app_nil_r. reflexivity.
  - intros chunks. rewrite One. unfold readSseStream. cbn [feed_all].
    rewrite (feed_lines_of parser0 _ S0). cbn [fst snd frame].
    change (decoder parser0) with Utf8.fresh. change (buf parser0) with (@nil N).
    rewrite lines_of_split. cbn [fst snd].
    destruct (emit _) as [f last]. rewrite app_nil_r. reflexivity.
  - intros bytes tail Hn. unfold readSseStream. cbn [feed_all].
    replace (bytes ++ x0a :: tail) with ((bytes ++ [x0a]) ++ tail)
      by (rewrite <- app_assoc; reflexivity).
    rewrite (feed_app parser0 (bytes ++ [x0a]) tail S0).
    pose proof (feed_settled _ (bytes ++ [x0a]) S0) as S1.
    assert (D1 : sound (decoder (fst (feed parser0 (bytes ++ [x0a]))))).
    { rewrite (feed_decoder _ _ S0). apply decode_sound, sound_fresh. }
    destruct (feed_no_line_feed _ tail S1 D1 Hn) as [Ef Eo].
    destruct (feed parser0 (bytes ++ [x0a])) as [p1 o1]. cbn [fst snd] in *.
    destruct (feed p1 tail) as [p2 o2]. cbn [fst snd] in *.
    rewrite Ef, Eo, !app_nil_r. reflexivity.
  - intros tail Hn. unfold readSseStream. cbn [feed_all].
    destruct (feed_no_line_feed parser0 tail S0 sound_fresh Hn) as [Ef Eo].
    destruct (feed parser0 tail) as [p2 o2]. cbn [fst snd] in *.
    rewrite Ef, Eo. reflexivity.
  - split; [vm_compute; reflexivity|]. split; vm_compute; reflexivity.
Qed.

Lemma step_keeps_bom (d : Utf8.Decoder) (b : N) :
  Utf8.bom_seen (fst (Utf8.step d b)) = Utf8.bom_seen d.
Proof.
  assert (L : forall d0, Utf8.bom_seen (fst (Utf8.lead d0 b)) = Utf8.bom_seen d0).
  { intros d0. unfold Utf8.lead. destruct (b <=? 127)%N; [reflexivity|].
    repeat (destruct (_ && _); [reflexivity|]). reflexivity. }
  unfold Utf8.step. destruct (Utf8.bytes_needed d =? 0)%N; [apply L|].
  destruct (_ && _).
  - destruct (_ =? _)%N; reflexivity.
  - pose proof (L (Utf8.reset d)) as K. destruct (Utf8.lead (Utf8.reset d) b). exact K.
Qed.

Lemma serialize_seen (cps : list N) : fst (Utf8.serialize true cps) = true.
Proof.
  induction cps as [|cp r IH]; [reflexivity|].
  simpl. destruct (Utf8.serialize true r). exact IH.
Qed.

Lemma step_units_keeps_bom (d : Utf8.Decoder) (b : byte) :
  Utf8.bom_seen d = true -> Utf8.bom_seen (fst (Utf8.step_units d b)) = true.
Proof.
  intros H. unfold Utf8.step_units.
  pose proof (step_keeps_bom d (Byte.to_N b)) as K.
  destruct (Utf8.step d (Byte.to_N b)) as [d1 cps]. simpl in K. rewrite K, H.
  pose proof (serialize_seen cps) as Z. destruct (Utf8.serialize true cps). exact Z.
Qed.

Lemma lead_tidy (d : Utf8.Decoder) (b : N) : tidy d -> tidy (fst (Utf8.lead d b)).
Proof.
  intros H. unfold Utf8.lead. destruct (b <=? 127)%N; [exact H|].
  destruct (_ && _); [unfold tidy, good; simpl; split; [lia|discriminate]|].
  destruct (_ && _).
  { unfold tidy, good; simpl. split; [destruct (b =? 224)%N; lia|discriminate]. }
  destruct (_ && _).
  { unfold tidy, good; simpl. split; [destruct (b =? 240)%N; lia|discriminate]. }
  exact H.
Qed.

Lemma tidy_reset (d : Utf8.Decoder) : tidy (Utf8.reset d).
Proof. unfold tidy, good. simpl. split; [lia|reflexivity]. Qed.

Lemma step_tidy (d : Utf8.Decoder) (b : N) : tidy d -> tidy (fst (Utf8.step d b)).
Proof.
  intros H. unfold Utf8.step.
  destruct (Utf8.bytes_needed d =? 0)%N eqn:En; [apply lead_tidy; exact H|].
  apply N.eqb_neq in En.
  destruct (_ && _).
  - destruct (_ =? _)%N; [apply tidy_reset|].
    unfold tidy, good. simpl. split; [lia|]. intros K. contradiction.
  - pose proof (lead_tidy (Utf8.reset d) b (tidy_reset d)) as L.
    destruct (Utf8.lead (Utf8.reset d) b). exact L.
Qed.

Lemma step_units_tidy (d : Utf8.Decoder) (b : byte) :
  tidy d -> tidy (fst (Utf8.step_units d b)).
Proof.
  intros H. unfold Utf8.step_units.
  pose proof (step_tidy d (Byte.to_N b) H) as S.
  destruct (Utf8.step d (Byte.to_N b)) as [d1 cps].
  destruct (Utf8.serialize (Utf8.bom_seen d1) cps) as [seen out]. simpl in *.
  destruct S as [G C]. split; [exact G|].
  intros K. simpl in K. specialize (C K). rewrite C. reflexivity.
Qed.

Lemma decode_tidy (bs : list byte) : forall d,
  tidy d -> Utf8.bom_seen d = true ->
  tidy (fst (Utf8.decode d bs)) /\ Utf8.bom_seen (fst (Utf8.decode d bs)) = true.
Proof.
  induction bs as [|b r IH]; intros d H Hb; [auto|].
  simpl. pose proof (step_units_tidy d b H) as S.
  pose proof (step_units_keeps_bom d b Hb) as B.
  destruct (Utf8.step_units d b) as [d1 o1].
  pose proof (IH d1 S B) as I. destruct (Utf8.decode d1 r). exact I.
Qed.

Lemma tidy_fresh : tidy Utf8.fresh.
Proof. unfold tidy, good. simpl. split; [lia|reflexivity]. Qed.

Lemma decode_line_feed_mid (d : Utf8.Decoder) :
  tidy d -> Utf8.bom_seen d = true ->
  Utf8.decode d [x0a]
  = (mid_stream, (if (Utf8.bytes_needed d =? 0)%N then [] else [65533%N]) ++ [10%N]).
Proof.
  intros [G C] Hb. unfold good in G. simpl. unfold Utf8.step_units, Utf8.step.
  change (Byte.to_N x0a) with 10%N.
  destruct (Utf8.bytes_needed d =? 0)%N eqn:E.
  - apply N.eqb_eq in E. rewrite (C E), Hb. reflexivity.
  - replace ((Utf8.lower_boundary d <=? 10) && (10 <=? Utf8.upper_boundary d))%N
      with false
      by (symmetry; apply andb_false_iff; left; apply N.leb_gt; lia).
    simpl. rewrite Hb. reflexivity.
Qed.

Lemma tidy_mid_stream : tidy mid_stream /\ sound mid_stream.
Proof. unfold tidy, sound, good. simpl. repeat split; try lia. Qed.

(** A whole line given to a parser between two lines. *)
Lemma feed_line (p : Parser) (c : list byte) :
  decoder p = mid_stream -> buf p = [] -> ~ In x0a c ->
  feed p (c ++ [x0a])
  = (mkParser mid_stream [] (fst (on_line (frame p) (line_text c))),
     snd (on_line (frame p) (line_text c))).
Proof.
  intros Hd Hb Hn. rewrite feed_lines_of by (unfold settled; rewrite Hb; reflexivity).
  rewrite Hd, Hb, decode_app.
  destruct tidy_mid_stream as [Tm Sm].
  destruct (decode_tidy c mid_stream Tm eq_refl) as [T1 B1].
  pose proof (decode_no_line_feed c mid_stream Sm Hn) as N1.
  unfold line_text.
  destruct (Utf8.decode mid_stream c) as [d1 t]. cbn [fst snd] in *.
  rewrite (decode_line_feed_mid d1 T1 B1). cbn [fst snd].
  rewrite app_assoc, lines_of_app.
  assert (N2 : no_nl (t ++ (if (Utf8.bytes_needed d1 =? 0)%N then [] else [65533%N]))).
  { destruct (Utf8.bytes_needed d1 =? 0)%N; [rewrite app_nil_r; exact N1|].
    apply no_nl_snoc; [exact N1|]. discriminate. }
  rewrite (lines_of_plain _ _ _ _ N2). simpl app. simpl lines_of.
  destruct (on_line (frame p) _) as [f1 o1]. reflexivity.
Qed.

Lemma feed_line_feed_mid (bytes : list byte) :
  decoder (fst (feed parser0 (bytes ++ [x0a]))) = mid_stream /\
  buf (fst (feed parser0 (bytes ++ [x0a]))) = [].
Proof.
  destruct (feed_line_feed_state bytes) as (Hs & Hb & Hn & Hbom).
  split; [|exact Hb].
  assert (T : tidy (decoder (fst (feed parser0 (bytes ++ [x0a]))))).
  { rewrite (feed_decoder _ _ settled_parser0).
    assert (K : forall bs d, tidy d -> tidy (fst (Utf8.decode d bs))).
    { induction bs as [|b r IH]; intros d H; [exact H|].
      simpl. pose proof (step_units_tidy d b H) as S.
      destruct (Utf8.step_units d b) as [d1 o1].
      pose proof (IH d1 S) as I. destruct (Utf8.decode d1 r). exact I. }
    apply K, tidy_fresh. }
  destruct T as [_ C]. rewrite (C Hn), Hbom. reflexivity.
Qed.

(** X11.  A line that is neither blank nor an [event:] nor a [data:] line
    (a comment such as a keep-alive, an [id:] or [retry:] field), whatever
    its bytes, is passed over: put after any line of a stream, it changes
    neither the handler calls nor the value returned. *)
Theorem ignored_lines_change_nothing (a c b : list byte) :
  ~ In x0a c ->
  ignored_line (line_text c) = true ->
  readSseStream [a ++ [x0a] ++ c ++ [x0a] ++ b] = readSseStream [a ++ [x0a] ++ b].
Proof.
  intros Hc Hi.
  destruct (feed_line_feed_mid a) as [Hd Hb].
  pose proof (feed_settled _ (a ++ [x0a]) settled_parser0) as Hs.
  set (p := fst (feed parser0 (a ++ [x0a]))) in *.
  assert (E : feed p (c ++ [x0a]) = (p, [])).
  { rewrite (feed_line p c Hd Hb Hc), (on_line_ignored _ _ Hi). cbn [fst snd].
    destruct p as [d bf f]. simpl in Hd, Hb. subst d bf. reflexivity. }
  assert (F : feed parser0 (a ++ [x0a] ++ c ++ [x0a] ++ b)
              = feed parser0 (a ++ [x0a] ++ b)).
  { replace (a ++ [x0a] ++ c ++ [x0a] ++ b) with ((a ++ [x0a]) ++ ((c ++ [x0a]) ++ b))
      by (rewrite <- !app_assoc; reflexivity).
    replace (a ++ [x0a] ++ b) with ((a ++ [x0a]) ++ b)
      by (rewrite <- !app_assoc; reflexivity).
    rewrite (feed_app parser0 (a ++ [x0a]) ((c ++ [x0a]) ++ b) settled_parser0).
    rewrite (feed_app parser0 (a ++ [x0a]) b settled_parser0).
    fold p. rewrite (feed_app p (c ++ [x0a]) b Hs), E. reflexivity. }
  unfold readSseStream. cbn [feed_all]. rewrite F. reflexivity.
Qed.


End Client.

(* ===================================================================== *)
(** ** The statements at concrete inputs *)
(* ===================================================================== *)

(** Where the runs below start from is where [sendMessage] gets to. *)
Lemma armed_by_the_send (st : FetchResult) (fb : FallbackEnv) :
  arm (send_env st fb) (push (send_env st fb) at_rest) = armed.
Proof. reflexivity. Qed.

(** C2 at work: three deltas, the frame callback once between them. *)
Lemma C2_flush_loses_nothing_witness :
  streamingMsg (sess armed)
    = Some (mkStreamingMsg "c1" "a1" true false (js "Analisando…") None None) /\
  find_msg (conversations (sess armed)) "c1" "a1"
    = Some (mkMessage "a1" Assistant [] false []) /\
  content_of
    (flushStreamNow
       (run_buffer [Append (js "Hel"); Append (js "lo"); FrameRuns; Append (js ", world")]
          (sess armed))) "c1" "a1"
    = Some (js "Hello, world").
Proof.
  split; [reflexivity|]. split; [reflexivity|].
  etransitivity;
    [exact (proj1 (C2_flush_loses_nothing render (sess armed)
                     (mkStreamingMsg "c1" "a1" true false (js "Analisando…") None None)
                     (mkMessage "a1" Assistant [] false [])
                     [Append (js "Hel"); Append (js "lo"); FrameRuns; Append (js ", world")]
                     eq_refl eq_refl))
    |vm_compute; reflexivity].
Defined.


(** C9 at work: the sentinel under an [event: error] line. *)
Lemma C9_done_sentinel_comes_first_witness :
  dataLines (mkFrame (js "error") [js "[DONE]  "] false) <> [] /\
  trim (join nl (dataLines (mkFrame (js "error") [js "[DONE]  "] false))) = js "[DONE]" /\
  emit render (mkFrame (js "error") [js "[DONE]  "] false)
    = (mkFrame (js "message") [] true, [OnDone]).
Proof.
  split; [discriminate|]. split; [reflexivity|].
  apply (C9_done_sentinel_comes_first render); [discriminate|reflexivity].
Defined.



(** C6 at work: [Hello] appended and still in the buffer when the user stops,
    and a stop before anything arrived. *)
Lemma C6_stop_keeps_the_partial_text_witness :
  streamingMsg (sess armed)
    = Some (mkStreamingMsg "c1" "a1" true false (js "Analisando…") None None) /\
  find_msg (conversations (sess armed)) "c1" "a1"
    = Some (mkMessage "a1" Assistant [] false []) /\
  (streamingMsg (sess (stopGenerating (on_sess (run_buffer [Append (js "Hello")]) armed)))
     = None /\
   option_map interrupted
     (find_msg (conversations
                  (sess (stopGenerating (on_sess (run_buffer [Append (js "Hello")]) armed))))
        "c1" "a1") = Some true /\
   content_of (sess (stopGenerating (on_sess (run_buffer [Append (js "Hello")]) armed)))
     "c1" "a1" = Some (js "Hello")) /\
  content_of (sess (stopGenerating (on_sess (run_buffer []) armed))) "c1" "a1"
    = Some (js "Geração interrompida.").
Proof.
  split; [reflexivity|]. split; [reflexivity|]. split.
  - destruct (C6_stop_keeps_the_partial_text armed
                (mkStreamingMsg "c1" "a1" true false (js "Analisando…") None None)
                (mkMessage "a1" Assistant [] false [])
                [Append (js "Hello")] eq_refl eq_refl) as (H1 & _ & H3 & H4).
    split; [exact H1|]. split; [exact H3|].
    etransitivity; [exact H4|vm_compute; reflexivity].
  - destruct (C6_stop_keeps_the_partial_text armed
                (mkStreamingMsg "c1" "a1" true false (js "Analisando…") None None)
                (mkMessage "a1" Assistant [] false [])
                [] eq_refl eq_refl) as (_ & _ & _ & H4).
    etransitivity; [exact H4|vm_compute; reflexivity].
Defined.

(** C6 as stated fails: a delta of one space is appended, the user stops,
    and the message does not hold the space but the placeholder. *)
Lemma C6_blank_text_is_replaced :
  content_of (sess (stopGenerating (on_sess (run_buffer [Append (js " ")]) armed)))
    "c1" "a1" = Some (js "Geração interrompida.") /\
  content_of (sess (stopGenerating (on_sess (run_buffer [Append (js " ")]) armed)))
    "c1" "a1" <> Some (js " ").
Proof.
  split; [vm_compute; reflexivity|vm_compute; discriminate].
Qed.



(** C7 at work: the stream has begun on an armed session; the watchdog fires
    before any delta, or after the first one. *)
Lemma C7_watchdog_waits_for_the_first_chunk_only_witness :
  streamingMsg (sess reading)
    = Some (mkStreamingMsg "c1" "a1" true false (js "Conectando…") None None) /\
  streamingMsg (sess (on_sess (streamAppend (js "Hello")) reading))
    = Some (mkStreamingMsg "c1" "a1" true true (js "Conectando…") None None) /\
  (signalAborted (aside render (WatchdogFires fallback_replies) reading) = true /\
   watchdogFallback (aside render (WatchdogFires fallback_replies) reading) = true /\
   exists l, log (sess (aside render (WatchdogFires fallback_replies) reading))
             = log (sess reading) ++ l /\ In Abort l /\ In (Fetch "/chat") l) /\
  sess (aside render (WatchdogFires fallback_replies)
          (on_sess (streamAppend (js "Hello")) reading))
    = sess (on_sess (streamAppend (js "Hello")) reading).
Proof.
  split; [reflexivity|]. split; [reflexivity|]. split.
  - exact (proj1 (proj2 (proj2 (C7_watchdog_waits_for_the_first_chunk_only render
                    (send_env (sse_body "") fallback_replies) reading fallback_replies
                    (mkStreamingMsg "c1" "a1" true false (js "Conectando…") None None)
                    eq_refl))) eq_refl eq_refl eq_refl).
  - exact (proj1 (proj1 (proj2 (proj2 (proj2 (C7_watchdog_waits_for_the_first_chunk_only
                    render (send_env (sse_body "") fallback_replies)
                    (on_sess (streamAppend (js "Hello")) reading) fallback_replies
                    (mkStreamingMsg "c1" "a1" true true (js "Conectando…") None None)
                    eq_refl)))) eq_refl)).
Defined.

(** C7 as stated fails.  The stream request throws: the session was armed
    and is finalized by the fallback, and no watchdog was ever started.  And
    the stream delivers an [error] event and stays open: the watchdog fires
    with no delta ever seen, and neither aborts nor makes a request. *)
Lemma C7_armed_session_without_watchdog :
  (let y := sendMessage render (send_env (FetchThrows (js "Failed to fetch")) fallback_replies)
              at_rest in
   log (sess y) = [Persist; Fetch "/chat/stream"; Abort; Fetch "/chat"; Finalized FinalOk;
                   Persist; AutoTitle "c1"] /\
   ~ In (SetTimeout WATCHDOG_MS) (log (sess y))) /\
  (let y := sendMessage render
              (send_env (FetchResponse
                           (mkStreamResponse true 200 [] true true
                              [Chunk (wire "event: error|data: {'message':'boom'}||");
                               WatchdogFires fallback_replies]
                              EndOfStream))
                        fallback_replies) at_rest in
   log (sess y) = [Persist; Fetch "/chat/stream"; SetTimeout 12000;
                   Finalized (FinalError (js "boom")); Persist; ClearTimeout]).
Proof.
  split.
  - vm_compute. split; [reflexivity|].
    intros H. repeat (destruct H as [H|H]; [discriminate H|]). exact H.
  - vm_compute. reflexivity.
Qed.

(* ===================================================================== *)
(** ** Further statements at concrete inputs *)
(* ===================================================================== *)

(** X1 at work: two deltas and an artifact between them, then [done]. *)
Lemma done_after_events_keeps_text_and_artifacts_witness :
  streamingMsg (sess armed)
    = Some (mkStreamingMsg "c1" "a1" true false (js "Analisando…") None None) /\
  find_msg (conversations (sess armed)) "c1" "a1"
    = Some (mkMessage "a1" Assistant [] false []) /\
  forallb quiet [OnDelta (js "Hel"); OnArtifact (JStr (js "chart")); OnDelta (js "lo")] = true /\
  content_of
    (sess (handle_all render
             ([OnDelta (js "Hel"); OnArtifact (JStr (js "chart")); OnDelta (js "lo")]
              ++ [OnDone]) armed)) "c1" "a1"
    = Some (js "Hello") /\
  option_map artifacts
    (find_msg
       (conversations
          (sess (handle_all render
                   ([OnDelta (js "Hel"); OnArtifact (JStr (js "chart")); OnDelta (js "lo")]
                    ++ [OnDone]) armed))) "c1" "a1")
    = Some [JStr (js "chart")].
Proof.
  split; [reflexivity|]. split; [reflexivity|]. split; [reflexivity|].
  destruct (done_after_events_keeps_text_and_artifacts render armed
              (mkStreamingMsg "c1" "a1" true false (js "Analisando…") None None)
              (mkMessage "a1" Assistant [] false [])
              [OnDelta (js "Hel"); OnArtifact (JStr (js "chart")); OnDelta (js "lo")]
              eq_refl eq_refl eq_refl) as (_ & H2 & H3 & _).
  split.
  - etransitivity; [exact H2 | vm_compute; reflexivity].
  - etransitivity; [exact H3 | vm_compute; reflexivity].
Defined.


(** X3 at work: [abc] is in the buffer when the thread is rendered again;
    [def] arrives afterwards, and [def] is all the message holds. *)
Lemma rendering_the_thread_drops_the_buffer_witness :
  streamingMsg (streamAppend (js "abc") (sess armed))
    = Some (mkStreamingMsg "c1" "a1" true true (js "Analisando…") None None) /\
  find_msg (conversations (streamAppend (js "abc") (sess armed))) "c1" "a1"
    = Some (mkMessage "a1" Assistant [] false []) /\
  streamBuffer (streamAppend (js "abc") (sess armed)) = js "abc" /\
  content_of
    (flushStreamNow
       (run_buffer [Append (js "def")]
          (renderThread true (streamAppend (js "abc") (sess armed))))) "c1" "a1"
    = Some (js "def").
Proof.
  split; [vm_compute; reflexivity|]. split; [vm_compute; reflexivity|].
  split; [vm_compute; reflexivity|].
  destruct (rendering_the_thread_drops_the_buffer render
              (streamAppend (js "abc") (sess armed))
              (mkStreamingMsg "c1" "a1" true true (js "Analisando…") None None)
              (mkMessage "a1" Assistant [] false []) true [Append (js "def")]
              ltac:(vm_compute; reflexivity) ltac:(vm_compute; reflexivity))
    as (_ & H2 & _).
  etransitivity; [exact H2 | vm_compute; reflexivity].
Defined.

(** X4 at work: two deltas, then the frame callback. *)
Lemma frame_callback_delivers_the_buffer_witness :
  streamingMsg (sess armed)
    = Some (mkStreamingMsg "c1" "a1" true false (js "Analisando…") None None) /\
  find_msg (conversations (sess armed)) "c1" "a1"
    = Some (mkMessage "a1" Assistant [] false []) /\
  content_of
    (frameCallback (streamAppend (js "lo") (run_buffer [Append (js "Hel")] (sess armed))))
    "c1" "a1"
    = Some (js "Hello").
Proof.
  split; [reflexivity|]. split; [reflexivity|].
  destruct (frame_callback_delivers_the_buffer (sess armed)
              (mkStreamingMsg "c1" "a1" true false (js "Analisando…") None None)
              (mkMessage "a1" Assistant [] false []) [Append (js "Hel")] (js "lo")
              eq_refl eq_refl) as (H1 & _).
  etransitivity; [exact H1 | vm_compute; reflexivity].
Defined.


(** X6 at work: the reply is trimmed and becomes the answer; and the log of
    a send with a file attached whose request is slow. *)
Lemma single_reply_send_witness :
  streamingMsg (sess armed)
    = Some (mkStreamingMsg "c1" "a1" true false (js "Analisando…") None None) /\
  find_msg (conversations (sess armed)) "c1" "a1"
    = Some (mkMessage "a1" Assistant [] false []) /\
  answer render (chat (send_env_once
                         (PostResponse true 200 [] (JObj [(js "reply", JStr (js " Hi "))]))))
    = Some (js "Hi") /\
  content_of
    (sess (fst (send_once render
                  (send_env_once
                     (PostResponse true 200 [] (JObj [(js "reply", JStr (js " Hi "))])))
                  armed))) "c1" "a1"
    = Some (js "Hi") /\
  log (sess (fst (send_once render
                    (mkSendEnv (js "hi") true "c1" "u1" "a1" true false
                       (PostResponse true 200 [] (JObj [(js "reply", JStr (js " Hi "))]))
                       None (FetchThrows []) fallback_fails false true)
                    armed)))
    = log (sess armed)
      ++ [SetTimeout 5000; Toast no_files_text; Fetch "/chat"; Toast slow_hint_text;
          ClearTimeout; Finalized FinalOk; Persist; AutoTitle "c1"].
Proof.
  split; [reflexivity|]. split; [reflexivity|]. split; [vm_compute; reflexivity|].
  split; [|vm_compute; reflexivity].
  destruct (proj1 (single_reply_send render
                     (send_env_once
                        (PostResponse true 200 [] (JObj [(js "reply", JStr (js " Hi "))])))
                     armed
                     (mkStreamingMsg "c1" "a1" true false (js "Analisando…") None None)
                     (mkMessage "a1" Assistant [] false [])
                     eq_refl eq_refl eq_refl eq_refl)
                  (js "Hi") ltac:(vm_compute; reflexivity)) as (_ & _ & H3 & _).
  etransitivity; [exact H3 | vm_compute; reflexivity].
Defined.

(** X7 at work: the stream ends there, and the answer keeps [Hel], marked
    as interrupted. *)
Lemma stream_end_without_terminal_event_witness :
  watchdogFallback partial = false /\ emptyStreamDone partial = false /\
  streamingMsg (sess partial)
    = Some (mkStreamingMsg "c1" "a1" true true (js "Conectando…") None None) /\
  find_msg (conversations (sess partial)) "c1" "a1"
    = Some (mkMessage "a1" Assistant (js "Hel") false []) /\
  blank (js "Hel") = false /\
  content_of (sess (after_stream render (send_env (FetchThrows []) fallback_fails) partial))
    "c1" "a1" = Some (js "Hel") /\
  option_map interrupted
    (find_msg (conversations
                 (sess (after_stream render (send_env (FetchThrows []) fallback_fails) partial)))
       "c1" "a1") = Some true.
Proof.
  split; [reflexivity|]. split; [reflexivity|].
  split; [vm_compute; reflexivity|]. split; [vm_compute; reflexivity|].
  split; [vm_compute; reflexivity|].
  destruct (stream_end_without_terminal_event render
              (send_env (FetchThrows []) fallback_fails) partial
              (mkStreamingMsg "c1" "a1" true true (js "Conectando…") None None)
              (mkMessage "a1" Assistant (js "Hel") false [])
              eq_refl eq_refl ltac:(vm_compute; reflexivity) eq_refl eq_refl
              ltac:(vm_compute; reflexivity)) as (_ & H2 & _).
  destruct (H2 ltac:(vm_compute; reflexivity)) as (K1 & K2 & _).
  split.
  - etransitivity; [exact K1 | vm_compute; reflexivity].
  - exact K2.
Defined.

(** X8 at work: a body of plain text in two chunks that cut the two bytes
    of a letter apart. *)
Lemma plain_text_body_is_the_answer_witness :
  streamingMsg (sess reading)
    = Some (mkStreamingMsg "c1" "a1" true false (js "Conectando…") None None) /\
  find_msg (conversations (sess reading)) "c1" "a1"
    = Some (mkMessage "a1" Assistant [] false []) /\
  signalAborted reading = false /\
  content_of
    (sess (fst (read_text render Utf8.fresh
                  (map Chunk [[x4f; x6c; xc3]; [xa1; x21]]) EndOfStream reading)))
    "c1" "a1"
    = Some (js "Olá!").
Proof.
  split; [vm_compute; reflexivity|]. split; [vm_compute; reflexivity|].
  split; [reflexivity|].
  destruct (plain_text_body_is_the_answer render [[x4f; x6c; xc3]; [xa1; x21]] reading
              (mkStreamingMsg "c1" "a1" true false (js "Conectando…") None None)
              (mkMessage "a1" Assistant [] false [])
              ltac:(vm_compute; reflexivity) ltac:(vm_compute; reflexivity) eq_refl)
    as (_ & _ & H3 & _).
  etransitivity; [exact H3 | vm_compute; reflexivity].
Defined.

(** X9 at work: a client at rest is idle, and idle again after a send. *)
Lemma sendMessage_returns_to_idle_witness :
  idle at_rest /\
  idle (sendMessage render (send_env (sse_body "data: [DONE]||") fallback_replies) at_rest).
Proof.
  assert (H : idle at_rest) by (repeat split; reflexivity).
  split; [exact H|].
  exact (sendMessage_returns_to_idle render
           (send_env (sse_body "data: [DONE]||") fallback_replies) at_rest H).
Defined.

(** X10 at work: an object behind two spaces, followed by text. *)
Lemma splitLeadingJson_partitions_the_text_witness :
  splitLeadingJson (jq "  {'a':[1,'}']} tail")
    = Some (jq "{'a':[1,'}']}", js " tail") /\
  jq "{'a':[1,'}']}" ++ js " tail" = trimStart (jq "  {'a':[1,'}']} tail").
Proof.
  assert (H : splitLeadingJson (jq "  {'a':[1,'}']} tail")
              = Some (jq "{'a':[1,'}']}", js " tail")) by (vm_compute; reflexivity).
  split; [exact H|].
  exact (proj1 (splitLeadingJson_partitions_the_text _ _ _ H)).
Defined.

(** X11 at work: a comment with a letter of two bytes, between a data line
    and the blank line that ends its frame. *)
Lemma ignored_lines_change_nothing_witness :
  ~ In x0a (list_byte_of_string ": olá") /\
  line_text (list_byte_of_string ": olá") = js ": olá" /\
  ignored_line (line_text (list_byte_of_string ": olá")) = true /\
  readSseStream render
    [list_byte_of_string "data: x" ++ [x0a] ++ list_byte_of_string ": olá"
     ++ [x0a] ++ [x0a]]
  = readSseStream render [list_byte_of_string "data: x" ++ [x0a] ++ [x0a]] /\
  readSseStream render [list_byte_of_string "data: x" ++ [x0a] ++ [x0a]]
  = ([OnDelta (js "x")], false).
Proof.
  assert (H1 : ~ In x0a (list_byte_of_string ": olá")).
  { vm_compute. intros K.
    repeat (destruct K as [K|K]; [discriminate K|]). exact K. }
  assert (H2 : ignored_line (line_text (list_byte_of_string ": olá")) = true)
    by (vm_compute; reflexivity).
  split; [exact H1|]. split; [vm_compute; reflexivity|]. split; [exact H2|]. split.
  - exact (ignored_lines_change_nothing render (list_byte_of_string "data: x")
             (list_byte_of_string ": olá") [x0a] H1 H2).
  - vm_compute. reflexivity.
Defined.

(** X15 at work: a probe answered at 1100 ms, and a second call at 2000 ms:
    it returns the first answer, though the backend has gone. *)
Lemma health_probe_is_throttled_witness :
  trim (BACKEND_BASE backend0) <> [] /\
  (probe_now (mkProbe 2000 false 2100)
   - healthLastAt (fst (pingBackendHealth (mkProbe 1000 true 1100) backend0))
   < HEALTH_COOLDOWN_MS)%Z /\
  pingBackendHealth (mkProbe 2000 false 2100)
    (fst (pingBackendHealth (mkProbe 1000 true 1100) backend0))
  = (fst (pingBackendHealth (mkProbe 1000 true 1100) backend0), true).
Proof.
  assert (H1 : trim (BACKEND_BASE backend0) <> []) by (vm_compute; discriminate).
  assert (H2 : (probe_now (mkProbe 2000 false 2100)
                - healthLastAt (fst (pingBackendHealth (mkProbe 1000 true 1100) backend0))
                < HEALTH_COOLDOWN_MS)%Z) by (vm_compute; reflexivity).
  split; [exact H1|]. split; [exact H2|].
  exact (proj1 (health_probe_is_throttled (mkProbe 1000 true 1100) (mkProbe 2000 false 2100)
                  backend0 H1) H2).
Defined.

(** X16 at work: the first send of a conversation carries the user's
    message alone. *)
Lemma request_leaves_out_blank_messages_witness :
  find (is_conv (env_conv (send_env (FetchThrows []) fallback_fails)))
       (conversations (sess at_rest)) = Some (mkConversation "c1" []) /\
  exists c',
    find (is_conv (env_conv (send_env (FetchThrows []) fallback_fails)))
         (push_messages (send_env (FetchThrows []) fallback_fails)
            (conversations (sess at_rest))) = Some c' /\
    buildBackendMessages c' = [(User, js "hi")].
Proof.
  split; [reflexivity|].
  destruct (request_leaves_out_blank_messages (send_env (FetchThrows []) fallback_fails)
              (conversations (sess at_rest)) (mkConversation "c1" []) eq_refl)
    as (_ & c' & H1 & H2).
  exists c'. split; [exact H1|].
  etransitivity; [exact H2 | vm_compute; reflexivity].
Defined.

(** X19 at work: the first call asks for a title and gets one; the second
    asks for nothing. *)
Lemma auto_title_is_requested_once_witness :
  snd (maybeAutoTitleConversation render
         (TitleResponse true (JObj [(js "title", JStr (js "Greeting"))]))
         (fun t => t) first_exchange) = true /\
  title (fst (maybeAutoTitleConversation render
                (TitleResponse true (JObj [(js "title", JStr (js "Greeting"))]))
                (fun t => t) first_exchange)) = js "Greeting" /\
  maybeAutoTitleConversation render TitleThrows (fun t => t)
    (fst (maybeAutoTitleConversation render
            (TitleResponse true (JObj [(js "title", JStr (js "Greeting"))]))
            (fun t => t) first_exchange))
  = (fst (maybeAutoTitleConversation render
            (TitleResponse true (JObj [(js "title", JStr (js "Greeting"))]))
            (fun t => t) first_exchange), false).
Proof.
  assert (H : snd (maybeAutoTitleConversation render
                     (TitleResponse true (JObj [(js "title", JStr (js "Greeting"))]))
                     (fun t => t) first_exchange) = true) by (vm_compute; reflexivity).
  split; [exact H|]. split; [vm_compute; reflexivity|].
  exact (proj2 (proj2 (auto_title_is_requested_once render
                         (TitleResponse true (JObj [(js "title", JStr (js "Greeting"))]))
                         TitleThrows (fun t => t) (fun t => t) (fun t => t) first_exchange
                         (fun t E => E) (fun t E => E) H))).
Defined.

(** X12 at work: with two retries, the third call is the one returned; an
    abort ends the loop at the first call. *)
Lemma fetchWithRetry_stops_at_the_first_answer_witness :
  1 <= snd (fetchWithRetry third_time 2) <= 3 /\
  fetchWithRetry third_time 2 = (@Returned N 7%N, 3) /\
  fetchWithRetry aborted_at_once 2 = (@Thrown N AbortError, 1).
Proof.
  split; [exact (proj1 (fetchWithRetry_stops_at_the_first_answer third_time 2))|].
  split; vm_compute; reflexivity.
Defined.

(** X14 at work: from [http://localhost:8000] with no backend reachable,
    one probe is made, of the loopback address, and the base stays there. *)
Lemma ensureBackendBaseOnline_settles_on_a_candidate_witness :
  snd (ensureBackendBaseOnline all_fail true backend_localhost) = false /\
  BACKEND_BASE (fst (ensureBackendBaseOnline all_fail true backend_localhost))
    = js "http://127.0.0.1:8000" /\
  probed (fst (ensureBackendBaseOnline all_fail true backend_localhost))
    = [js "http://127.0.0.1:8000"] /\
  backendOnline (fst (ensureBackendBaseOnline all_fail true backend_localhost)) = false.
Proof.
  assert (H : snd (ensureBackendBaseOnline all_fail true backend_localhost) = false)
    by (vm_compute; reflexivity).
  split; [exact H|].
  destruct (ensureBackendBaseOnline_settles_on_a_candidate all_fail true backend_localhost)
    as (H1 & _ & _ & _ & H5 & _).
  split; [exact (proj1 (H5 H))|].
  split; [vm_compute; reflexivity|].
  etransitivity; [exact H1 | exact H].
Defined.

(** X20 at work: a conversation renamed by hand gets no request and keeps
    its title. *)
Lemma manual_title_is_never_replaced_witness :
  titleSource renamed = js "manual" /\
  maybeAutoTitleConversation render
    (TitleResponse true (JObj [(js "title", JStr (js "Greeting"))])) (fun t => t) renamed
  = (renamed, false).
Proof.
  split; [reflexivity|].
  exact (proj1 (manual_title_is_never_replaced render
                  (TitleResponse true (JObj [(js "title", JStr (js "Greeting"))]))
                  (fun t => t) renamed) eq_refl).
Defined.

(** X21 at work: a frame whose two lines end with a carriage return and a
    line feed. *)
Lemma carriage_returns_before_line_feeds_change_nothing_witness :
  ~ In x0d (list_byte_of_string "data: x" ++ [x0a; x0a]) /\
  crlf (list_byte_of_string "data: x" ++ [x0a; x0a])
    = list_byte_of_string "data: x" ++ [x0d; x0a; x0d; x0a] /\
  readSseStream render [crlf (list_byte_of_string "data: x" ++ [x0a; x0a])]
    = ([OnDelta (js "x")], false).
Proof.
  assert (H : ~ In x0d (list_byte_of_string "data: x" ++ [x0a; x0a])).
  { vm_compute. intros K.
    repeat (destruct K as [K|K]; [discriminate K|]). exact K. }
  split; [exact H|]. split; [vm_compute; reflexivity|].
  etransitivity;
    [exact (carriage_returns_before_line_feeds_change_nothing render _ H)
    |vm_compute; reflexivity].
Defined.
